(** * tag_to_svg: a shallow embedding of [tag_to_svg.py]

    The script resolves an id specification to a list of tag ids, looks the
    tags up among the files of a family directory, decodes them and emits
    one SVG document with a rectangle per pixel.

    Modelling conventions.
    - A Python [str] is a [string]; each [ascii] is read as a code point
      below 256.
    - A Python [int] is a [Z].
    - A Python [float] is a binary64 value of [SpecFloat.spec_float]
      (precision 53, maximal exponent 1024), with the operations of the
      standard library's specification of IEEE 754 arithmetic.  How a
      float is printed is a parameter, [float_str].
    - Exceptions are values of [exn]; a computation that may raise returns
      a [result].
    - [print], the directory listing, the image decoder and the final file
      write act on an explicit [World]; the tag files are RGBA images, or
      do not decode. *)

From Stdlib Require Import NArith ZArith List String Ascii Bool Lia.
From Stdlib Require Import Strings.Byte DecimalString SpecFloat.
From Stdlib Require Import DecimalPos DecimalZ Sorted.
Import ListNotations.

Local Open Scope Z_scope.
Local Open Scope string_scope.

(* ================================================================= *)
(** ** Exceptions and results *)

Inductive exn : Type :=
| ValueError
| ZeroDivisionError
| OverflowError
| AssertionError
| OSError
| UnidentifiedImageError.

Inductive result (A : Type) : Type :=
| Ok (a : A)
| Raise (e : exn).

Arguments Ok {A} a.
Arguments Raise {A} e.

Definition rbind {A B} (r : result A) (k : A -> result B) : result B :=
  match r with
  | Ok a => k a
  | Raise e => Raise e
  end.

Declare Scope result_scope.
Delimit Scope result_scope with result.
Notation "x <-- r ;; k" := (rbind r (fun x => k))
  (at level 61, r at next level, right associativity) : result_scope.

(** The list comprehension [[f(x) for x in xs]]: left to right, the first
    exception aborts it. *)
Fixpoint rmap {A B} (f : A -> result B) (xs : list A) : result (list B) :=
  match xs with
  | [] => Ok []
  | x :: xs' =>
      match f x with
      | Raise e => Raise e
      | Ok y =>
          match rmap f xs' with
          | Raise e => Raise e
          | Ok ys => Ok (y :: ys)
          end
      end
  end.

(* ================================================================= *)
(** ** Strings *)

(** [c in s] for a one-character [c]. *)
Fixpoint contains (c : ascii) (s : string) : bool :=
  match s with
  | EmptyString => false
  | String a s' => Ascii.eqb a c || contains c s'
  end.

(** [s.count(c)] for a one-character [c]. *)
Fixpoint count (c : ascii) (s : string) : nat :=
  match s with
  | EmptyString => O
  | String a s' => if Ascii.eqb a c then S (count c s') else count c s'
  end.

(** [s.split(c)] for a one-character separator: every occurrence of [c]
    separates two pieces, so the result has [count c s + 1] pieces. *)
Fixpoint split (c : ascii) (s : string) : list string :=
  match s with
  | EmptyString => [EmptyString]
  | String a s' =>
      if Ascii.eqb a c then EmptyString :: split c s'
      else
        match split c s' with
        | [] => [String a EmptyString]
        | piece :: pieces => String a piece :: pieces
        end
  end.

(** [s.endswith(suffix)]. *)
Definition endswith (s suffix : string) : bool :=
  let n := String.length s in
  let k := String.length suffix in
  if (k <=? n)%nat then String.eqb (substring (n - k) k s) suffix else false.

(** *** [int(s)]

    Base ten: optional surrounding white space, an optional sign, then
    decimal digits in which single underscores may separate digits.  The
    white space of [int] is the ASCII set 9..13 and 32, and the two Latin-1
    spaces 0x85 and 0xA0.  A text with more than 4300 digits (leading
    zeros counted; signs, white space and underscores not) raises
    [ValueError]: the interpreter's default limit on the conversion of
    decimal texts. *)

Definition is_space (c : ascii) : bool :=
  let n := N_of_ascii c in
  ((9 <=? n) && (n <=? 13) || (n =? 32) || (n =? 133) || (n =? 160))%N.

Definition digit_of (c : ascii) : option Z :=
  let n := N_of_ascii c in
  if ((48 <=? n) && (n <=? 57))%N then Some (Z.of_N (n - 48)) else None.

Fixpoint skip_spaces (s : string) : string :=
  match s with
  | String c s' => if is_space c then skip_spaces s' else s
  | EmptyString => s
  end.

Fixpoint all_spaces (s : string) : bool :=
  match s with
  | String c s' => is_space c && all_spaces s'
  | EmptyString => true
  end.

(** The digits after the first one; [acc] is the value read so far and the
    previous character was a digit. *)
Fixpoint int_digits (acc : Z) (s : string) : option Z :=
  match s with
  | EmptyString => Some acc
  | String c s' =>
      match digit_of c with
      | Some d => int_digits (10 * acc + d) s'
      | None =>
          if Ascii.eqb c "_" then
            match s' with
            | String c' s'' =>
                match digit_of c' with
                | Some d => int_digits (10 * acc + d) s''
                | None => None
                end
            | EmptyString => None
            end
          else if is_space c then
            (if all_spaces s' then Some acc else None)
          else None
      end
  end.

Definition int_unsigned (s : string) : option Z :=
  match s with
  | String c s' =>
      match digit_of c with
      | Some d => int_digits d s'
      | None => None
      end
  | EmptyString => None
  end.

Definition int_opt (s : string) : option Z :=
  match skip_spaces s with
  | String "+" s' => int_unsigned s'
  | String "-" s' => option_map Z.opp (int_unsigned s')
  | s' => int_unsigned s'
  end.

(** The number of decimal digits in a text. *)
Fixpoint count_digits (s : string) : N :=
  match s with
  | EmptyString => 0%N
  | String c s' =>
      match digit_of c with
      | Some _ => N.succ (count_digits s')
      | None => count_digits s'
      end
  end.

(** [sys.get_int_max_str_digits()], at its default. *)
Definition max_str_digits : N := 4300.

Definition int (s : string) : result Z :=
  if (max_str_digits <? count_digits s)%N then Raise ValueError
  else
    match int_opt s with
    | Some z => Ok z
    | None => Raise ValueError
    end.

(** [list(range(a, b))]. *)
Definition range (a b : Z) : list Z :=
  map (fun k => a + Z.of_nat k) (seq 0 (Z.to_nat (b - a))).

(* ================================================================= *)
(** ** Tag Resolver: the id specification (lines 120-126 of [main]) *)

Definition resolve_tag_ids (tag_id : string) : result (list Z) :=
  if contains "," tag_id then
    rmap int (split "," tag_id)
  else if contains "-" tag_id then
    match split "-" tag_id with
    | [start; end_] =>
        (a <-- int start ;;
         b <-- int end_ ;;
         Ok (range a (b + 1)))%result
    | _ => Raise ValueError
    end
  else
    (a <-- int tag_id ;; Ok [a])%result.

(* ================================================================= *)
(** ** Numbers *)

(** [str(z)] for an [int] of at most 4300 digits, as the integers that the
    script prints are: the ids come from [int], the column count is printed
    after its coercion to a float, and the others are lengths and
    indices. *)
Definition str_int (z : Z) : string :=
  DecimalString.NilZero.string_of_int (Z.to_int z).

Fixpoint zfill (k : nat) (s : string) : string :=
  match k with
  | O => s
  | S k' => zfill k' (String "0" s)
  end.

(** [f'{z:05d}']: sign first, then zeros up to a total width of five. *)
Definition format_05d (z : Z) : string :=
  if (z <? 0)%Z then
    let digits := str_int (- z) in
    String "-" (zfill (4 - String.length digits) digits)
  else
    let digits := str_int z in
    zfill (5 - String.length digits) digits.

Definition hex_digit (n : N) : ascii :=
  if (n <? 10)%N then ascii_of_N (48 + n) else ascii_of_N (87 + n).

(** [f'{v:02x}'] for a [uint8]. *)
Definition format_02x (v : Byte.byte) : string :=
  let n := Byte.to_N v in
  String (hex_digit (n / 16)) (String (hex_digit (n mod 16)) EmptyString).

(** *** Floats: binary64 *)

Definition prec : Z := 53.
Definition emax : Z := 1024.

Definition float : Type := spec_float.

Definition fadd : float -> float -> float := SFadd prec emax.
Definition fsub : float -> float -> float := SFsub prec emax.
Definition fmul : float -> float -> float := SFmul prec emax.
Definition fdiv : float -> float -> float := SFdiv prec emax.

(** The float nearest to an integer (ties to even); infinite beyond the
    range of binary64.  It is the coercion of the integers that cannot be
    beyond that range when they meet a float: the indices and lengths of
    the collection and of its rasters, the number of rows, and the row and
    column of a tag, smaller in magnitude than [cols], which has been
    coerced before them. *)
Definition to_float (z : Z) : float := binary_normalize prec emax z 0 false.

(** The coercion of an [int] operand of a float operation: it raises
    [OverflowError] where the integer is beyond the range of binary64. *)
Definition float_of_int (z : Z) : result float :=
  match to_float z with
  | S754_infinity _ => Raise OverflowError
  | f => Ok f
  end.

Definition is_zero (x : float) : bool :=
  match x with
  | S754_zero _ => true
  | _ => false
  end.

Definition is_finite (x : float) : bool :=
  match x with
  | S754_zero _ | S754_finite _ _ _ => true
  | _ => false
  end.

(** [x == y], [x < y] and [x <= y] on floats. *)
Definition feq : float -> float -> bool := SFeqb.
Definition flt : float -> float -> bool := SFltb.
Definition fle : float -> float -> bool := SFleb.

(** The float [0.0]. *)
Definition fzero : float := S754_zero false.

(** [x / y] on floats: Python raises where IEEE 754 returns an infinity
    or a NaN for a zero divisor. *)
Definition truediv (x y : float) : result float :=
  if is_zero y then Raise ZeroDivisionError else Ok (fdiv x y).

(** The literal [0.8]: the binary64 value nearest to 8/10. *)
Definition lit_0_8 : float := S754_finite false 7205759403792794 (-53).

(** [math.ceil(n / c)] on two [int]s.  The true division of two integers
    is correctly rounded, and [n] is the length of a dict, far below 2^53:
    the ceiling of the rounded quotient is then the ceiling of the exact
    quotient, which is computed here on integers ([Z.div] rounds toward
    minus infinity, as [//] does).  (A quotient may underflow to zero only
    for a [c] beyond the range of a float, and the emitter then raises at
    its next statement, before the number of rows is used.) *)
Definition ceil_truediv (n c : Z) : result Z :=
  if (c =? 0)%Z then Raise ZeroDivisionError else Ok (- ((- n) / c)).

(* ================================================================= *)
(** ** Rasters and the tag collection *)

(** One decoded pixel: the channels R, G, B, A, a [uint8] each. *)
Record Pixel : Type := mkPixel {
  red : Byte.byte;
  green : Byte.byte;
  blue : Byte.byte;
  alpha : Byte.byte
}.

(** A decoded image: an array of shape [(shape0, shape1, 4)], indexed
    first by the line [_y] and then by the column [_x].  This is the RGBA
    raster of the data model; the shape is stored apart from the pixels,
    as numpy does, and either length may be zero. *)
Record Raster : Type := mkRaster {
  shape0 : nat;
  shape1 : nat;
  pixel_at : nat -> nat -> Pixel
}.

(** A [dict] keeps its keys in insertion order; a second assignment to a
    key replaces the value where the key stands. *)
Definition dict (V : Type) : Type := list (string * V).

Fixpoint dict_set {V} (d : dict V) (k : string) (v : V) : dict V :=
  match d with
  | [] => [(k, v)]
  | (k', v') :: d' =>
      if String.eqb k' k then (k, v) :: d' else (k', v') :: dict_set d' k v
  end.

Definition keys {V} (d : dict V) : list string := map fst d.

(* ================================================================= *)
(** ** The world of a run, and computations on it *)

(** The file system is what the run is told of it: the answers of
    [glob.glob], of [os.path.exists] and of the decoder.  A write changes
    them (see [write_file]): the file written exists from then on, it holds
    a text and no image, and [glob.glob] may list it; how the listing reads
    then, and what a write that fails leaves behind, is the environment's
    to say. *)
Record World : Type := mkWorld {
  listing : string -> list string;     (* glob.glob *)
  exists_ : string -> bool;            (* os.path.exists *)
  decode : string -> option Raster;    (* np.array(Image.open(path)) for a
                                          file that is an RGBA image, as the
                                          images of the families are, or that
                                          does not decode; an image of another
                                          mode has no four channels and is
                                          outside this model *)
  writable : string -> bool;           (* the [with] block of lines 145-146
                                          runs to its end: the file is opened
                                          and the text written in full *)
  stdout : list string;                (* the lines printed so far *)
  written : list (string * string);    (* the files opened for writing so
                                          far, the last one first, with what
                                          they hold *)
  leftover : string -> string -> option string;
                                       (* where the block raises, for a path
                                          and a text: [None] if [open] raised
                                          (no file is made), else what the
                                          file holds after the failed write *)
  relisted : string -> string -> list string
                                       (* glob.glob(pattern) once the file of
                                          a path has been made *)
}.

Definition M (A : Type) : Type := World -> result A * World.

Definition ret {A} (a : A) : M A := fun w => (Ok a, w).

Definition raise {A} (e : exn) : M A := fun w => (Raise e, w).

Definition bind {A B} (m : M A) (k : A -> M B) : M B :=
  fun w =>
    match m w with
    | (Ok a, w') => k a w'
    | (Raise e, w') => (Raise e, w')
    end.

Definition lift {A} (r : result A) : M A := fun w => (r, w).

Declare Scope run_scope.
Delimit Scope run_scope with run.
Notation "x <- m ;; k" := (bind m (fun x => k))
  (at level 61, m at next level, right associativity) : run_scope.
Notation "m ;; k" := (bind m (fun _ => k))
  (at level 61, right associativity) : run_scope.

Definition print (line : string) : M unit :=
  fun w =>
    (Ok tt, mkWorld (listing w) (exists_ w) (decode w) (writable w)
                    (stdout w ++ [line]) (written w)
                    (leftover w) (relisted w)).

Definition glob (pattern : string) : M (list string) :=
  fun w => (Ok (listing w pattern), w).

Definition path_exists (path : string) : M bool :=
  fun w => (Ok (exists_ w path), w).

(** A file that does not decode is fatal: the exception propagates. *)
Definition load_image (path : string) : M Raster :=
  fun w =>
    match decode w path with
    | Some image => (Ok image, w)
    | None => (Raise UnidentifiedImageError, w)
    end.

(** The world once [open(path, 'w')] has made the file, or emptied it, and
    the file holds [content]. *)
Definition created (w : World) (path content : string) : World :=
  mkWorld (relisted w path)
          (fun p => String.eqb p path || exists_ w p)
          (fun p => if String.eqb p path then None else decode w p)
          (writable w) (stdout w) ((path, content) :: written w)
          (leftover w) (relisted w).

(** Lines 145-146: [with open(path, 'w') as fp: fp.write(text)].  [open]
    raises [OSError] and makes no file, or it makes the file (or empties
    it) and the text is written: in full, or, where the write or the
    closing of the file raises [OSError], with some of it left in the
    file. *)
Definition write_file (path text : string) : M unit :=
  fun w =>
    if writable w path then (Ok tt, created w path text)
    else
      match leftover w path text with
      | Some content => (Raise OSError, created w path content)
      | None => (Raise OSError, w)
      end.

(** A [for] loop that threads the variables [s] the body assigns. *)
Fixpoint for_each {A S} (xs : list A) (body : A -> S -> M S) (s : S) : M S :=
  match xs with
  | [] => ret s
  | x :: xs' => (s' <- body x s ;; for_each xs' body s')%run
  end.

(** [enumerate(xs)]. *)
Definition enumerate {A} (xs : list A) : list (nat * A) :=
  combine (seq 0 (List.length xs)) xs.

(* ================================================================= *)
(** ** SVG Layout Emitter *)

Definition dq : string := String (ascii_of_nat 34) EmptyString.
Definition tab : string := String (ascii_of_nat 9) EmptyString.
Definition nl : string := String (ascii_of_nat 10) EmptyString.

(** [''.join(pieces)]. *)
Definition join (pieces : list string) : string :=
  fold_right append EmptyString pieces.

(** [name="value"]. *)
Definition attr (name value : string) : string :=
  name ++ "=" ++ dq ++ value ++ dq.

(** At most [k] decimal digits of the fraction [num / den]. *)
Fixpoint frac_digits (k : nat) (num den : Z) : string :=
  match k with
  | O => EmptyString
  | S k' =>
      if (num =? 0)%Z then EmptyString
      else String (ascii_of_N (48 + Z.to_N (10 * num / den)))
                  (frac_digits k' ((10 * num) mod den) den)
  end.

(** The exact decimal expansion of a binary64 value.  It is what [str]
    prints for the floats whose shortest round-trip decimal is exact and
    positional (147.5, 3.75, 10.0); the examples run the emitter with it. *)
Definition str_float_exact (x : float) : string :=
  match x with
  | S754_zero s => if s then "-0.0" else "0.0"
  | S754_infinity s => if s then "-inf" else "inf"
  | S754_nan => "nan"
  | S754_finite s m e =>
      let sign := if s then "-" else EmptyString in
      if (0 <=? e)%Z then sign ++ str_int (Z.pos m * 2 ^ e) ++ ".0"
      else
        let den := (2 ^ (- e))%Z in
        let ip := (Z.pos m / den)%Z in
        let fp := (Z.pos m mod den)%Z in
        sign ++ str_int ip ++ "." ++
        (if (fp =? 0)%Z then "0" else frac_digits (Z.to_nat (- e)) fp den)
  end.

Section Emitter.

(** [str(x)] for a float, as the f-strings apply it: Python's shortest
    round-trip decimal.  The emitter is studied for every such printer. *)
Variable float_str : float -> string.

Definition gen_rgba (rbga : Pixel) : string :=
  let '(mkPixel _r _g _b _raw_a) := rbga in
  let _a := fdiv (to_float (Z.of_N (Byte.to_N _raw_a))) (to_float 255) in
  "rgba(" ++ str_int (Z.of_N (Byte.to_N _r)) ++ ", "
          ++ str_int (Z.of_N (Byte.to_N _g)) ++ ", "
          ++ str_int (Z.of_N (Byte.to_N _b)) ++ ", "
          ++ float_str _a ++ ")".

(** [tag_size + (2*margin)]. *)
Definition pitch (tag_size margin : float) : float :=
  fadd tag_size (fmul (to_float 2) margin).

Definition xml_decl : string :=
  "<?xml " ++ attr "version" "1.0" ++ " " ++ attr "standalone" "yes"
           ++ "?>" ++ nl.

Definition svg_open (svg_width svg_height : float) : string :=
  "<svg " ++ attr "width" (float_str svg_width ++ "mm")
  ++ " " ++ attr "height" (float_str svg_height ++ "mm")
  ++ " " ++ attr "viewBox"
                 ("0,0," ++ float_str svg_width ++ "," ++ float_str svg_height)
  ++ " " ++ attr "xmlns" "http://www.w3.org/2000/svg" ++ ">" ++ nl.

(** ['#' + ''.join([f'{v:02x}' for v in pixel[:3]])]. *)
Definition rgb_hex (p : Pixel) : string :=
  "#" ++ join (map format_02x [red p; green p; blue p]).

(** Line 107: the rectangle of one pixel. *)
Definition pixel_rect (pix_width pix_height x y : float)
    (tag_name : string) (_x _y : nat) (p : Pixel) : string :=
  let _rgba := gen_rgba p in
  let _rgb_hex := rgb_hex p in
  let _id := tag_name ++ "-" ++ str_int (Z.of_nat _x)
                      ++ "-" ++ str_int (Z.of_nat _y) in
  tab ++ "<rect " ++ attr "width" (float_str pix_width)
  ++ " " ++ attr "height" (float_str pix_height)
  ++ " " ++ attr "x"
       (float_str (fadd x (fmul (to_float (Z.of_nat _x)) pix_width)))
  ++ " " ++ attr "y"
       (float_str (fadd y (fmul (to_float (Z.of_nat _y)) pix_height)))
  ++ " " ++ attr "id" _id
  ++ " " ++ attr "style"
       ("fill:" ++ _rgb_hex ++ ";stroke:#000000;stroke-width:0.0")
  ++ "/>" ++ nl.

(** Line 109: the label under the tag. *)
Definition label_text (tag_size margin x y : float) (tag_name : string)
    : string :=
  tab ++ "<text "
  ++ attr "x" (float_str (fadd x (fdiv tag_size (to_float 2))))
  ++ " " ++ attr "y"
       (float_str (fadd (fadd y tag_size) (fmul lit_0_8 margin)))
  ++ " " ++ attr "font-size" (float_str (fmul margin lit_0_8))
  ++ " " ++ attr "font-family" "monospace"
  ++ " " ++ attr "text-anchor" "middle"
  ++ " " ++ attr "fill" "#5EEF5E"
  ++ ">" ++ tag_name ++ "</text>" ++ nl.

(** Line 111: the frame around the tag and its margin. *)
Definition border_rect (tag_size margin x y : float) : string :=
  tab ++ "<rect "
  ++ attr "width" (float_str (fadd (fadd tag_size margin) margin))
  ++ " " ++ attr "height" (float_str (fadd (fadd tag_size margin) margin))
  ++ " " ++ attr "x" (float_str (fsub x margin))
  ++ " " ++ attr "y" (float_str (fsub y margin))
  ++ " " ++ attr "fill" "none"
  ++ " " ++ attr "stroke" "#888888"
  ++ " " ++ attr "stroke-width" "1"
  ++ "/>" ++ nl.

(** Lines 102-107: the two nested loops over the pixels. *)
Definition emit_pixels (pix_width pix_height x y : float)
    (tag_name : string) (tag_image : Raster) (svg_text : string)
    : M string :=
  for_each (seq 0 (shape0 tag_image))
    (fun _y svg_text =>
       for_each (seq 0 (shape1 tag_image))
         (fun _x svg_text =>
            ret (svg_text ++ pixel_rect pix_width pix_height x y tag_name
                               _x _y (pixel_at tag_image _y _x)))
         svg_text)
    svg_text.

(** Lines 96-111: the body of the loop over the tags. *)
Definition emit_tag (tag_size margin : float) (tag_n_cols : Z)
    (item : nat * (string * Raster)) (svg_text : string) : M string :=
  (let '(i, (tag_name, tag_image)) := item in
   let row := (Z.of_nat i / tag_n_cols)%Z in
   let col := (Z.of_nat i mod tag_n_cols)%Z in
   let x := fadd (fmul (to_float col) (pitch tag_size margin)) margin in
   let y := fadd (fmul (to_float row) (pitch tag_size margin)) margin in
   pix_height <-
     lift (truediv tag_size (to_float (Z.of_nat (shape0 tag_image)))) ;;
   pix_width <-
     lift (truediv tag_size (to_float (Z.of_nat (shape1 tag_image)))) ;;
   print (tag_name ++ ": posiiton (" ++ float_str x ++ ", " ++ float_str y
          ++ "), pix_size (" ++ float_str pix_width ++ ", "
          ++ float_str pix_height ++ ")") ;;
   svg_text <-
     emit_pixels pix_width pix_height x y tag_name tag_image svg_text ;;
   let svg_text := svg_text ++ label_text tag_size margin x y tag_name in
   let svg_text := svg_text ++ border_rect tag_size margin x y in
   ret svg_text)%run.

(** Lines 81-114, for a float [tag_size] and a float [margin], as [main]
    passes them.  The result is [Some] document; [None] stands for the
    Python value [None], which [main] asserts against. *)
Definition gen_apriltags_svg (tag_images : dict Raster)
    (tag_size margin : float) (cols : Z) : M (option string) :=
  (let tag_n_cols := cols in
   tag_n_rows <-
     lift (ceil_truediv (Z.of_nat (List.length tag_images)) cols) ;;
   fcols <- lift (float_of_int cols) ;;
   let svg_width := fadd (fmul (pitch tag_size margin) fcols) margin in
   let svg_height :=
     fadd (fmul (pitch tag_size margin) (to_float tag_n_rows)) margin in
   print ("Creating SVG with size: " ++ float_str svg_width ++ "x"
          ++ float_str svg_height) ;;
   print ("Number of tags: " ++ str_int (Z.of_nat (List.length tag_images))) ;;
   print ("Number of columns: " ++ str_int tag_n_cols) ;;
   print ("Number of rows: " ++ str_int tag_n_rows) ;;
   print ("Tag size: " ++ float_str tag_size ++ "mm") ;;
   print ("Margin: " ++ float_str margin ++ "mm") ;;
   let svg_text := xml_decl in
   let svg_text := svg_text ++ svg_open svg_width svg_height in
   svg_text <-
     for_each (enumerate tag_images) (emit_tag tag_size margin tag_n_cols)
              svg_text ;;
   let svg_text := svg_text ++ "</svg>" ++ nl in
   ret (Some svg_text))%run.

End Emitter.

(* ================================================================= *)
(** ** [main] *)

(** The [choices] of [--tag_family]. *)
Inductive TagFamily : Type :=
| tag16h5 | tag25h9 | tag36h11 | tagCircle21h7 | tagCircle49h12
| tagCustom48h12 | tagStandard41h12 | tagStandard52h13.

Definition family_name (f : TagFamily) : string :=
  match f with
  | tag16h5 => "tag16h5"
  | tag25h9 => "tag25h9"
  | tag36h11 => "tag36h11"
  | tagCircle21h7 => "tagCircle21h7"
  | tagCircle49h12 => "tagCircle49h12"
  | tagCustom48h12 => "tagCustom48h12"
  | tagStandard41h12 => "tagStandard41h12"
  | tagStandard52h13 => "tagStandard52h13"
  end.

(** The namespace [parser.parse_args()] returns.  [margin] is a float:
    its default, the int 5, enters every expression of the document
    together with a float and is coerced to 5.0 there (only the line
    [Margin: 5mm] on the standard output shows the int). *)
Record Args : Type := mkArgs {
  tag_family : TagFamily;
  tag_id : string;
  cols : Z;
  tag_size : float;
  margin : float;
  out_file : string
}.

(** [os.path.basename(path)]. *)
Definition basename (path : string) : string :=
  last (split "/" path) EmptyString.

(** [os.path.basename(tag_file).split('.')[0]]. *)
Definition tag_name_of (tag_file : string) : string :=
  hd EmptyString (split "." (basename tag_file)).

(** [f'_{tag_id:05d}.png']. *)
Definition tag_suffix (tag_id : Z) : string :=
  "_" ++ format_05d tag_id ++ ".png".

(** [[file for file in tag_all if file.endswith(...)]]. *)
Definition tag_files (tag_all : list string) (tag_id : Z) : list string :=
  filter (fun file => endswith file (tag_suffix tag_id)) tag_all.

(** Lines 130-140: the body of the loop over the resolved ids. *)
Definition load_tag (tag_all : list string) (tag_id : Z)
    (tag_images : dict Raster) : M (dict Raster) :=
  match tag_files tag_all tag_id with
  | [] =>
      (print ("Error: Could not find tag file for tag_id: " ++ str_int tag_id) ;;
       ret tag_images)%run
  | tag_file :: _ =>
      let tag_name := tag_name_of tag_file in
      (present <- path_exists tag_file ;;
       if negb present then
         print ("Error: Could not find tag file: " ++ tag_file) ;;
         ret tag_images
       else
         image <- load_image tag_file ;;
         ret (dict_set tag_images tag_name image))%run
  end.

Section Main.

Variable float_str : float -> string.

(** Lines 142-148: emit, assert, write. *)
Definition emit_and_write (args : Args) (tag_images : dict Raster)
    : M unit :=
  (apriltags_svg <-
     gen_apriltags_svg float_str tag_images (tag_size args) (margin args)
                       (cols args) ;;
   match apriltags_svg with
   | None => raise AssertionError
   | Some text =>
       write_file (out_file args) text ;;
       print ("Output SVG file: " ++ out_file args ++ " with size: "
              ++ out_file args)
   end)%run.

Definition main (args : Args) : M unit :=
  (tag_all <- glob (family_name (tag_family args) ++ "/*_*.png") ;;
   tag_ids <- lift (resolve_tag_ids (tag_id args)) ;;
   tag_images <- for_each tag_ids (load_tag tag_all) [] ;;
   emit_and_write args tag_images)%run.

End Main.

(* ================================================================= *)
(** ** The grammar of the id specification, as the specification words it *)

(** The text before and the text after the first [c] of [s]. *)
Fixpoint cut_first (c : ascii) (s : string) : string * string :=
  match s with
  | EmptyString => (EmptyString, EmptyString)
  | String a s' =>
      if Ascii.eqb a c then (EmptyString, s')
      else let '(before, after) := cut_first c s' in (String a before, after)
  end.

(** The inclusive range [a..b], empty when [a > b]. *)
Definition inclusive_range (a b : Z) : list Z :=
  if (b <? a)%Z then []
  else map (fun k => (a + Z.of_nat k)%Z) (seq 0 (S (Z.to_nat (b - a)))).

(** A comma list, else a range cut at the first dash, else one integer. *)
Definition spec_resolve_tag_ids (tag_id : string) : result (list Z) :=
  if contains "," tag_id then
    rmap int (split "," tag_id)
  else if contains "-" tag_id then
    let '(start, end_) := cut_first "-" tag_id in
    (a <-- int start ;;
     b <-- int end_ ;;
     Ok (inclusive_range a b))%result
  else
    (a <-- int tag_id ;; Ok [a])%result.

(** The tokens of an id specification under that grammar. *)
Definition spec_tokens (tag_id : string) : list string :=
  if contains "," tag_id then split "," tag_id
  else if contains "-" tag_id then
    let '(start, end_) := cut_first "-" tag_id in [start; end_]
  else [tag_id].

(* ================================================================= *)
(** ** The document, element by element *)

(** The lines a run has added to the standard output. *)
Definition add_lines (w : World) (lines : list string) : World :=
  mkWorld (listing w) (exists_ w) (decode w) (writable w)
          (stdout w ++ lines) (written w) (leftover w) (relisted w).

(** The pixel coordinates [(_y, _x)] of a raster in scan order: line after
    line, and from left to right in a line. *)
Definition scan (image : Raster) : list (nat * nat) :=
  flat_map (fun _y => map (fun _x => (_y, _x)) (seq 0 (shape1 image)))
           (seq 0 (shape0 image)).

(** Both lengths of a raster are positive. *)
Definition drawable (image : Raster) : Prop :=
  shape0 image <> O /\ shape1 image <> O.

(** An integer that an operation on floats can take as an operand. *)
Definition in_float_range (z : Z) : Prop := exists f, float_of_int z = Ok f.

(** A rectangle of one pixel, before it is printed. *)
Record Rect : Type := mkRect {
  rect_width : float;
  rect_height : float;
  rect_x : float;
  rect_y : float;
  rect_id : string;
  rect_fill : string
}.

(** The placement of the tag of index [i] in a grid of [columns] columns. *)
Definition grid_row (columns : Z) (i : nat) : Z := (Z.of_nat i / columns)%Z.
Definition grid_col (columns : Z) (i : nat) : Z := (Z.of_nat i mod columns)%Z.

Definition origin_x (tag_size margin : float) (columns : Z) (i : nat) : float :=
  fadd (fmul (to_float (grid_col columns i))
             (fadd tag_size (fmul (to_float 2) margin))) margin.

Definition origin_y (tag_size margin : float) (columns : Z) (i : nat) : float :=
  fadd (fmul (to_float (grid_row columns i))
             (fadd tag_size (fmul (to_float 2) margin))) margin.

(** The canvas: [rows] is the least number of rows of [columns] cells that
    hold [count] tags. *)
Definition canvas_rows (count columns : Z) : Z :=
  ((count + columns - 1) / columns)%Z.

Definition canvas_width (tag_size margin columns : float) : float :=
  fadd (fmul (fadd tag_size (fmul (to_float 2) margin)) columns) margin.

Definition canvas_height (tag_size margin : float) (rows : Z) : float :=
  fadd (fmul (fadd tag_size (fmul (to_float 2) margin)) (to_float rows)) margin.

Section Document.

Variable float_str : float -> string.

Definition render_rect (r : Rect) : string :=
  tab ++ "<rect " ++ attr "width" (float_str (rect_width r))
  ++ " " ++ attr "height" (float_str (rect_height r))
  ++ " " ++ attr "x" (float_str (rect_x r))
  ++ " " ++ attr "y" (float_str (rect_y r))
  ++ " " ++ attr "id" (rect_id r)
  ++ " " ++ attr "style"
       ("fill:" ++ rect_fill r ++ ";stroke:#000000;stroke-width:0.0")
  ++ "/>" ++ nl.

(** The rectangle of the pixel [(_y, _x)] of a tag with origin [(x, y)]. *)
Definition rect_of_pixel (tag_size x y : float) (tag_name : string)
    (image : Raster) (yx : nat * nat) : Rect :=
  let '(_y, _x) := yx in
  let pix_height := fdiv tag_size (to_float (Z.of_nat (shape0 image))) in
  let pix_width := fdiv tag_size (to_float (Z.of_nat (shape1 image))) in
  mkRect pix_width pix_height
         (fadd x (fmul (to_float (Z.of_nat _x)) pix_width))
         (fadd y (fmul (to_float (Z.of_nat _y)) pix_height))
         (tag_name ++ "-" ++ str_int (Z.of_nat _x)
                   ++ "-" ++ str_int (Z.of_nat _y))
         (rgb_hex (pixel_at image _y _x)).

Definition pixel_rects (tag_size x y : float) (tag_name : string)
    (image : Raster) : list Rect :=
  map (rect_of_pixel tag_size x y tag_name image) (scan image).

(** All the text of one tag: its pixels, its label, its frame. *)
Definition tag_group (tag_size margin x y : float) (tag_name : string)
    (image : Raster) : string :=
  join (map render_rect (pixel_rects tag_size x y tag_name image))
  ++ label_text float_str tag_size margin x y tag_name
  ++ border_rect float_str tag_size margin x y.

Definition document (svg_width svg_height : float) (groups : list string)
    : string :=
  xml_decl ++ svg_open float_str svg_width svg_height
           ++ join groups ++ "</svg>" ++ nl.

(** The group of the tag at index [i], at the place the grid gives it. *)
Definition placed_group (tag_size margin : float) (columns : Z)
    (item : nat * (string * Raster)) : string :=
  let '(i, (tag_name, image)) := item in
  tag_group tag_size margin
            (origin_x tag_size margin columns i)
            (origin_y tag_size margin columns i) tag_name image.

(** What the loop body adds for one tag, or the exception it raises. *)
Definition tag_result (tag_size margin : float) (columns : Z)
    (item : nat * (string * Raster)) : result string :=
  let '(i, (tag_name, image)) := item in
  (_ <-- truediv tag_size (to_float (Z.of_nat (shape0 image))) ;;
   _ <-- truediv tag_size (to_float (Z.of_nat (shape1 image))) ;;
   Ok (tag_group tag_size margin
                 (origin_x tag_size margin columns i)
                 (origin_y tag_size margin columns i)
                 tag_name image))%result.

(** The line the loop body prints for one tag. *)
Definition tag_line (tag_size margin : float) (columns : Z)
    (item : nat * (string * Raster)) : string :=
  let '(i, (tag_name, image)) := item in
  tag_name ++ ": posiiton ("
  ++ float_str (origin_x tag_size margin columns i) ++ ", "
  ++ float_str (origin_y tag_size margin columns i) ++ "), pix_size ("
  ++ float_str (fdiv tag_size (to_float (Z.of_nat (shape1 image)))) ++ ", "
  ++ float_str (fdiv tag_size (to_float (Z.of_nat (shape0 image)))) ++ ")".

(** The lines printed by the loop over the tags, up to the first tag
    that raises. *)
Fixpoint tags_log (tag_size margin : float) (columns : Z)
    (items : list (nat * (string * Raster))) : list string :=
  match items with
  | [] => []
  | item :: items' =>
      match tag_result tag_size margin columns item with
      | Ok _ =>
          tag_line tag_size margin columns item
          :: tags_log tag_size margin columns items'
      | Raise _ => []
      end
  end.

(** The value of a call of the emitter. *)
Definition gen_result (tag_images : dict Raster) (tag_size margin : float)
    (columns : Z) : result (option string) :=
  (rows <-- ceil_truediv (Z.of_nat (List.length tag_images)) columns ;;
   fcols <-- float_of_int columns ;;
   groups <-- rmap (tag_result tag_size margin columns)
                   (enumerate tag_images) ;;
   Ok (Some (document (canvas_width tag_size margin fcols)
                      (canvas_height tag_size margin rows) groups)))%result.

(** The lines a call of the emitter prints. *)
Definition gen_log (tag_images : dict Raster) (tag_size margin : float)
    (columns : Z) : list string :=
  match ceil_truediv (Z.of_nat (List.length tag_images)) columns,
        float_of_int columns with
  | Ok rows, Ok fcols =>
      [ "Creating SVG with size: "
          ++ float_str (canvas_width tag_size margin fcols) ++ "x"
          ++ float_str (canvas_height tag_size margin rows);
        "Number of tags: " ++ str_int (Z.of_nat (List.length tag_images));
        "Number of columns: " ++ str_int columns;
        "Number of rows: " ++ str_int rows;
        "Tag size: " ++ float_str tag_size ++ "mm";
        "Margin: " ++ float_str margin ++ "mm" ]
      ++ tags_log tag_size margin columns (enumerate tag_images)
  | _, _ => []
  end.

End Document.

(** A float that is a number and whose sign bit, if it matters, is clear:
    a zero of either sign, a positive number or plus infinity. *)
Definition nonneg (x : float) : Prop :=
  match x with
  | S754_zero _ => True
  | S754_infinity s | S754_finite s _ _ => s = false
  | S754_nan => False
  end.

(** A float that is a number of sign [s]. *)
Definition has_sign (s : bool) (x : float) : Prop :=
  match x with
  | S754_zero s' | S754_infinity s' | S754_finite s' _ _ => s' = s
  | S754_nan => False
  end.

(* ================================================================= *)
(** ** The tags a run finds *)

Section Lookup.

(** What [os.path.exists] and the decoder answer during the run, and the
    file names of the family. *)
Variable present : string -> bool.
Variable decoded : string -> option Raster.
Variable tag_all : list string.

(** No file name ends with the suffix of the id. *)
Definition missing (tag_id : Z) : bool :=
  match tag_files tag_all tag_id with
  | [] => true
  | _ :: _ => false
  end.

(** The file the loop body opens for an id, if it opens one. *)
Definition found_file (tag_id : Z) : option string :=
  match tag_files tag_all tag_id with
  | [] => None
  | tag_file :: _ => if present tag_file then Some tag_file else None
  end.

(** The loop body skips the id. *)
Definition skipped (tag_id : Z) : bool :=
  match found_file tag_id with
  | None => true
  | Some _ => false
  end.

(** The line printed for an id, if the id is skipped. *)
Definition skip_lines (tag_id : Z) : list string :=
  match tag_files tag_all tag_id with
  | [] => ["Error: Could not find tag file for tag_id: " ++ str_int tag_id]
  | tag_file :: _ =>
      if present tag_file then []
      else ["Error: Could not find tag file: " ++ tag_file]
  end.

(** The name and the raster of the tag found for an id. *)
Definition found_item (tag_id : Z) : list (string * Raster) :=
  match found_file tag_id with
  | Some tag_file =>
      match decoded tag_file with
      | Some image => [(tag_name_of tag_file, image)]
      | None => []
      end
  | None => []
  end.

(** The tags found for a list of ids, in the order of the ids. *)
Definition found_items (tag_ids : list Z) : list (string * Raster) :=
  flat_map found_item tag_ids.

(** The collection after the loop over the ids, when every file decodes. *)
Definition loaded (tag_ids : list Z) (tag_images : dict Raster) : dict Raster :=
  fold_left (fun d item => dict_set d (fst item) (snd item))
            (found_items tag_ids) tag_images.

End Lookup.

(* ================================================================= *)
(** ** Identical inputs *)

(** Two rasters with the same shape and the same pixels. *)
Definition same_raster (a b : Raster) : Prop :=
  shape0 a = shape0 b
  /\ shape1 a = shape1 b
  /\ forall _y _x,
       (_y < shape0 a)%nat -> (_x < shape1 a)%nat ->
       pixel_at a _y _x = pixel_at b _y _x.

(** Two collections with the same names and rasters, in the same order. *)
Definition same_collection (d1 d2 : dict Raster) : Prop :=
  Forall2 (fun item1 item2 =>
             fst item1 = fst item2 /\ same_raster (snd item1) (snd item2))
          d1 d2.

(** The same, for the items of [enumerate]. *)
Definition same_item (item1 item2 : nat * (string * Raster)) : Prop :=
  fst item1 = fst item2
  /\ fst (snd item1) = fst (snd item2)
  /\ same_raster (snd (snd item1)) (snd (snd item2)).

(* ================================================================= *)
(** ** Reading a fill colour back *)

(** The value of a hexadecimal digit, of either case. *)
Definition hex_value (c : ascii) : option N :=
  let n := N_of_ascii c in
  if ((48 <=? n) && (n <=? 57))%N then Some (n - 48)%N
  else if ((97 <=? n) && (n <=? 102))%N then Some (n - 87)%N
  else if ((65 <=? n) && (n <=? 70))%N then Some (n - 55)%N
  else None.

Definition parse_hex2 (hi lo : ascii) : option N :=
  match hex_value hi, hex_value lo with
  | Some h, Some l => Some (16 * h + l)%N
  | _, _ => None
  end.

(** The channels of a colour [#rrggbb]. *)
Definition parse_color (s : string) : option (N * N * N) :=
  match s with
  | String "#" (String r1 (String r2 (String g1 (String g2
      (String b1 (String b2 EmptyString)))))) =>
      match parse_hex2 r1 r2, parse_hex2 g1 g2, parse_hex2 b1 b2 with
      | Some r, Some g, Some b => Some (r, g, b)
      | _, _, _ => None
      end
  | _ => None
  end.

(* ================================================================= *)
(** ** Sample inputs *)

Definition black : Pixel := mkPixel x00 x00 x00 xff.
Definition white : Pixel := mkPixel xff xff xff x80.

(** A 2 x 2 checkerboard. *)
Definition checker : Raster :=
  mkRaster 2 2 (fun _y _x => if Nat.eqb (_y + _x) 1 then white else black).

(** The floats 37.5 and 5.0, the defaults of [--tag_size] and [--margin]. *)
Definition f37_5 : float := fdiv (to_float 75) (to_float 2).
Definition f5 : float := to_float 5.

(** A world with nothing on disk and nothing printed. *)
Definition empty_world : World :=
  mkWorld (fun _ => []) (fun _ => false) (fun _ => None) (fun _ => true) [] []
          (fun _ _ => None) (fun _ _ => []).

Definition one_tag : dict Raster := [("tag36_11_00000", checker)].

(** A raster of one line and two columns. *)
Definition wide : Raster :=
  mkRaster 1 2 (fun _y _x => if Nat.eqb _x 0 then black else white).

Definition wide_tag : dict Raster := [("wide", wide)].

Definition wide_tag_svg : string :=
  match fst (gen_apriltags_svg str_float_exact wide_tag f37_5 f5 3 empty_world) with
  | Ok (Some svg) => svg
  | _ => EmptyString
  end.

(** The checkerboard again, with other pixels outside its shape. *)
Definition checker_padded : Raster :=
  mkRaster 2 2
    (fun _y _x =>
       if ((_y <? 2) && (_x <? 2))%nat then pixel_at checker _y _x else white).

(** A world in which a line was printed before. *)
Definition later_world : World :=
  mkWorld (fun _ => []) (fun _ => true) (fun _ => None) (fun _ => false)
          ["an earlier line"] [] (fun _ _ => None) (fun _ _ => []).

(** A disk with the file of tag 1 of the family [tag36h11]. *)
Definition disk_world : World :=
  mkWorld (fun _ => ["tag36h11/tag36_11_00001.png"])
          (fun _ => true) (fun _ => Some checker) (fun _ => true) [] []
          (fun _ _ => None)
          (fun _ _ => ["tag36h11/tag36_11_00001.png"]).

(** Arguments that ask for the tags 1 and 7. *)
Definition some_args : Args := mkArgs tag36h11 "1,7" 3 f37_5 f5 "output.svg".

(** A raster without lines. *)
Definition no_lines : Raster := mkRaster 0 2 (fun _ _ => black).

(** Arguments whose id specification has a token that is not an integer. *)
Definition bad_args : Args := mkArgs tag36h11 "1,x" 3 f37_5 f5 "output.svg".

(** The document of the tag [one_tag] with the default sizes, three
    columns, and floats printed exactly. *)
Definition one_tag_svg : string :=
  match fst (gen_apriltags_svg str_float_exact one_tag f37_5 f5 3 empty_world) with
  | Ok (Some svg) => svg
  | _ => EmptyString
  end.

(* ================================================================= *)
(** ** Decimal digits *)

(** The value of the decimal digits [d] read after the value [acc]. *)
Fixpoint uint_value (acc : Z) (d : Decimal.uint) : Z :=
  match d with
  | Decimal.Nil => acc
  | Decimal.D0 d' => uint_value (10 * acc + 0) d'
  | Decimal.D1 d' => uint_value (10 * acc + 1) d'
  | Decimal.D2 d' => uint_value (10 * acc + 2) d'
  | Decimal.D3 d' => uint_value (10 * acc + 3) d'
  | Decimal.D4 d' => uint_value (10 * acc + 4) d'
  | Decimal.D5 d' => uint_value (10 * acc + 5) d'
  | Decimal.D6 d' => uint_value (10 * acc + 6) d'
  | Decimal.D7 d' => uint_value (10 * acc + 7) d'
  | Decimal.D8 d' => uint_value (10 * acc + 8) d'
  | Decimal.D9 d' => uint_value (10 * acc + 9) d'
  end.

Definition is_digit (c : ascii) : bool :=
  match digit_of c with
  | Some _ => true
  | None => false
  end.

Fixpoint all_digits (s : string) : bool :=
  match s with
  | EmptyString => true
  | String c s' => is_digit c && all_digits s'
  end.

Definition starts_with_digit (s : string) : bool :=
  match s with
  | String c _ => is_digit c
  | EmptyString => false
  end.

(** [sep.join(pieces)] for a one-character separator. *)
Fixpoint join_with (sep : ascii) (pieces : list string) : string :=
  match pieces with
  | [] => EmptyString
  | [piece] => piece
  | piece :: pieces' => piece ++ String sep (join_with sep pieces')
  end.

(* ================================================================= *)
(** ** What a run leaves of its world *)

(** The directory listing, the files and the decoder are the same, and
    so is what a write would do. *)
Definition same_env (w w' : World) : Prop :=
  listing w' = listing w
  /\ exists_ w' = exists_ w
  /\ decode w' = decode w
  /\ writable w' = writable w
  /\ leftover w' = leftover w
  /\ relisted w' = relisted w.

(** From [w] to [w'] lines were printed, and nothing else happened. *)
Definition only_prints (w w' : World) : Prop :=
  same_env w w'
  /\ written w' = written w
  /\ exists lines, stdout w' = (stdout w ++ lines)%list.

Definition drawableb (image : Raster) : bool :=
  negb (Nat.eqb (shape0 image) 0) && negb (Nat.eqb (shape1 image) 0).

(* ================================================================= *)
(** ** The opacity of [gen_rgba] *)

(** [_raw_a / 255]. *)
Definition opacity (raw_a : Byte.byte) : float :=
  fdiv (to_float (Z.of_N (Byte.to_N raw_a))) (to_float 255).

(** The float [1.0]. *)
Definition fone : float := to_float 1.

Definition all_bytes : list Byte.byte :=
  flat_map (fun n => match Byte.of_N (N.of_nat n) with
                     | Some b => [b]
                     | None => []
                     end)
           (seq 0 256).

(** The bytes with their opacities, and the comparison of every two
    entries of such a table with the comparison of their bytes. *)
Definition opacity_table : list (Byte.byte * float) :=
  map (fun a => (a, opacity a)) all_bytes.

Definition ordered_as_bytes (table : list (Byte.byte * float)) : bool :=
  forallb (fun x => forallb (fun y =>
    Bool.eqb (flt (snd x) (snd y))
             (Byte.to_N (fst x) <? Byte.to_N (fst y))%N) table) table.

(* ================================================================= *)
(** ** The single-tag emitter [gen_apriltag_svg] (lines 66-79) *)

(** The outcome of a subscription [pixel_array[_x, _y]]. *)
Inductive indexed (A : Type) : Type :=
| Item (a : A)
| IndexError.

Arguments Item {A} a.
Arguments IndexError {A}.

(** The object the function subscripts with two indices: a pixel access
    object (or an array) with an extent per index, which raises
    [IndexError] outside these extents. *)
Record PixelArray : Type := mkPixelArray {
  extent0 : nat;
  extent1 : nat;
  item_at : nat -> nat -> Pixel
}.

Definition getitem (pixel_array : PixelArray) (i j : nat) : indexed Pixel :=
  if ((i <? extent0 pixel_array) && (j <? extent1 pixel_array))%nat
  then Item (item_at pixel_array i j)
  else IndexError.

(** A [for] loop whose body may raise [IndexError]. *)
Fixpoint for_indexed {A S} (xs : list A) (body : A -> S -> indexed S) (s : S)
    : indexed S :=
  match xs with
  | [] => Item s
  | x :: xs' =>
      match body x s with
      | Item s' => for_indexed xs' body s'
      | IndexError => IndexError
      end
  end.

Section SingleTag.

Variable float_str : float -> string.

Definition gen_gridsquare (row_num col_num : nat) (pixel : Pixel) : string :=
  let _rgba := gen_rgba float_str pixel in
  let _id := "box" ++ str_int (Z.of_nat row_num)
                   ++ "-" ++ str_int (Z.of_nat col_num) in
  tab ++ "<rect " ++ attr "width" "1"
  ++ " " ++ attr "height" "1"
  ++ " " ++ attr "x" (str_int (Z.of_nat row_num))
  ++ " " ++ attr "y" (str_int (Z.of_nat col_num))
  ++ " " ++ attr "fill" _rgba
  ++ " " ++ attr "id" _id
  ++ "/>" ++ nl.

(** The root element of the single-tag document. *)
Definition single_svg_open (width height : Z) (size : string) : string :=
  "<svg " ++ attr "width" size
  ++ " " ++ attr "height" size
  ++ " " ++ attr "viewBox" ("0,0," ++ str_int width ++ "," ++ str_int height)
  ++ " " ++ attr "xmlns" "http://www.w3.org/2000/svg" ++ ">" ++ nl.

(** [width] and [height] are [int]s ([range] of a negative one is empty);
    [size] is the text the f-string prints for the size. *)
Definition gen_apriltag_svg (width height : Z) (pixel_array : PixelArray)
    (size : string) : indexed string :=
  let svg_text := xml_decl in
  let svg_text := svg_text ++ single_svg_open width height size in
  match
    for_indexed (seq 0 (Z.to_nat height))
      (fun _y svg_text =>
         for_indexed (seq 0 (Z.to_nat width))
           (fun _x svg_text =>
              match getitem pixel_array _x _y with
              | Item pixel => Item (svg_text ++ gen_gridsquare _x _y pixel)
              | IndexError => IndexError
              end)
           svg_text)
      svg_text
  with
  | Item svg_text => Item (svg_text ++ "</svg>" ++ nl)
  | IndexError => IndexError
  end.

(** The cells [(_x, _y)] in the order of the two loops. *)
Definition cells (width height : Z) : list (nat * nat) :=
  flat_map (fun _y => map (fun _x => (_x, _y)) (seq 0 (Z.to_nat width)))
           (seq 0 (Z.to_nat height)).

End SingleTag.

(* ================================================================= *)
(** ** The identifier of a pixel rectangle *)

(** Line 106: [f'{tag_name}-{_x}-{_y}'], the [_id] of [pixel_rect]. *)
Definition pixel_id (tag_name : string) (_x _y : nat) : string :=
  tag_name ++ "-" ++ str_int (Z.of_nat _x) ++ "-" ++ str_int (Z.of_nat _y).

(* ================================================================= *)
(** ** A disk without room *)

(** The disk of [disk_world] where the output file can be opened and the
    write then fails, leaving the first five characters in the file. *)
Definition full_disk_world : World :=
  mkWorld (fun _ => ["tag36h11/tag36_11_00001.png"])
          (fun p => String.eqb p "tag36h11/tag36_11_00001.png")
          (fun _ => Some checker) (fun _ => false) [] []
          (fun _ text => Some (substring 0 5 text))
          (fun _ _ => ["tag36h11/tag36_11_00001.png"]).

(* ================================================================= *)
(** * Properties *)

(** ** Strings *)

Lemma contains_count c s : contains c s = negb (count c s =? 0)%nat.
Proof.
  induction s as [|a s IH]; simpl; [reflexivity|].
  destruct (Ascii.eqb a c); simpl; [reflexivity | exact IH].
Qed.

Lemma split_length c s : List.length (split c s) = S (count c s).
Proof.
  induction s as [|a s IH]; simpl; [reflexivity|].
  destruct (Ascii.eqb a c); simpl; [now rewrite IH|].
  destruct (split c s); simpl in *; [discriminate | exact IH].
Qed.

Lemma split_no_sep c s : count c s = O -> split c s = [s].
Proof.
  induction s as [|a s IH]; simpl; [reflexivity|].
  destruct (Ascii.eqb a c); [discriminate|].
  intros H. rewrite (IH H). reflexivity.
Qed.

Lemma split_one_sep c s :
  count c s = 1%nat ->
  split c s = [fst (cut_first c s); snd (cut_first c s)].
Proof.
  induction s as [|a s IH]; simpl; [discriminate|].
  destruct (Ascii.eqb a c).
  - intros H. injection H as H. rewrite (split_no_sep _ _ H). reflexivity.
  - intros H. rewrite (IH H). destruct (cut_first c s). reflexivity.
Qed.

Lemma range_inclusive a b : range a (b + 1) = inclusive_range a b.
Proof.
  unfold range, inclusive_range.
  destruct (Z.ltb_spec b a) as [Hlt|Hge].
  - replace (Z.to_nat (b + 1 - a)) with O by lia. reflexivity.
  - replace (Z.to_nat (b + 1 - a)) with (S (Z.to_nat (b - a))) by lia.
    reflexivity.
Qed.

Lemma int_raises s e : int s = Raise e -> e = ValueError.
Proof.
  unfold int. destruct (max_str_digits <? count_digits s)%N.
  - intros H. injection H as H. now symmetry.
  - destruct (int_opt s); [discriminate|].
    intros H. injection H as H. now symmetry.
Qed.

(** The resolver against the grammar: they agree except on a dash range
    with two dashes or more, which the resolver rejects. *)
Lemma resolve_tag_ids_spec tag_id :
  resolve_tag_ids tag_id =
  if negb (contains "," tag_id) && (2 <=? count "-" tag_id)%nat
  then Raise ValueError
  else spec_resolve_tag_ids tag_id.
Proof.
  unfold resolve_tag_ids, spec_resolve_tag_ids.
  destruct (contains "," tag_id); simpl; [reflexivity|].
  rewrite (contains_count "-" tag_id).
  destruct (count "-" tag_id) as [|[|n]] eqn:Hc; simpl.
  - reflexivity.
  - rewrite (split_one_sep _ _ Hc).
    destruct (cut_first "-" tag_id) as [start end_]; simpl.
    destruct (int start) as [a|e]; simpl; [|reflexivity].
    destruct (int end_) as [b|e]; simpl; [|reflexivity].
    now rewrite range_inclusive.
  - pose proof (split_length "-" tag_id) as Hl. rewrite Hc in Hl.
    destruct (split "-" tag_id) as [|p1 [|p2 [|p3 ps]]];
      simpl in Hl; try discriminate; reflexivity.
Qed.

(** ** Tag Resolver *)

Example int_examples :
  int " 12 " = Ok 12%Z /\ int "+12" = Ok 12%Z /\ int "-7" = Ok (-7)%Z
  /\ int "1_000" = Ok 1000%Z /\ int "0012" = Ok 12%Z
  /\ int EmptyString = Raise ValueError /\ int "1__2" = Raise ValueError
  /\ int "_12" = Raise ValueError /\ int "12_" = Raise ValueError
  /\ int "- 1" = Raise ValueError /\ int "1 2" = Raise ValueError
  /\ int "0x10" = Raise ValueError /\ int "1.0" = Raise ValueError.
Proof. repeat split; reflexivity. Qed.

Example split_examples :
  split "-" "2--1" = ["2"; EmptyString; "1"]
  /\ split "," EmptyString = [EmptyString]
  /\ split "," "1,3,5" = ["1"; "3"; "5"]
  /\ cut_first "-" "2--1" = ("2", "-1").
Proof. repeat split; reflexivity. Qed.

Example format_05d_examples :
  format_05d 5 = "00005" /\ format_05d 123456 = "123456"
  /\ format_05d (-5) = "-0005" /\ format_05d 0 = "00000".
Proof. repeat split; reflexivity. Qed.

(** C1, as stated, fails on a range whose end is negative: the grammar cuts
    ["2--1"] at its first dash into 2 and -1 and gives the empty range,
    the resolver splits it into three pieces and raises [ValueError]. *)
Lemma C1_first_dash_counterexample :
  spec_resolve_tag_ids "2--1" = Ok []
  /\ resolve_tag_ids "2--1" = Raise ValueError
  /\ resolve_tag_ids "2--1" <> spec_resolve_tag_ids "2--1".
Proof. repeat split; try reflexivity. discriminate. Qed.

(** C1 (amended): for every id specification the resolver gives the id list
    of the grammar -- a comma list of integers, else a range cut at the
    dash and inclusive of both ends, empty when start > end, else one
    integer -- except that a specification without comma and with two or
    more dashes is a fatal [ValueError].  "3" gives [3], "1,3,5" gives
    [1,3,5], "2-4" gives [2,3,4], "5-5" gives [5] and "5-3" gives []. *)
Theorem C1_resolve_tag_ids_grammar :
  (forall tag_id,
      resolve_tag_ids tag_id =
      if negb (contains "," tag_id) && (2 <=? count "-" tag_id)%nat
      then Raise ValueError
      else spec_resolve_tag_ids tag_id)
  /\ resolve_tag_ids "3" = Ok [3]
  /\ resolve_tag_ids "1,3,5" = Ok [1; 3; 5]
  /\ resolve_tag_ids "2-4" = Ok [2; 3; 4]
  /\ resolve_tag_ids "5-5" = Ok [5]
  /\ resolve_tag_ids "5-3" = Ok [].
Proof.
  split; [exact resolve_tag_ids_spec|].
  repeat split; reflexivity.
Qed.

Lemma rmap_raises {A B} (f : A -> result B) e xs x :
  (forall y e', f y = Raise e' -> e' = e) ->
  In x xs -> f x = Raise e -> rmap f xs = Raise e.
Proof.
  intros Hf. induction xs as [|y ys IH]; simpl; [contradiction|].
  intros [->|Hin] Hx.
  - now rewrite Hx.
  - destruct (f y) as [b|e'] eqn:Hy.
    + now rewrite (IH Hin Hx).
    + now rewrite (Hf _ _ Hy).
Qed.

(** One token that is not an integer makes the whole resolution raise. *)
Lemma resolve_tag_ids_bad_token tag_id token :
  In token (spec_tokens tag_id) ->
  int token = Raise ValueError ->
  resolve_tag_ids tag_id = Raise ValueError.
Proof.
  intros Hin Hbad. rewrite resolve_tag_ids_spec.
  unfold spec_tokens, spec_resolve_tag_ids in *.
  destruct (contains "," tag_id); cbn [negb andb].
  - apply rmap_raises with (x := token); [|exact Hin|exact Hbad].
    intros y e' Hy. exact (int_raises _ _ Hy).
  - destruct (2 <=? count "-" tag_id)%nat; [reflexivity|].
    destruct (contains "-" tag_id).
    + destruct (cut_first "-" tag_id) as [start end_].
      destruct Hin as [<-|[<-|[]]].
      * now rewrite Hbad.
      * destruct (int start) as [a|e] eqn:Hs; simpl.
        -- now rewrite Hbad.
        -- now rewrite (int_raises _ _ Hs).
    + destruct Hin as [<-|[]]. now rewrite Hbad.
Qed.

(** C7: an id specification with a token that is not an integer stops the
    run with [ValueError] before anything is printed or written: the world
    after the run is the world before it. *)
Theorem C7_bad_token_is_fatal_before_output :
  forall float_str args w token,
    In token (spec_tokens (tag_id args)) ->
    int token = Raise ValueError ->
    main float_str args w = (Raise ValueError, w).
Proof.
  intros fs args w token Hin Hbad.
  unfold main, bind, glob, lift.
  now rewrite (resolve_tag_ids_bad_token _ _ Hin Hbad).
Qed.

(** ** Runs of the emitter *)

Lemma append_assoc (a b c : string) : (a ++ b) ++ c = a ++ (b ++ c).
Proof. induction a as [|ch a IH]; simpl; [reflexivity | now rewrite IH]. Qed.

Lemma append_empty_r (a : string) : a ++ EmptyString = a.
Proof. induction a as [|ch a IH]; simpl; [reflexivity | now rewrite IH]. Qed.

Lemma join_app (xs ys : list string) : join (xs ++ ys) = join xs ++ join ys.
Proof.
  induction xs as [|x xs IH]; simpl; [reflexivity|].
  now rewrite IH, append_assoc.
Qed.

Lemma join_flat_map {A B} (h : B -> string) (k : A -> list B) (xs : list A) :
  join (map h (flat_map k xs)) = join (map (fun x => join (map h (k x))) xs).
Proof.
  induction xs as [|x xs IH]; simpl; [reflexivity|].
  now rewrite map_app, join_app, IH.
Qed.

Lemma add_lines_nil w : add_lines w [] = w.
Proof. destruct w; unfold add_lines; simpl. now rewrite app_nil_r. Qed.

Lemma add_lines_app w xs ys :
  add_lines (add_lines w xs) ys = add_lines w (xs ++ ys).
Proof. unfold add_lines; simpl. now rewrite app_assoc. Qed.

Lemma print_run line w : print line w = (Ok tt, add_lines w [line]).
Proof. reflexivity. Qed.

(** A loop whose body only appends text appends the texts in order. *)
Lemma for_each_appends {A} (body : A -> string -> M string) (g : A -> string) :
  (forall x acc w, body x acc w = (Ok (acc ++ g x), w)) ->
  forall xs acc w, for_each xs body acc w = (Ok (acc ++ join (map g xs)), w).
Proof.
  intros Hbody. induction xs as [|x xs IH]; intros acc w; simpl.
  - unfold ret. now rewrite append_empty_r.
  - unfold bind. rewrite Hbody, IH. now rewrite append_assoc.
Qed.

Section EmitterRuns.

Variable float_str : float -> string.

Lemma pixel_rect_render tag_size x y tag_name image _y _x :
  pixel_rect float_str
    (fdiv tag_size (to_float (Z.of_nat (shape1 image))))
    (fdiv tag_size (to_float (Z.of_nat (shape0 image))))
    x y tag_name _x _y (pixel_at image _y _x)
  = render_rect float_str
      (rect_of_pixel tag_size x y tag_name image (_y, _x)).
Proof. reflexivity. Qed.

Lemma emit_pixels_run tag_size x y tag_name image svg_text w :
  emit_pixels float_str
    (fdiv tag_size (to_float (Z.of_nat (shape1 image))))
    (fdiv tag_size (to_float (Z.of_nat (shape0 image))))
    x y tag_name image svg_text w
  = (Ok (svg_text
         ++ join (map (render_rect float_str)
                      (pixel_rects tag_size x y tag_name image))), w).
Proof.
  unfold emit_pixels, pixel_rects, scan.
  rewrite map_map, join_flat_map.
  apply for_each_appends with
    (g := fun _y =>
            join (map (fun yx => render_rect float_str
                         (rect_of_pixel tag_size x y tag_name image yx))
                      (map (fun _x => (_y, _x)) (seq 0 (shape1 image))))).
  intros _y acc w'. rewrite map_map.
  apply for_each_appends. intros _x acc' w''.
  unfold ret. now rewrite pixel_rect_render.
Qed.

Lemma emit_tag_run tag_size margin columns item svg_text w :
  emit_tag float_str tag_size margin columns item svg_text w =
  match tag_result float_str tag_size margin columns item with
  | Ok group =>
      (Ok (svg_text ++ group),
       add_lines w [tag_line float_str tag_size margin columns item])
  | Raise e => (Raise e, w)
  end.
Proof.
  destruct item as [i [tag_name image]].
  unfold emit_tag, tag_result, tag_line, truediv, bind, lift.
  destruct (is_zero (to_float (Z.of_nat (shape0 image)))); [reflexivity|].
  destruct (is_zero (to_float (Z.of_nat (shape1 image)))); [reflexivity|].
  cbn [rbind]. rewrite print_run.
  fold (pitch tag_size margin).
  unfold origin_x, origin_y, grid_col, grid_row.
  fold (pitch tag_size margin).
  rewrite emit_pixels_run. unfold ret, tag_group.
  now rewrite !append_assoc.
Qed.

Lemma emit_tags_run tag_size margin columns items :
  forall svg_text w,
    for_each items (emit_tag float_str tag_size margin columns) svg_text w =
    ((groups <-- rmap (tag_result float_str tag_size margin columns) items ;;
      Ok (svg_text ++ join groups))%result,
     add_lines w (tags_log float_str tag_size margin columns items)).
Proof.
  induction items as [|item items IH]; intros svg_text w.
  - simpl. unfold ret. now rewrite append_empty_r, add_lines_nil.
  - cbn [for_each rmap tags_log]. unfold bind at 1. rewrite emit_tag_run.
    destruct (tag_result float_str tag_size margin columns item)
      as [group|e].
    + rewrite IH, add_lines_app.
      destruct (rmap (tag_result float_str tag_size margin columns) items);
        simpl; [now rewrite append_assoc | reflexivity].
    + now rewrite add_lines_nil.
Qed.

(** A call of the emitter: its value is [gen_result], and it only adds
    the lines of [gen_log] to the standard output. *)
Lemma gen_apriltags_svg_run tag_images tag_size margin columns w :
  gen_apriltags_svg float_str tag_images tag_size margin columns w =
  (gen_result float_str tag_images tag_size margin columns,
   add_lines w (gen_log float_str tag_images tag_size margin columns)).
Proof.
  unfold gen_apriltags_svg, gen_result, gen_log, bind, lift.
  destruct (ceil_truediv (Z.of_nat (List.length tag_images)) columns)
    as [rows|e]; cbn [rbind]; [|now rewrite add_lines_nil].
  destruct (float_of_int columns) as [fcols|e]; cbn [rbind];
    [|now rewrite add_lines_nil].
  rewrite !print_run, !add_lines_app. cbn [app].
  rewrite emit_tags_run, add_lines_app.
  unfold canvas_width, canvas_height, pitch, document.
  destruct (rmap (tag_result float_str tag_size margin columns)
                 (enumerate tag_images)); cbn [rbind]; [|reflexivity].
  unfold ret. now rewrite !append_assoc.
Qed.

End EmitterRuns.

(** ** Floats: what rounding keeps *)

Example lit_0_8_nearest : fdiv (to_float 8) (to_float 10) = lit_0_8.
Proof. vm_compute. reflexivity. Qed.

(** The largest integer that rounds to a finite float, and its successor. *)
Example float_of_int_edge :
  float_of_int (2 ^ 1024 - 2 ^ 970 - 1)
  = Ok (S754_finite false 9007199254740991 971)
  /\ float_of_int (2 ^ 1024 - 2 ^ 970) = Raise OverflowError.
Proof. split; vm_compute; reflexivity. Qed.

Lemma digits2_pos_bounds p :
  (2 ^ (Z.pos (digits2_pos p) - 1) <= Z.pos p < 2 ^ Z.pos (digits2_pos p))%Z.
Proof.
  induction p as [p IH|p IH|]; cbn [digits2_pos].
  - rewrite Pos2Z.inj_succ.
    replace (Z.succ (Z.pos (digits2_pos p)) - 1)%Z
      with (Z.succ (Z.pos (digits2_pos p) - 1))%Z by lia.
    rewrite !Z.pow_succ_r by lia. lia.
  - rewrite Pos2Z.inj_succ.
    replace (Z.succ (Z.pos (digits2_pos p)) - 1)%Z
      with (Z.succ (Z.pos (digits2_pos p) - 1))%Z by lia.
    rewrite !Z.pow_succ_r by lia. lia.
  - simpl. lia.
Qed.

Lemma shr_1_m mrs :
  (0 <= shr_m mrs)%Z -> shr_m (shr_1 mrs) = (shr_m mrs / 2)%Z.
Proof.
  destruct mrs as [m r s]. cbn [shr_m shr_1]. intros Hm.
  destruct m as [|[p|p|]|p]; cbn [shr_m]; try lia;
    Z.div_mod_to_equations; lia.
Qed.

Lemma iter_shr_1_m n :
  forall mrs,
    (0 <= shr_m mrs)%Z ->
    shr_m (iter_pos shr_1 n mrs) = (shr_m mrs / 2 ^ Z.pos n)%Z.
Proof.
  assert (Hdiv : forall a b c, (0 < b -> 0 < c -> a / b / c = a / (b * c))%Z).
  { intros a b c Hb Hc. apply Z.div_div; lia. }
  assert (Hpos : forall k, (0 < 2 ^ Z.pos k)%Z).
  { intros k. apply Z.pow_pos_nonneg; lia. }
  induction n as [n IH|n IH|]; intros mrs Hm; cbn [iter_pos].
  - assert (H1 : (0 <= shr_m (shr_1 mrs))%Z).
    { rewrite shr_1_m by exact Hm. apply Z.div_pos; lia. }
    assert (H2 : (0 <= shr_m (iter_pos shr_1 n (shr_1 mrs)))%Z).
    { rewrite IH by exact H1. apply Z.div_pos; [exact H1 | apply Hpos]. }
    rewrite IH by exact H2. rewrite IH by exact H1.
    rewrite shr_1_m by exact Hm.
    rewrite !Hdiv by (try apply Hpos; try apply Z.mul_pos_pos; try apply Hpos; lia).
    f_equal. rewrite Pos2Z.inj_xI.
    replace (2 * Z.pos n + 1)%Z with (1 + Z.pos n + Z.pos n)%Z by lia.
    rewrite !Z.pow_add_r by lia. change (2 ^ 1)%Z with 2%Z. ring.
  - assert (H2 : (0 <= shr_m (iter_pos shr_1 n mrs))%Z).
    { rewrite IH by exact Hm. apply Z.div_pos; [exact Hm | apply Hpos]. }
    rewrite IH by exact H2. rewrite IH by exact Hm.
    rewrite Hdiv by apply Hpos.
    f_equal. rewrite <- Z.pow_add_r by lia. f_equal. lia.
  - rewrite shr_1_m by exact Hm. reflexivity.
Qed.

Lemma shr_record_of_loc_m m l : shr_m (shr_record_of_loc m l) = m.
Proof. destruct l as [|[ | | ]]; reflexivity. Qed.

(** Shifting a positive mantissa down to its format exponent keeps it
    positive, provided the number is not below the least exponent. *)
Lemma shr_fexp_pos m e l :
  (0 < m)%Z ->
  (emin prec emax < e + Zdigits2 m)%Z ->
  (0 < shr_m (fst (shr_fexp prec emax m e l)))%Z
  /\ (emin prec emax <= snd (shr_fexp prec emax m e l))%Z.
Proof.
  intros Hm He. destruct m as [|p|p]; try lia.
  pose proof (digits2_pos_bounds p) as [Hlo Hhi].
  unfold shr_fexp, shr. cbn [Zdigits2] in *.
  set (d := Z.pos (digits2_pos p)) in *.
  destruct (fexp prec emax (d + e) - e)%Z as [|n|n] eqn:Hn; cbn [fst snd].
  - rewrite shr_record_of_loc_m. unfold fexp in Hn. lia.
  - rewrite iter_shr_1_m by (rewrite shr_record_of_loc_m; lia).
    rewrite shr_record_of_loc_m. split.
    + apply Z.div_str_pos. split; [apply Z.pow_pos_nonneg; lia|].
      apply Z.le_trans with (2 ^ (d - 1))%Z; [|exact Hlo].
      apply Z.pow_le_mono_r; [lia|].
      unfold fexp, emin, prec, emax in *. lia.
    + unfold fexp in *. lia.
  - rewrite shr_record_of_loc_m. unfold fexp in Hn. lia.
Qed.

Lemma round_nearest_even_ge m l : (m <= round_nearest_even m l)%Z.
Proof.
  destruct l as [|[ | | ]]; cbn [round_nearest_even]; try lia.
  destruct (Z.even m); lia.
Qed.

Lemma Zdigits2_pos m : (0 < m)%Z -> (0 < Zdigits2 m)%Z.
Proof. destruct m; cbn [Zdigits2]; lia. Qed.

(** The sign and the class of a rounded positive mantissa. *)
Lemma binary_round_aux_pos s m e l :
  (0 < m)%Z ->
  (emin prec emax < e + Zdigits2 m)%Z ->
  (exists m' e', binary_round_aux prec emax s m e l = S754_finite s m' e')
  \/ binary_round_aux prec emax s m e l = S754_infinity s.
Proof.
  intros Hm He. unfold binary_round_aux.
  pose proof (shr_fexp_pos m e l Hm He) as [H1 H1e].
  destruct (shr_fexp prec emax m e l) as [mrs1 e1]. cbn [fst snd] in *.
  set (m2 := round_nearest_even (shr_m mrs1) (loc_of_shr_record mrs1)).
  assert (Hm2 : (0 < m2)%Z).
  { pose proof (round_nearest_even_ge (shr_m mrs1) (loc_of_shr_record mrs1)).
    unfold m2. lia. }
  assert (He2 : (emin prec emax < e1 + Zdigits2 m2)%Z).
  { pose proof (Zdigits2_pos m2 Hm2). lia. }
  pose proof (shr_fexp_pos m2 e1 loc_Exact Hm2 He2) as [H3 _].
  destruct (shr_fexp prec emax m2 e1 loc_Exact) as [mrs3 e3].
  cbn [fst] in H3.
  destruct (shr_m mrs3) as [|m3|m3]; try lia.
  destruct (e3 <=? emax - prec)%Z; [left; eauto | now right].
Qed.

Lemma shr_fexp_nonneg m e l :
  (0 <= m)%Z -> (0 <= shr_m (fst (shr_fexp prec emax m e l)))%Z.
Proof.
  intros Hm. unfold shr_fexp, shr.
  destruct (fexp prec emax (Zdigits2 m + e) - e)%Z as [|n|n]; cbn [fst];
    try (rewrite shr_record_of_loc_m; exact Hm).
  rewrite iter_shr_1_m by (rewrite shr_record_of_loc_m; exact Hm).
  rewrite shr_record_of_loc_m.
  apply Z.div_pos; [exact Hm | apply Z.pow_pos_nonneg; lia].
Qed.

(** Rounding never changes the sign, and gives a number. *)
Lemma binary_round_aux_sign s m e l :
  (0 <= m)%Z -> has_sign s (binary_round_aux prec emax s m e l).
Proof.
  intros Hm. unfold binary_round_aux.
  pose proof (shr_fexp_nonneg m e l Hm) as H1.
  destruct (shr_fexp prec emax m e l) as [mrs1 e1]. cbn [fst] in H1.
  set (m2 := round_nearest_even (shr_m mrs1) (loc_of_shr_record mrs1)).
  assert (Hm2 : (0 <= m2)%Z).
  { pose proof (round_nearest_even_ge (shr_m mrs1) (loc_of_shr_record mrs1)).
    unfold m2. lia. }
  pose proof (shr_fexp_nonneg m2 e1 loc_Exact Hm2) as H3.
  destruct (shr_fexp prec emax m2 e1 loc_Exact) as [mrs3 e3].
  cbn [fst] in H3.
  destruct (shr_m mrs3) as [|m3|m3]; try lia; cbn [has_sign]; [reflexivity|].
  destruct (e3 <=? emax - prec)%Z; reflexivity.
Qed.

Lemma binary_round_sign s m e : has_sign s (binary_round prec emax s m e).
Proof.
  unfold binary_round.
  destruct (shl_align m e (fexp prec emax (Z.pos (digits2_pos m) + e)))
    as [mz ez].
  apply binary_round_aux_sign. lia.
Qed.

(** The float of a positive integer is positive, or plus infinity. *)
Lemma to_float_pos p :
  (exists m e, to_float (Z.pos p) = S754_finite false m e)
  \/ to_float (Z.pos p) = S754_infinity false.
Proof.
  unfold to_float, binary_normalize, binary_round, shl_align.
  destruct (fexp prec emax (Z.pos (digits2_pos p) + 0) - 0)%Z
    as [|d|d] eqn:Hd; apply binary_round_aux_pos; try lia; cbn [Zdigits2].
  - unfold emin, prec, emax. lia.
  - unfold emin, prec, emax. lia.
  - unfold fexp in *. lia.
Qed.

Lemma float_of_int_pos z fz :
  (1 <= z)%Z -> float_of_int z = Ok fz ->
  exists m e, fz = S754_finite false m e.
Proof.
  intros Hz. destruct z as [|p|p]; try lia.
  unfold float_of_int.
  destruct (to_float_pos p) as [(m & e & ->)| ->]; [|discriminate].
  intros H. injection H as <-. eauto.
Qed.

(** A raster length that is not zero is not a zero divisor. *)
Lemma truediv_dim x n :
  n <> O -> truediv x (to_float (Z.of_nat n)) = Ok (fdiv x (to_float (Z.of_nat n))).
Proof.
  intros Hn. unfold truediv.
  destruct (Z.of_nat n) as [|p|p] eqn:Hp; try lia.
  destruct (to_float_pos p) as [(m & e & ->)| ->]; reflexivity.
Qed.

Lemma truediv_dim_zero x : truediv x (to_float (Z.of_nat 0)) = Raise ZeroDivisionError.
Proof. reflexivity. Qed.

Lemma fle_zero_nonneg x : fle fzero x = true <-> nonneg x.
Proof.
  destruct x as [s|s| |s m e]; cbn; try destruct s; split; intros H;
    try reflexivity; try discriminate; try exact I; try contradiction.
Qed.

Lemma has_sign_nonneg x : has_sign false x -> nonneg x.
Proof. destruct x; cbn; auto. Qed.

Lemma fmul_nonneg_pos_l mx ex y :
  nonneg y -> nonneg (fmul (S754_finite false mx ex) y).
Proof.
  destruct y as [s|s| |s my ey]; cbn [nonneg fmul SFmul]; intros H;
    subst; try exact I; try reflexivity; try contradiction.
  apply has_sign_nonneg. cbn [xorb]. apply binary_round_aux_sign. lia.
Qed.

Lemma fmul_nonneg_finite x y :
  nonneg x -> nonneg y -> is_finite x = true -> is_finite y = true ->
  nonneg (fmul x y).
Proof.
  destruct x as [sx|sx| |sx mx ex], y as [sy|sy| |sy my ey];
    cbn [nonneg fmul SFmul is_finite]; intros Hx Hy Fx Fy; subst;
    try exact I; try discriminate; try contradiction.
  apply has_sign_nonneg. cbn [xorb]. apply binary_round_aux_sign. lia.
Qed.

Lemma fadd_nonneg x y : nonneg x -> nonneg y -> nonneg (fadd x y).
Proof.
  destruct x as [sx|sx| |sx mx ex], y as [sy|sy| |sy my ey];
    cbn [nonneg fadd SFadd]; intros Hx Hy; subst;
    try exact I; try reflexivity; try contradiction.
  - destruct sx, sy; exact I.
  - cbn [cond_Zopp]. apply has_sign_nonneg.
    destruct (shl_align mx ex (Z.min ex ey)) as [ax ?].
    destruct (shl_align my ey (Z.min ex ey)) as [ay ?]. cbn [fst].
    cbn [Z.add binary_normalize]. apply binary_round_sign.
Qed.

Lemma feq_refl_finite x : is_finite x = true -> feq x x = true.
Proof.
  destruct x as [s|s| |s m e]; cbn; try discriminate; try reflexivity.
  intros _. unfold feq, SFeqb, SFcompare.
  rewrite Z.compare_refl, Pos.compare_cont_refl. now destruct s.
Qed.

(** ** The document of a successful call *)

Lemma rmap_ok_map {A B} (f : A -> result B) (g : A -> B) (P : A -> Prop) :
  (forall x y, f x = Ok y -> y = g x /\ P x) ->
  forall xs ys, rmap f xs = Ok ys -> ys = map g xs /\ Forall P xs.
Proof.
  intros Hf. induction xs as [|x xs IH]; intros ys; simpl.
  - intros H. injection H as <-. split; constructor.
  - destruct (f x) as [y|e] eqn:Hx; [|discriminate].
    destruct (rmap f xs) as [ys'|e]; [|discriminate].
    intros H. injection H as <-.
    destruct (Hf _ _ Hx) as [-> Px]. destruct (IH _ eq_refl) as [-> Pxs].
    split; [reflexivity | now constructor].
Qed.

Lemma rmap_map_ok {A B} (f : A -> result B) (g : A -> B) :
  forall xs, Forall (fun x => f x = Ok (g x)) xs -> rmap f xs = Ok (map g xs).
Proof.
  induction 1 as [|x xs Hx _ IH]; simpl; [reflexivity|].
  now rewrite Hx, IH.
Qed.

Lemma truediv_ok_inv x n q :
  truediv x (to_float (Z.of_nat n)) = Ok q ->
  n <> O /\ q = fdiv x (to_float (Z.of_nat n)).
Proof.
  destruct n as [|n]; [discriminate|].
  rewrite truediv_dim by discriminate.
  intros H. injection H as <-. split; [discriminate | reflexivity].
Qed.

Section DocumentOfACall.

Variable float_str : float -> string.

Lemma tag_result_ok_inv tag_size margin columns item group :
  tag_result float_str tag_size margin columns item = Ok group ->
  group = placed_group float_str tag_size margin columns item
  /\ drawable (snd (snd item)).
Proof.
  destruct item as [i [tag_name image]]. unfold tag_result, placed_group.
  destruct (truediv tag_size (to_float (Z.of_nat (shape0 image))))
    as [ph|e] eqn:H0; [|discriminate].
  destruct (truediv tag_size (to_float (Z.of_nat (shape1 image))))
    as [pw|e] eqn:H1; [|discriminate].
  cbn [rbind]. intros H. injection H as <-.
  apply truediv_ok_inv in H0 as [H0 _]. apply truediv_ok_inv in H1 as [H1 _].
  split; [reflexivity | split; assumption].
Qed.

Lemma tag_result_drawable tag_size margin columns item :
  drawable (snd (snd item)) ->
  tag_result float_str tag_size margin columns item
  = Ok (placed_group float_str tag_size margin columns item).
Proof.
  destruct item as [i [tag_name image]]. intros [H0 H1].
  unfold tag_result, placed_group. cbn [snd] in *.
  now rewrite !truediv_dim by assumption.
Qed.

(** What a call that returns has computed. *)
Lemma gen_result_ok_inv tag_images tag_size margin columns r :
  gen_result float_str tag_images tag_size margin columns = Ok r ->
  exists rows fcols,
    ceil_truediv (Z.of_nat (List.length tag_images)) columns = Ok rows
    /\ float_of_int columns = Ok fcols
    /\ Forall (fun item => drawable (snd (snd item))) (enumerate tag_images)
    /\ r = Some (document float_str
                   (canvas_width tag_size margin fcols)
                   (canvas_height tag_size margin rows)
                   (map (placed_group float_str tag_size margin columns)
                        (enumerate tag_images))).
Proof.
  unfold gen_result.
  destruct (ceil_truediv (Z.of_nat (List.length tag_images)) columns)
    as [rows|e]; [|discriminate].
  destruct (float_of_int columns) as [fcols|e]; [|discriminate].
  cbn [rbind].
  destruct (rmap (tag_result float_str tag_size margin columns)
                 (enumerate tag_images)) as [groups|e] eqn:Hg;
    [|discriminate].
  cbn [rbind]. intros H. injection H as <-.
  apply (rmap_ok_map _ (placed_group float_str tag_size margin columns)
           (fun item => drawable (snd (snd item)))) in Hg
    as [-> Hd]; [|apply tag_result_ok_inv].
  exists rows, fcols. repeat split; assumption.
Qed.

Lemma gen_ok_inv tag_images tag_size margin columns w r w' :
  gen_apriltags_svg float_str tag_images tag_size margin columns w
  = (Ok r, w') ->
  gen_result float_str tag_images tag_size margin columns = Ok r.
Proof.
  rewrite gen_apriltags_svg_run. intros H. now injection H as -> _.
Qed.

End DocumentOfACall.

Lemma ceil_truediv_rows count columns rows :
  (1 <= columns)%Z ->
  ceil_truediv count columns = Ok rows ->
  rows = canvas_rows count columns
  /\ (columns * (rows - 1) < count <= columns * rows)%Z.
Proof.
  intros Hc. unfold ceil_truediv, canvas_rows.
  destruct (Z.eqb_spec columns 0) as [->|_]; [lia|].
  intros H. injection H as <-.
  split; Z.div_mod_to_equations; nia.
Qed.

Lemma enumerate_nth_from {A} (xs : list A) :
  forall a i x,
    nth_error xs i = Some x ->
    nth_error (combine (seq a (List.length xs)) xs) i = Some ((a + i)%nat, x).
Proof.
  induction xs as [|y ys IH]; intros a [|i] x; simpl; try discriminate.
  - intros H. injection H as ->. now rewrite Nat.add_0_r.
  - intros H. rewrite (IH (S a) i x H). f_equal. f_equal. lia.
Qed.

Lemma enumerate_nth {A} (xs : list A) i x :
  nth_error xs i = Some x -> nth_error (enumerate xs) i = Some (i, x).
Proof. intros H. unfold enumerate. now rewrite (enumerate_nth_from xs 0 i x H). Qed.

Lemma enumerate_length {A} (xs : list A) :
  List.length (enumerate xs) = List.length xs.
Proof.
  unfold enumerate. rewrite length_combine, length_seq. apply Nat.min_id.
Qed.

(** C7 at the id specification ["1,x"]. *)
Lemma C7_bad_token_witness :
  In "x" (spec_tokens (tag_id bad_args))
  /\ int "x" = Raise ValueError
  /\ main str_float_exact bad_args empty_world = (Raise ValueError, empty_world).
Proof.
  assert (H1 : In "x" (spec_tokens (tag_id bad_args))).
  { vm_compute. auto. }
  assert (H2 : int "x" = Raise ValueError) by reflexivity.
  exact (conj H1 (conj H2
           (C7_bad_token_is_fatal_before_output
              str_float_exact bad_args empty_world "x" H1 H2))).
Defined.

(** ** Canvas and grid *)

(** C2: a document emitted for [count] tags in [columns >= 1] columns opens
    with the XML declaration and a root element of width
    [(tag_size + 2 margin) columns + margin] and height
    [(tag_size + 2 margin) rows + margin] in millimetres, with a viewBox of
    the same two numbers, where [rows] is the ceiling of [count / columns].
    For 37.5, 5, three columns and one tag the canvas is 147.5 by 52.5. *)
Theorem C2_canvas_size :
  (forall float_str tag_images tag_size margin columns w svg w',
      (1 <= columns)%Z ->
      gen_apriltags_svg float_str tag_images tag_size margin columns w
      = (Ok (Some svg), w') ->
      let count := Z.of_nat (List.length tag_images) in
      let rows := canvas_rows count columns in
      exists fcols body,
        float_of_int columns = Ok fcols
        /\ (columns * (rows - 1) < count <= columns * rows)%Z
        /\ let svg_width :=
             fadd (fmul (fadd tag_size (fmul (to_float 2) margin)) fcols) margin in
           let svg_height :=
             fadd (fmul (fadd tag_size (fmul (to_float 2) margin)) (to_float rows))
                  margin in
           svg = xml_decl
                 ++ ("<svg " ++ attr "width" (float_str svg_width ++ "mm")
                     ++ " " ++ attr "height" (float_str svg_height ++ "mm")
                     ++ " " ++ attr "viewBox"
                          ("0,0," ++ float_str svg_width ++ ","
                                  ++ float_str svg_height)
                     ++ " " ++ attr "xmlns" "http://www.w3.org/2000/svg"
                     ++ ">" ++ nl)
                 ++ body)
  /\ (canvas_rows 1 3 = 1%Z
      /\ canvas_width f37_5 f5 (to_float 3) = fdiv (to_float 295) (to_float 2)
      /\ canvas_height f37_5 f5 1 = fdiv (to_float 105) (to_float 2)
      /\ str_float_exact (canvas_width f37_5 f5 (to_float 3)) = "147.5"
      /\ str_float_exact (canvas_height f37_5 f5 1) = "52.5").
Proof.
  split.
  - intros fs tag_images tag_size margin columns w svg w' Hc Hrun count rows.
    apply gen_ok_inv, gen_result_ok_inv in Hrun
      as (rows' & fcols & Hrows & Hf & _ & Hsvg).
    apply (ceil_truediv_rows _ _ _ Hc) in Hrows as [-> Hbounds].
    injection Hsvg as ->.
    exists fcols. eexists. split; [exact Hf|]. split; [exact Hbounds|].
    cbv zeta. unfold document, svg_open, canvas_width, canvas_height.
    rewrite !append_assoc. reflexivity.
  - repeat split; vm_compute; reflexivity.
Qed.

(** C2 at the sample tag. *)
Lemma C2_canvas_size_witness :
  (1 <= 3)%Z
  /\ exists fcols body,
       float_of_int 3 = Ok fcols
       /\ (3 * (canvas_rows 1 3 - 1) < 1 <= 3 * canvas_rows 1 3)%Z
       /\ one_tag_svg =
          xml_decl
          ++ ("<svg "
              ++ attr "width"
                   (str_float_exact
                      (fadd (fmul (fadd f37_5 (fmul (to_float 2) f5)) fcols) f5)
                    ++ "mm")
              ++ " " ++ attr "height"
                   (str_float_exact
                      (fadd (fmul (fadd f37_5 (fmul (to_float 2) f5))
                                  (to_float (canvas_rows 1 3))) f5)
                    ++ "mm")
              ++ " " ++ attr "viewBox"
                   ("0,0,"
                    ++ str_float_exact
                         (fadd (fmul (fadd f37_5 (fmul (to_float 2) f5)) fcols) f5)
                    ++ ","
                    ++ str_float_exact
                         (fadd (fmul (fadd f37_5 (fmul (to_float 2) f5))
                                     (to_float (canvas_rows 1 3))) f5))
              ++ " " ++ attr "xmlns" "http://www.w3.org/2000/svg"
              ++ ">" ++ nl)
          ++ body.
Proof.
  split; [lia|].
  apply (proj1 C2_canvas_size str_float_exact one_tag f37_5 f5 3%Z empty_world
           one_tag_svg
           (snd (gen_apriltags_svg str_float_exact one_tag f37_5 f5 3
                                   empty_world))).
  - lia.
  - vm_compute. reflexivity.
Defined.

(** C3: in an emitted document the tag of index [i] stands at row
    [i div columns] and column [i mod columns]; the origin of its group is
    [x = col (tag_size + 2 margin) + margin] and
    [y = row (tag_size + 2 margin) + margin].  With three columns, index 0
    is at (0, 0), index 3 at (1, 0) and index 5 at (1, 2). *)
Theorem C3_grid_placement :
  (forall float_str tag_images tag_size margin columns w svg w',
      (1 <= columns)%Z ->
      gen_apriltags_svg float_str tag_images tag_size margin columns w
      = (Ok (Some svg), w') ->
      exists svg_width svg_height groups,
        svg = document float_str svg_width svg_height groups
        /\ List.length groups = List.length tag_images
        /\ forall i tag_name image,
             nth_error tag_images i = Some (tag_name, image) ->
             let row := (Z.of_nat i / columns)%Z in
             let col := (Z.of_nat i mod columns)%Z in
             let x :=
               fadd (fmul (to_float col)
                          (fadd tag_size (fmul (to_float 2) margin))) margin in
             let y :=
               fadd (fmul (to_float row)
                          (fadd tag_size (fmul (to_float 2) margin))) margin in
             (Z.of_nat i = row * columns + col)%Z
             /\ (0 <= col < columns)%Z
             /\ (0 <= row)%Z
             /\ nth_error groups i
                = Some (tag_group float_str tag_size margin x y tag_name image))
  /\ ((grid_row 3 0, grid_col 3 0) = (0, 0)%Z
      /\ (grid_row 3 3, grid_col 3 3) = (1, 0)%Z
      /\ (grid_row 3 5, grid_col 3 5) = (1, 2)%Z).
Proof.
  split; [|repeat split; reflexivity].
  intros fs tag_images tag_size margin columns w svg w' Hc Hrun.
  apply gen_ok_inv, gen_result_ok_inv in Hrun
    as (rows & fcols & _ & _ & _ & Hsvg).
  injection Hsvg as ->.
  eexists _, _, _. split; [reflexivity|]. split.
  - now rewrite length_map, enumerate_length.
  - intros i tag_name image Hi row col x y.
    repeat split.
    + unfold row, col. pose proof (Z.div_mod (Z.of_nat i) columns). lia.
    + apply Z.mod_pos_bound. lia.
    + unfold col. apply Z.mod_pos_bound. lia.
    + apply Z.div_pos; lia.
    + rewrite nth_error_map, (enumerate_nth _ _ _ Hi). reflexivity.
Qed.

(** C3 at the sample tag. *)
Lemma C3_grid_placement_witness :
  (1 <= 3)%Z
  /\ exists svg_width svg_height groups,
       one_tag_svg = document str_float_exact svg_width svg_height groups
       /\ nth_error groups 0
          = Some (tag_group str_float_exact f37_5 f5
                    (fadd (fmul (to_float (0 mod 3))
                                (fadd f37_5 (fmul (to_float 2) f5))) f5)
                    (fadd (fmul (to_float (0 / 3))
                                (fadd f37_5 (fmul (to_float 2) f5))) f5)
                    "tag36_11_00000" checker).
Proof.
  split; [lia|].
  destruct (proj1 C3_grid_placement str_float_exact one_tag f37_5 f5 3%Z
              empty_world one_tag_svg
              (snd (gen_apriltags_svg str_float_exact one_tag f37_5 f5 3
                                      empty_world)))
    as (svg_width & svg_height & groups & Hdoc & _ & Hat).
  - lia.
  - vm_compute. reflexivity.
  - exists svg_width, svg_height, groups. split; [exact Hdoc|].
    exact (proj2 (proj2 (proj2 (Hat O "tag36_11_00000" checker eq_refl)))).
Defined.

(** ** Pixels *)

Lemma flat_map_rows_length {B} (f : nat -> list B) (width : nat) :
  (forall _y, List.length (f _y) = width) ->
  forall height a, List.length (flat_map f (seq a height)) = (height * width)%nat.
Proof.
  intros Hf. induction height as [|height IH]; intros a; simpl; [reflexivity|].
  now rewrite length_app, Hf, IH.
Qed.

Lemma flat_map_rows_nth {B} (f : nat -> list B) (width : nat) :
  (forall _y, List.length (f _y) = width) ->
  forall height a _y _x,
    (_y < height)%nat -> (_x < width)%nat ->
    nth_error (flat_map f (seq a height)) (_y * width + _x)
    = nth_error (f (a + _y)%nat) _x.
Proof.
  intros Hf. induction height as [|height IH]; intros a _y _x Hy Hx; [lia|].
  simpl. destruct _y as [|_y].
  - simpl. rewrite nth_error_app1 by (rewrite Hf; exact Hx).
    now rewrite Nat.add_0_r.
  - rewrite nth_error_app2 by (rewrite Hf; simpl; lia).
    rewrite Hf. replace (S _y * width + _x - width)%nat
      with (_y * width + _x)%nat by (simpl; lia).
    rewrite IH by lia. f_equal. f_equal. lia.
Qed.

Lemma scan_length image :
  List.length (scan image) = (shape0 image * shape1 image)%nat.
Proof.
  unfold scan. apply flat_map_rows_length.
  intros _y. now rewrite length_map, length_seq.
Qed.

(** Scan order: the pixel [(_y, _x)] is the [(_y * shape1 + _x)]-th. *)
Lemma scan_nth image _y _x :
  (_y < shape0 image)%nat -> (_x < shape1 image)%nat ->
  nth_error (scan image) (_y * shape1 image + _x) = Some (_y, _x).
Proof.
  intros Hy Hx. unfold scan.
  rewrite (flat_map_rows_nth _ (shape1 image)); try assumption.
  - rewrite nth_error_map, nth_error_seq.
    destruct (Nat.ltb_spec _x (shape1 image)); [reflexivity | lia].
  - intros y. now rewrite length_map, length_seq.
Qed.

Lemma scan_in image _y _x :
  In (_y, _x) (scan image) -> (_y < shape0 image)%nat /\ (_x < shape1 image)%nat.
Proof.
  unfold scan. rewrite in_flat_map. intros (y & Hy & Hin).
  apply in_map_iff in Hin as (x & Heq & Hx). injection Heq as -> ->.
  apply in_seq in Hy, Hx. lia.
Qed.

Lemma parse_hex2_format_02x v :
  match format_02x v with
  | String hi (String lo EmptyString) => parse_hex2 hi lo = Some (Byte.to_N v)
  | _ => False
  end.
Proof. destruct v; vm_compute; reflexivity. Qed.

(** The fill colour reads back as the three colour channels. *)
Lemma parse_color_rgb_hex p :
  parse_color (rgb_hex p)
  = Some (Byte.to_N (red p), Byte.to_N (green p), Byte.to_N (blue p)).
Proof.
  destruct p as [r g b a]. unfold rgb_hex. cbn [red green blue map join fold_right].
  pose proof (parse_hex2_format_02x r) as Hr.
  pose proof (parse_hex2_format_02x g) as Hg.
  pose proof (parse_hex2_format_02x b) as Hb.
  destruct (format_02x r) as [|r1 [|r2 [|? ?]]]; try contradiction.
  destruct (format_02x g) as [|g1 [|g2 [|? ?]]]; try contradiction.
  destruct (format_02x b) as [|b1 [|b2 [|? ?]]]; try contradiction.
  cbn [append parse_color]. now rewrite Hr, Hg, Hb.
Qed.

(** C4: in an emitted document the group of every raster starts with the
    rectangles of its pixels, one rectangle per pixel and in scan order (the
    pixel of line [_y] and column [_x] is rectangle number
    [_y * shape1 + _x] of [shape0 * shape1]); the fill of a rectangle is
    ['#'] and the six hexadecimal digits of the red, green and blue
    channels, which read back as these channels; the alpha channel plays
    no part in the rectangle. *)
Theorem C4_one_rectangle_per_pixel :
  (forall float_str tag_images tag_size margin columns w svg w',
      gen_apriltags_svg float_str tag_images tag_size margin columns w
      = (Ok (Some svg), w') ->
      exists svg_width svg_height,
        svg = document float_str svg_width svg_height
                (map (fun item : nat * (string * Raster) =>
                        let '(i, (tag_name, image)) := item in
                        let x := origin_x tag_size margin columns i in
                        let y := origin_y tag_size margin columns i in
                        join (map (render_rect float_str)
                                  (pixel_rects tag_size x y tag_name image))
                        ++ label_text float_str tag_size margin x y tag_name
                        ++ border_rect float_str tag_size margin x y)
                     (enumerate tag_images)))
  /\ (forall tag_size x y tag_name image,
        List.length (pixel_rects tag_size x y tag_name image)
        = (shape0 image * shape1 image)%nat
        /\ forall _y _x,
             (_y < shape0 image)%nat -> (_x < shape1 image)%nat ->
             exists r,
               nth_error (pixel_rects tag_size x y tag_name image)
                         (_y * shape1 image + _x) = Some r
               /\ rect_id r = tag_name ++ "-" ++ str_int (Z.of_nat _x)
                                       ++ "-" ++ str_int (Z.of_nat _y)
               /\ rect_fill r
                  = "#" ++ format_02x (red (pixel_at image _y _x))
                        ++ format_02x (green (pixel_at image _y _x))
                        ++ format_02x (blue (pixel_at image _y _x))
               /\ parse_color (rect_fill r)
                  = Some (Byte.to_N (red (pixel_at image _y _x)),
                          Byte.to_N (green (pixel_at image _y _x)),
                          Byte.to_N (blue (pixel_at image _y _x))))
  /\ (forall float_str pix_width pix_height x y tag_name _x _y r g b a a',
        pixel_rect float_str pix_width pix_height x y tag_name _x _y
                   (mkPixel r g b a)
        = pixel_rect float_str pix_width pix_height x y tag_name _x _y
                     (mkPixel r g b a')).
Proof.
  split; [|split].
  - intros fs tag_images tag_size margin columns w svg w' Hrun.
    apply gen_ok_inv, gen_result_ok_inv in Hrun
      as (rows & fcols & _ & _ & _ & Hsvg).
    injection Hsvg as ->.
    eexists _, _. reflexivity.
  - intros tag_size x y tag_name image. split.
    + unfold pixel_rects. now rewrite length_map, scan_length.
    + intros _y _x Hy Hx.
      exists (rect_of_pixel tag_size x y tag_name image (_y, _x)).
      split; [|split; [|split]].
      * unfold pixel_rects.
        now rewrite nth_error_map, (scan_nth image _y _x Hy Hx).
      * reflexivity.
      * cbn [rect_of_pixel rect_fill]. unfold rgb_hex.
        cbn [map join fold_right]. now rewrite append_empty_r.
      * cbn [rect_of_pixel rect_fill]. apply parse_color_rgb_hex.
  - reflexivity.
Qed.

(** C4 at the sample tag. *)
Lemma C4_one_rectangle_per_pixel_witness :
  exists svg_width svg_height,
    one_tag_svg
    = document str_float_exact svg_width svg_height
        (map (fun item : nat * (string * Raster) =>
                let '(i, (tag_name, image)) := item in
                let x := origin_x f37_5 f5 3 i in
                let y := origin_y f37_5 f5 3 i in
                join (map (render_rect str_float_exact)
                          (pixel_rects f37_5 x y tag_name image))
                ++ label_text str_float_exact f37_5 f5 x y tag_name
                ++ border_rect str_float_exact f37_5 f5 x y)
             (enumerate one_tag)).
Proof.
  apply (proj1 C4_one_rectangle_per_pixel str_float_exact one_tag f37_5 f5
           3%Z empty_world one_tag_svg
           (snd (gen_apriltags_svg str_float_exact one_tag f37_5 f5 3
                                   empty_world))).
  vm_compute. reflexivity.
Defined.

(** C6: in an emitted document every pixel rectangle of a raster has the
    height [tag_size / shape0] and the width [tag_size / shape1], and is
    printed with these two values.  A raster of one line and two columns
    drawn at size 37.5 has rectangles of width 18.75 and height 37.5. *)
Theorem C6_pixel_size_axes :
  (forall float_str tag_images tag_size margin columns w svg w',
      gen_apriltags_svg float_str tag_images tag_size margin columns w
      = (Ok (Some svg), w') ->
      exists svg_width svg_height,
        svg = document float_str svg_width svg_height
                (map (fun item : nat * (string * Raster) =>
                        let '(i, (tag_name, image)) := item in
                        let x := origin_x tag_size margin columns i in
                        let y := origin_y tag_size margin columns i in
                        join (map (render_rect float_str)
                                  (pixel_rects tag_size x y tag_name image))
                        ++ label_text float_str tag_size margin x y tag_name
                        ++ border_rect float_str tag_size margin x y)
                     (enumerate tag_images)))
  /\ (forall tag_size x y tag_name image r,
        In r (pixel_rects tag_size x y tag_name image) ->
        rect_height r = fdiv tag_size (to_float (Z.of_nat (shape0 image)))
        /\ rect_width r = fdiv tag_size (to_float (Z.of_nat (shape1 image))))
  /\ (forall float_str r,
        exists rest,
          render_rect float_str r
          = tab ++ "<rect " ++ attr "width" (float_str (rect_width r))
                ++ " " ++ attr "height" (float_str (rect_height r))
                ++ rest)
  /\ map (fun r => (str_float_exact (rect_width r),
                    str_float_exact (rect_height r)))
         (pixel_rects f37_5 f5 f5 "wide" wide)
     = [("18.75", "37.5"); ("18.75", "37.5")].
Proof.
  split; [|split; [|split]]; [| | |vm_compute; reflexivity].
  - intros fs tag_images tag_size margin columns w svg w' Hrun.
    apply gen_ok_inv, gen_result_ok_inv in Hrun
      as (rows & fcols & _ & _ & _ & Hsvg).
    injection Hsvg as ->.
    eexists _, _. reflexivity.
  - intros tag_size x y tag_name image r Hin. unfold pixel_rects in Hin.
    apply in_map_iff in Hin as ([_y _x] & <- & _). split; reflexivity.
  - intros fs r. eexists. unfold render_rect. reflexivity.
Qed.

(** C6 at the raster of one line and two columns. *)
Lemma C6_pixel_size_axes_witness :
  exists svg_width svg_height,
    wide_tag_svg
    = document str_float_exact svg_width svg_height
        (map (fun item : nat * (string * Raster) =>
                let '(i, (tag_name, image)) := item in
                let x := origin_x f37_5 f5 3 i in
                let y := origin_y f37_5 f5 3 i in
                join (map (render_rect str_float_exact)
                          (pixel_rects f37_5 x y tag_name image))
                ++ label_text str_float_exact f37_5 f5 x y tag_name
                ++ border_rect str_float_exact f37_5 f5 x y)
             (enumerate wide_tag)).
Proof.
  apply (proj1 C6_pixel_size_axes str_float_exact wide_tag f37_5 f5
           3%Z empty_world wide_tag_svg
           (snd (gen_apriltags_svg str_float_exact wide_tag f37_5 f5 3
                                   empty_world))).
  vm_compute. reflexivity.
Defined.

(** ** Determinism *)

Lemma same_collection_length d1 d2 :
  same_collection d1 d2 -> List.length d1 = List.length d2.
Proof. induction 1; simpl; congruence. Qed.

Lemma same_collection_items d1 d2 :
  same_collection d1 d2 ->
  forall a,
    Forall2 same_item (combine (seq a (List.length d1)) d1)
                      (combine (seq a (List.length d2)) d2).
Proof.
  induction 1 as [|[n1 r1] [n2 r2] d1 d2 [Hn Hr] _ IH]; intros a; simpl.
  - constructor.
  - constructor; [|apply IH].
    split; [reflexivity | split; [exact Hn | exact Hr]].
Qed.

Lemma scan_same a b : same_raster a b -> scan a = scan b.
Proof. intros (H0 & H1 & _). unfold scan. now rewrite H0, H1. Qed.

Lemma pixel_rects_same tag_size x y tag_name a b :
  same_raster a b ->
  pixel_rects tag_size x y tag_name a = pixel_rects tag_size x y tag_name b.
Proof.
  intros Hs. unfold pixel_rects. rewrite <- (scan_same a b Hs).
  apply map_ext_in. intros [_y _x] Hin. apply scan_in in Hin as [Hy Hx].
  destruct Hs as (H0 & H1 & Hp). unfold rect_of_pixel.
  now rewrite H0, H1, (Hp _y _x Hy Hx).
Qed.

Lemma tag_result_same float_str tag_size margin columns item1 item2 :
  same_item item1 item2 ->
  tag_result float_str tag_size margin columns item1
  = tag_result float_str tag_size margin columns item2.
Proof.
  destruct item1 as [i1 [n1 a]], item2 as [i2 [n2 b]].
  intros (Hi & Hn & Hs). cbn [fst snd] in *. subst i2 n2.
  unfold tag_result, tag_group. rewrite (pixel_rects_same _ _ _ _ a b Hs).
  destruct Hs as (H0 & H1 & _). now rewrite H0, H1.
Qed.

Lemma tag_line_same float_str tag_size margin columns item1 item2 :
  same_item item1 item2 ->
  tag_line float_str tag_size margin columns item1
  = tag_line float_str tag_size margin columns item2.
Proof.
  destruct item1 as [i1 [n1 a]], item2 as [i2 [n2 b]].
  intros (Hi & Hn & H0 & H1 & _). cbn [fst snd] in *. subst i2 n2.
  unfold tag_line. now rewrite H0, H1.
Qed.

Lemma rmap_same {A B} (R : A -> A -> Prop) (f : A -> result B) xs ys :
  (forall x y, R x y -> f x = f y) ->
  Forall2 R xs ys -> rmap f xs = rmap f ys.
Proof.
  intros Hf. induction 1 as [|x y xs ys Hxy _ IH]; simpl; [reflexivity|].
  now rewrite (Hf _ _ Hxy), IH.
Qed.

Lemma tags_log_same float_str tag_size margin columns xs ys :
  Forall2 same_item xs ys ->
  tags_log float_str tag_size margin columns xs
  = tags_log float_str tag_size margin columns ys.
Proof.
  induction 1 as [|x y xs ys Hxy _ IH]; simpl; [reflexivity|].
  rewrite (tag_result_same _ _ _ _ _ _ Hxy), (tag_line_same _ _ _ _ _ _ Hxy).
  now rewrite IH.
Qed.

Lemma gen_result_same float_str d1 d2 tag_size margin columns :
  same_collection d1 d2 ->
  gen_result float_str d1 tag_size margin columns
  = gen_result float_str d2 tag_size margin columns.
Proof.
  intros Hs. unfold gen_result, enumerate.
  rewrite (rmap_same same_item _ _ _
             (tag_result_same float_str tag_size margin columns)
             (same_collection_items _ _ Hs 0%nat)).
  rewrite (same_collection_length _ _ Hs). reflexivity.
Qed.

Lemma gen_log_same float_str d1 d2 tag_size margin columns :
  same_collection d1 d2 ->
  gen_log float_str d1 tag_size margin columns
  = gen_log float_str d2 tag_size margin columns.
Proof.
  intros Hs. unfold gen_log, enumerate.
  rewrite (tags_log_same float_str tag_size margin columns _ _
             (same_collection_items _ _ Hs 0%nat)).
  now rewrite (same_collection_length _ _ Hs).
Qed.

(** C9: two calls of the emitter on identical collections (the same names
    and rasters in the same order) and identical [tag_size], [margin] and
    [cols] return the same value -- the same document, byte for byte, or
    the same exception -- whatever the two worlds they run in; they print
    the same lines, and do nothing else to their worlds. *)
Theorem C9_emitter_deterministic :
  forall float_str d1 d2 tag_size margin columns w1 w2,
    same_collection d1 d2 ->
    fst (gen_apriltags_svg float_str d1 tag_size margin columns w1)
    = fst (gen_apriltags_svg float_str d2 tag_size margin columns w2)
    /\ exists lines,
         snd (gen_apriltags_svg float_str d1 tag_size margin columns w1)
         = add_lines w1 lines
         /\ snd (gen_apriltags_svg float_str d2 tag_size margin columns w2)
            = add_lines w2 lines.
Proof.
  intros fs d1 d2 tag_size margin columns w1 w2 Hs.
  rewrite !gen_apriltags_svg_run. cbn [fst snd]. split.
  - apply gen_result_same, Hs.
  - exists (gen_log fs d1 tag_size margin columns). split; [reflexivity|].
    now rewrite (gen_log_same fs d1 d2 tag_size margin columns Hs).
Qed.

(** C9 at the checkerboard and a raster that differs from it only outside
    its shape, in two different worlds. *)
Lemma C9_emitter_deterministic_witness :
  same_collection one_tag [("tag36_11_00000", checker_padded)]
  /\ fst (gen_apriltags_svg str_float_exact one_tag f37_5 f5 3 empty_world)
     = fst (gen_apriltags_svg str_float_exact
              [("tag36_11_00000", checker_padded)] f37_5 f5 3 later_world).
Proof.
  assert (Hs : same_collection one_tag [("tag36_11_00000", checker_padded)]).
  { constructor; [|constructor]. split; [reflexivity|].
    split; [reflexivity|]. split; [reflexivity|].
    intros _y _x Hy Hx. cbn [shape0 shape1 checker snd one_tag] in Hy, Hx.
    cbn [snd pixel_at checker_padded].
    destruct (Nat.ltb_spec _y 2); [|lia].
    destruct (Nat.ltb_spec _x 2); [|lia]. reflexivity. }
  split; [exact Hs|].
  exact (proj1 (C9_emitter_deterministic str_float_exact one_tag
                  [("tag36_11_00000", checker_padded)] f37_5 f5 3%Z
                  empty_world later_world Hs)).
Defined.

(** ** The exceptions of a run *)

Lemma rmap_raises_inv {A B} (f : A -> result B) xs e :
  rmap f xs = Raise e -> exists x, In x xs /\ f x = Raise e.
Proof.
  induction xs as [|x xs IH]; simpl; [discriminate|].
  destruct (f x) as [y|e'] eqn:Hx.
  - destruct (rmap f xs) as [ys|e'']; [discriminate|].
    intros H. injection H as <-.
    destruct (IH eq_refl) as (x' & Hin & Hx'). eauto.
  - intros H. injection H as <-. eauto.
Qed.

Lemma resolve_tag_ids_raises tag_id e :
  resolve_tag_ids tag_id = Raise e -> e = ValueError.
Proof.
  unfold resolve_tag_ids.
  destruct (contains "," tag_id).
  - intros H. apply rmap_raises_inv in H as (x & _ & Hx).
    exact (int_raises _ _ Hx).
  - destruct (contains "-" tag_id).
    + destruct (split "-" tag_id) as [|start [|end_ [|? ?]]];
        try (intros H; injection H as <-; reflexivity).
      destruct (int start) as [a|e1] eqn:Hs; cbn [rbind].
      * destruct (int end_) as [b|e2] eqn:He; cbn [rbind]; [discriminate|].
        intros H. injection H as <-. exact (int_raises _ _ He).
      * intros H. injection H as <-. exact (int_raises _ _ Hs).
    + destruct (int tag_id) as [a|e1] eqn:Hs; cbn [rbind]; [discriminate|].
      intros H. injection H as <-. exact (int_raises _ _ Hs).
Qed.

Lemma truediv_raises x y e : truediv x y = Raise e -> e = ZeroDivisionError.
Proof.
  unfold truediv. destruct (is_zero y); [|discriminate].
  intros H. now injection H as <-.
Qed.

Lemma tag_result_raises float_str tag_size margin columns item e :
  tag_result float_str tag_size margin columns item = Raise e ->
  e = ZeroDivisionError.
Proof.
  destruct item as [i [tag_name image]]. unfold tag_result.
  destruct (truediv tag_size (to_float (Z.of_nat (shape0 image))))
    as [ph|e0] eqn:H0; cbn [rbind].
  - destruct (truediv tag_size (to_float (Z.of_nat (shape1 image))))
      as [pw|e1] eqn:H1; cbn [rbind]; [discriminate|].
    intros H. injection H as <-. exact (truediv_raises _ _ _ H1).
  - intros H. injection H as <-. exact (truediv_raises _ _ _ H0).
Qed.

(** The emitter raises nothing but these two exceptions, and returns
    nothing but a document. *)
Lemma gen_result_cases float_str tag_images tag_size margin columns :
  (exists svg,
      gen_result float_str tag_images tag_size margin columns = Ok (Some svg))
  \/ gen_result float_str tag_images tag_size margin columns
     = Raise ZeroDivisionError
  \/ gen_result float_str tag_images tag_size margin columns
     = Raise OverflowError.
Proof.
  unfold gen_result, ceil_truediv, float_of_int.
  destruct (columns =? 0)%Z; cbn [rbind]; [right; left; reflexivity|].
  destruct (to_float columns); cbn [rbind];
    try (right; right; reflexivity);
    (destruct (rmap (tag_result float_str tag_size margin columns)
                    (enumerate tag_images)) as [groups|err] eqn:Hg; cbn [rbind];
     [left; eauto
     | apply rmap_raises_inv in Hg as (item & _ & Hitem);
       apply tag_result_raises in Hitem as ->; right; left; reflexivity]).
Qed.

Lemma load_tag_raises tag_all tag_id tag_images w e w' :
  load_tag tag_all tag_id tag_images w = (Raise e, w') ->
  e = UnidentifiedImageError.
Proof.
  unfold load_tag.
  destruct (tag_files tag_all tag_id) as [|tag_file files].
  - unfold bind, print, ret. discriminate.
  - unfold bind, path_exists, load_image, print, ret.
    destruct (exists_ w tag_file); cbn [negb].
    + destruct (decode w tag_file); [discriminate|].
      intros H. now injection H as <- _.
    + discriminate.
Qed.

Lemma load_tags_raises tag_all tag_ids :
  forall tag_images w e w',
    for_each tag_ids (load_tag tag_all) tag_images w = (Raise e, w') ->
    e = UnidentifiedImageError.
Proof.
  induction tag_ids as [|tag_id tag_ids IH]; intros tag_images w e w'; simpl.
  - unfold ret. discriminate.
  - unfold bind at 1.
    destruct (load_tag tag_all tag_id tag_images w) as [[d|e1] w1] eqn:H1.
    + apply IH.
    + intros H. injection H as <- _. exact (load_tag_raises _ _ _ _ _ _ H1).
Qed.

(** The assertion of [main] never fails. *)
Lemma emit_and_write_never_asserts float_str args tag_images w :
  fst (emit_and_write float_str args tag_images w) <> Raise AssertionError.
Proof.
  unfold emit_and_write, bind at 1. rewrite gen_apriltags_svg_run.
  destruct (gen_result_cases float_str tag_images (tag_size args)
              (margin args) (cols args)) as [[svg ->]|[->| ->]];
    cbn [fst]; try discriminate.
  unfold bind, write_file, print.
  destruct (writable _ (out_file args)); cbn [fst]; [discriminate|].
  destruct (leftover _ (out_file args) svg); cbn [fst]; discriminate.
Qed.

Lemma main_never_asserts float_str args w :
  fst (main float_str args w) <> Raise AssertionError.
Proof.
  unfold main, bind at 1, glob. unfold bind at 1, lift.
  destruct (resolve_tag_ids (tag_id args)) as [tag_ids|e0] eqn:Hr.
  - unfold bind at 1.
    destruct (for_each tag_ids
                (load_tag (listing w (family_name (tag_family args) ++ "/*_*.png")))
                [] w) as [[d|e1] w1] eqn:Hl.
    + apply emit_and_write_never_asserts.
    + cbn [fst]. rewrite (load_tags_raises _ _ _ _ _ _ Hl). discriminate.
  - cbn [fst]. rewrite (resolve_tag_ids_raises _ _ Hr). discriminate.
Qed.

Lemma Forall_enumerate {A} (P : A -> Prop) (xs : list A) :
  Forall P xs -> Forall (fun item => P (snd item)) (enumerate xs).
Proof.
  unfold enumerate. generalize 0%nat.
  induction xs as [|x xs IH]; intros a H; simpl; [constructor|].
  inversion H as [|? ? Hx Hxs]; subst. constructor; [exact Hx | now apply IH].
Qed.

(** The emitter returns a document where nothing makes it raise. *)
Lemma gen_result_drawable float_str tag_images tag_size margin columns fcols :
  (1 <= columns)%Z ->
  float_of_int columns = Ok fcols ->
  Forall (fun item => drawable (snd item)) tag_images ->
  gen_result float_str tag_images tag_size margin columns
  = Ok (Some (document float_str
                (canvas_width tag_size margin fcols)
                (canvas_height tag_size margin
                   (canvas_rows (Z.of_nat (List.length tag_images)) columns))
                (map (placed_group float_str tag_size margin columns)
                     (enumerate tag_images)))).
Proof.
  intros Hc Hf Hd. unfold gen_result.
  destruct (ceil_truediv (Z.of_nat (List.length tag_images)) columns)
    as [rows|e] eqn:Hrows.
  - apply (ceil_truediv_rows _ _ _ Hc) in Hrows as [-> _].
    rewrite Hf. cbn [rbind].
    rewrite (rmap_map_ok _ (placed_group float_str tag_size margin columns)).
    + reflexivity.
    + apply (Forall_enumerate (fun item => drawable (snd item))) in Hd.
      eapply Forall_impl; [|exact Hd].
      intros item Hitem. now apply tag_result_drawable.
  - unfold ceil_truediv in Hrows.
    destruct (Z.eqb_spec columns 0); [lia | discriminate].
Qed.

Lemma drawableb_spec image : drawableb image = true <-> drawable image.
Proof.
  unfold drawableb, drawable.
  destruct (Nat.eqb_spec (shape0 image) 0), (Nat.eqb_spec (shape1 image) 0);
    cbn; intuition (try discriminate; try lia).
Qed.

Lemma Forall_enumerate_inv {A} (P : A -> Prop) (xs : list A) :
  Forall (fun item => P (snd item)) (enumerate xs) -> Forall P xs.
Proof.
  unfold enumerate. generalize 0%nat.
  induction xs as [|x xs IH]; intros a H; [constructor|].
  cbn in H. inversion H as [|? ? Hx Hxs]; subst.
  constructor; [exact Hx | exact (IH _ Hxs)].
Qed.

Lemma float_of_int_raises z e : float_of_int z = Raise e -> e = OverflowError.
Proof.
  unfold float_of_int. destruct (to_float z); try discriminate.
  intros H. now injection H as <-.
Qed.

(** The value of a call, case by case. *)
Lemma gen_result_table float_str tag_images tag_size margin columns :
  gen_result float_str tag_images tag_size margin columns =
  if (columns =? 0)%Z then Raise ZeroDivisionError
  else
    match float_of_int columns with
    | Raise _ => Raise OverflowError
    | Ok fcols =>
        if forallb (fun item => drawableb (snd item)) tag_images
        then
          Ok (Some (document float_str
                      (canvas_width tag_size margin fcols)
                      (canvas_height tag_size margin
                         (- (- Z.of_nat (List.length tag_images) / columns)))
                      (map (placed_group float_str tag_size margin columns)
                           (enumerate tag_images))))
        else Raise ZeroDivisionError
    end.
Proof.
  unfold gen_result, ceil_truediv.
  destruct (columns =? 0)%Z; cbn [rbind]; [reflexivity|].
  destruct (float_of_int columns) as [fcols|e] eqn:Hf; cbn [rbind].
  - destruct (forallb (fun item => drawableb (snd item)) tag_images) eqn:Hall.
    + rewrite (rmap_map_ok _ (placed_group float_str tag_size margin columns)).
      * reflexivity.
      * rewrite forallb_forall in Hall.
        assert (Hd : Forall (fun item : string * Raster => drawable (snd item))
                            tag_images).
        { apply Forall_forall. intros item Hin.
          apply drawableb_spec, Hall, Hin. }
        apply (Forall_enumerate (fun item => drawable (snd item))) in Hd.
        eapply Forall_impl; [|exact Hd].
        intros item Hitem. now apply tag_result_drawable.
    + destruct (rmap (tag_result float_str tag_size margin columns)
                     (enumerate tag_images)) as [groups|e] eqn:Hg; cbn [rbind].
      * apply (rmap_ok_map _ (placed_group float_str tag_size margin columns)
                 (fun item => drawable (snd (snd item)))) in Hg
          as [_ Hd]; [|apply tag_result_ok_inv].
        apply (Forall_enumerate_inv (fun item => drawable (snd item))) in Hd.
        assert (Htrue : forallb (fun item => drawableb (snd item)) tag_images
                        = true).
        { apply forallb_forall. intros item Hin.
          rewrite Forall_forall in Hd. apply drawableb_spec, Hd, Hin. }
        congruence.
      * apply rmap_raises_inv in Hg as (item & _ & Hitem).
        now rewrite (tag_result_raises _ _ _ _ _ _ Hitem).
  - now rewrite (float_of_int_raises _ _ Hf).
Qed.

Lemma forallb_drawable (tag_images : dict Raster) :
  forallb (fun item => drawableb (snd item)) tag_images = true
  <-> Forall (fun item => drawable (snd item)) tag_images.
Proof.
  rewrite forallb_forall, Forall_forall.
  split; intros H item Hin; apply drawableb_spec, H, Hin.
Qed.

(** C10, as stated, fails where the emitter raises: a column count beyond
    the range of a float raises [OverflowError] at the canvas width, and a
    raster without lines raises [ZeroDivisionError] at its pixel height. *)
Lemma C10_emitter_raises_counterexample :
  fst (gen_apriltags_svg str_float_exact [] f37_5 f5 (2 ^ 1024) empty_world)
  = Raise OverflowError
  /\ fst (gen_apriltags_svg str_float_exact [("tag36_11_00000", no_lines)]
            f37_5 f5 3 empty_world)
     = Raise ZeroDivisionError.
Proof. split; vm_compute; reflexivity. Qed.

(** C10 (amended): the emitter never returns [None] -- a call that returns,
    returns a document.  It returns one exactly when the column count is
    not zero and within the range of a float and no raster of the
    collection has a zero length, whatever [tag_size] and [margin] are: so
    for every column count at least 1 in that range, and for the negative
    ones as well.  On every other input it raises: [ZeroDivisionError] for
    zero columns, [OverflowError] for a non-zero column count beyond the
    range of a float, and [ZeroDivisionError] for a raster with a zero
    length when the column count is accepted.  The assertion of [main]
    therefore never fails. *)
Theorem C10_emitter_never_returns_none :
  (forall float_str tag_images tag_size margin columns w r w',
      gen_apriltags_svg float_str tag_images tag_size margin columns w
      = (Ok r, w') ->
      exists svg, r = Some svg)
  /\ (forall float_str tag_images tag_size margin columns w,
        (1 <= columns)%Z ->
        in_float_range columns ->
        Forall (fun item => drawable (snd item)) tag_images ->
        exists svg w',
          gen_apriltags_svg float_str tag_images tag_size margin columns w
          = (Ok (Some svg), w'))
  /\ (forall float_str tag_images tag_size margin columns w,
        let outcome :=
          fst (gen_apriltags_svg float_str tag_images tag_size margin columns w)
        in
        (exists svg, outcome = Ok (Some svg))
        \/ outcome = Raise ZeroDivisionError
        \/ outcome = Raise OverflowError)
  /\ (forall float_str tag_images tag_size margin columns w,
        let outcome :=
          fst (gen_apriltags_svg float_str tag_images tag_size margin columns w)
        in
        let accepted :=
          columns <> 0%Z
          /\ in_float_range columns
          /\ Forall (fun item => drawable (snd item)) tag_images
        in
        ((exists svg, outcome = Ok (Some svg)) <-> accepted)
        /\ (columns = 0%Z -> outcome = Raise ZeroDivisionError)
        /\ (columns <> 0%Z -> ~ in_float_range columns ->
            outcome = Raise OverflowError)
        /\ (columns <> 0%Z -> in_float_range columns ->
            ~ Forall (fun item => drawable (snd item)) tag_images ->
            outcome = Raise ZeroDivisionError))
  /\ (forall float_str args w,
        fst (main float_str args w) <> Raise AssertionError).
Proof.
  split; [|split; [|split; [|split]]].
  - intros fs tag_images tag_size margin columns w r w' Hrun.
    apply gen_ok_inv, gen_result_ok_inv in Hrun
      as (rows & fcols & _ & _ & _ & ->). eauto.
  - intros fs tag_images tag_size margin columns w Hc [fcols Hf] Hd.
    rewrite gen_apriltags_svg_run.
    rewrite (gen_result_drawable fs _ tag_size margin _ _ Hc Hf Hd). eauto.
  - intros fs tag_images tag_size margin columns w.
    rewrite gen_apriltags_svg_run. cbn [fst]. apply gen_result_cases.
  - intros fs tag_images tag_size margin columns w. cbv zeta.
    rewrite gen_apriltags_svg_run. cbn [fst]. rewrite gen_result_table.
    pose proof (forallb_drawable tag_images) as Hdraw.
    destruct (Z.eqb_spec columns 0) as [Hz|Hz].
    + split; [|split; [|split]].
      * split; [intros [svg H]; discriminate | intros [H _]; contradiction].
      * reflexivity.
      * contradiction.
      * contradiction.
    + destruct (float_of_int columns) as [fcols|e] eqn:Hf.
      * destruct (forallb (fun item => drawableb (snd item)) tag_images).
        -- assert (Hd : Forall (fun item : string * Raster =>
                                  drawable (snd item)) tag_images)
             by now apply Hdraw.
           split; [|split; [|split]].
           ++ split; [intros _ | intros _; eauto].
              split; [exact Hz|]. split; [now exists fcols | exact Hd].
           ++ contradiction.
           ++ intros _ Hn. exfalso. apply Hn. now exists fcols.
           ++ intros _ _ Hn. contradiction.
        -- assert (Hd : ~ Forall (fun item : string * Raster =>
                                    drawable (snd item)) tag_images).
           { intros H. apply Hdraw in H. discriminate. }
           split; [|split; [|split]].
           ++ split; [intros [svg H]; discriminate|].
              intros (_ & _ & H). contradiction.
           ++ contradiction.
           ++ intros _ Hn. exfalso. apply Hn. now exists fcols.
           ++ reflexivity.
      * assert (Hn : ~ in_float_range columns).
        { intros [f Hf']. rewrite Hf in Hf'. discriminate. }
        split; [|split; [|split]].
        -- split; [intros [svg H]; discriminate|].
           intros (_ & H & _). contradiction.
        -- contradiction.
        -- reflexivity.
        -- intros _ H. contradiction.
  - exact main_never_asserts.
Qed.

(** C10 at the sample tag. *)
Lemma C10_emitter_never_returns_none_witness :
  (1 <= 3)%Z
  /\ in_float_range 3
  /\ Forall (fun item : string * Raster => drawable (snd item)) one_tag
  /\ exists svg w',
       gen_apriltags_svg str_float_exact one_tag f37_5 f5 3 empty_world
       = (Ok (Some svg), w').
Proof.
  assert (Hc : (1 <= 3)%Z) by lia.
  assert (Hf : in_float_range 3).
  { exists (to_float 3). reflexivity. }
  assert (Hd : Forall (fun item : string * Raster => drawable (snd item))
                      one_tag).
  { constructor; [|constructor]. split; discriminate. }
  exact (conj Hc (conj Hf (conj Hd
           (proj1 (proj2 C10_emitter_never_returns_none)
              str_float_exact one_tag f37_5 f5 3%Z empty_world Hc Hf Hd)))).
Defined.

(** ** The empty collection *)

Lemma to_float_2 : to_float 2 = S754_finite false 4503599627370496 (-51).
Proof. reflexivity. Qed.

Lemma finite_pitch_margin tag_size margin :
  is_finite (fadd tag_size (fmul (to_float 2) margin)) = true ->
  is_finite margin = true.
Proof.
  rewrite to_float_2.
  destruct margin as [s|s| |s m e]; try reflexivity;
    destruct tag_size as [st|st| |st mt et]; try destruct st; try destruct s;
    cbn; discriminate.
Qed.

Lemma fmul_finite_zero x s :
  is_finite x = true -> is_zero (fmul x (S754_zero s)) = true.
Proof. destruct x; cbn; try discriminate; reflexivity. Qed.

Lemma fadd_zero_l x y :
  is_zero x = true -> is_finite y = true ->
  feq (fadd x y) y = true /\ (is_zero y = false -> fadd x y = y).
Proof.
  destruct x as [sx| | |]; try discriminate. intros _.
  destruct y as [sy| | |sy my ey]; try discriminate; intros _.
  - split; [|discriminate]. destruct sx, sy; reflexivity.
  - cbn [fadd SFadd]. split; [|reflexivity].
    now apply feq_refl_finite.
Qed.

(** C8, as stated, fails on three inputs with an empty collection: a
    negative margin gives a canvas of negative height; an infinite tag size
    gives a height that is not a number, hence not the margin; a column
    count beyond the range of a float gives no document at all. *)
Lemma C8_empty_canvas_counterexample :
  (fst (gen_apriltags_svg str_float_exact [] f37_5 (to_float (-5)) 3
                          empty_world)
   = Ok (Some (xml_decl
               ++ svg_open str_float_exact
                    (canvas_width f37_5 (to_float (-5)) (to_float 3))
                    (canvas_height f37_5 (to_float (-5)) 0)
               ++ "</svg>" ++ nl))
   /\ str_float_exact (canvas_height f37_5 (to_float (-5)) 0) = "-5.0"
   /\ flt (canvas_height f37_5 (to_float (-5)) 0) fzero = true)
  /\ (canvas_height (S754_infinity false) f5 0 = S754_nan
      /\ feq (canvas_height (S754_infinity false) f5 0) f5 = false)
  /\ fst (gen_apriltags_svg str_float_exact [] f37_5 f5 (2 ^ 1024) empty_world)
     = Raise OverflowError.
Proof. repeat split; vm_compute; reflexivity. Qed.

(** C8 (amended): for an empty collection and a column count at least 1
    within the range of a float, the emitter returns the XML declaration,
    the root element and its closing tag, with no tag group in between;
    [rows] is 0, the width is [(tag_size + 2 margin) columns + margin] and
    the height is [(tag_size + 2 margin) 0 + margin], which equals [margin]
    when [tag_size + 2 margin] is finite; the canvas has no negative side
    when moreover [tag_size] and [margin] are not negative. *)
Theorem C8_empty_collection :
  forall float_str tag_size margin columns fcols w,
    (1 <= columns)%Z ->
    float_of_int columns = Ok fcols ->
    let cell := fadd tag_size (fmul (to_float 2) margin) in
    let svg_width := fadd (fmul cell fcols) margin in
    let svg_height := fadd (fmul cell (to_float 0)) margin in
    canvas_rows (Z.of_nat (List.length (@nil (string * Raster)))) columns = 0%Z
    /\ fst (gen_apriltags_svg float_str [] tag_size margin columns w)
       = Ok (Some (xml_decl ++ svg_open float_str svg_width svg_height
                            ++ "</svg>" ++ nl))
    /\ (is_finite cell = true ->
        feq svg_height margin = true
        /\ (is_zero margin = false -> svg_height = margin))
    /\ (fle fzero tag_size = true -> fle fzero margin = true ->
        is_finite cell = true ->
        fle fzero svg_width = true /\ fle fzero svg_height = true).
Proof.
  intros fs tag_size margin columns fcols w Hc Hf cell svg_width svg_height.
  assert (Hrows : canvas_rows 0 columns = 0%Z).
  { unfold canvas_rows. apply Z.div_small. lia. }
  split; [exact Hrows|]. split; [|split].
  - rewrite gen_apriltags_svg_run. cbn [fst].
    rewrite (gen_result_drawable fs [] tag_size margin _ _ Hc Hf)
      by constructor.
    cbn [List.length Z.of_nat]. rewrite Hrows. reflexivity.
  - intros Hfin. apply fadd_zero_l.
    + now apply fmul_finite_zero.
    + exact (finite_pitch_margin _ _ Hfin).
  - intros Ht Hm Hfin. apply fle_zero_nonneg in Ht, Hm.
    assert (Hcell : nonneg cell).
    { apply fadd_nonneg; [exact Ht|]. rewrite to_float_2.
      now apply fmul_nonneg_pos_l. }
    destruct (float_of_int_pos _ _ Hc Hf) as (mc & ec & ->).
    split; apply fle_zero_nonneg; apply fadd_nonneg; try exact Hm;
      apply fmul_nonneg_finite; try exact Hcell; try exact Hfin;
      try reflexivity; exact I.
Qed.

(** C8 at the default sizes and three columns. *)
Lemma C8_empty_collection_witness :
  (1 <= 3)%Z
  /\ float_of_int 3 = Ok (to_float 3)
  /\ fst (gen_apriltags_svg str_float_exact [] f37_5 f5 3 empty_world)
     = Ok (Some (xml_decl
                 ++ svg_open str_float_exact
                      (fadd (fmul (fadd f37_5 (fmul (to_float 2) f5))
                                  (to_float 3)) f5)
                      (fadd (fmul (fadd f37_5 (fmul (to_float 2) f5))
                                  (to_float 0)) f5)
                 ++ "</svg>" ++ nl)).
Proof.
  assert (Hc : (1 <= 3)%Z) by lia.
  assert (Hf : float_of_int 3 = Ok (to_float 3)) by reflexivity.
  exact (conj Hc (conj Hf
           (proj1 (proj2 (C8_empty_collection str_float_exact f37_5 f5 3%Z
                            (to_float 3) empty_world Hc Hf))))).
Defined.

(** ** Tag lookup *)

(** A file name that matches and does not exist is skipped as well. *)
Example load_tag_broken_link :
  load_tag ["tag36h11/tag36_11_00001.png"] 1 [] empty_world
  = (Ok [],
     add_lines empty_world
       ["Error: Could not find tag file: tag36h11/tag36_11_00001.png"]).
Proof. reflexivity. Qed.

Example tag_name_examples :
  tag_name_of "tag36h11/tag36_11_00001.png" = "tag36_11_00001"
  /\ tag_suffix 1 = "_00001.png"
  /\ tag_files ["a/t_00001.png"; "a/t_100001.png"; "a/t_00010.png"] 1
     = ["a/t_00001.png"].
Proof. repeat split; reflexivity. Qed.

Lemma dict_set_new {V} (d : dict V) k v :
  ~ In k (keys d) -> dict_set d k v = (d ++ [(k, v)])%list.
Proof.
  induction d as [|[k' v'] d IH]; simpl; intros Hk; [reflexivity|].
  destruct (String.eqb_spec k' k) as [->|_]; [tauto|].
  rewrite IH by tauto. reflexivity.
Qed.

Lemma dict_set_length {V} (d : dict V) k v :
  (List.length (dict_set d k v) <= S (List.length d))%nat.
Proof.
  induction d as [|[k' v'] d IH]; simpl; [lia|].
  destruct (String.eqb k' k); simpl; lia.
Qed.

Lemma fold_dict_set_length {V} (items : list (string * V)) :
  forall d,
    (List.length (fold_left (fun d item => dict_set d (fst item) (snd item))
                            items d)
     <= List.length d + List.length items)%nat.
Proof.
  induction items as [|[k v] items IH]; intros d; simpl; [lia|].
  specialize (IH (dict_set d k v)). pose proof (dict_set_length d k v). lia.
Qed.

Lemma fold_dict_set_distinct {V} (items : list (string * V)) :
  forall d,
    NoDup (keys d ++ keys items)%list ->
    fold_left (fun d item => dict_set d (fst item) (snd item)) items d
    = (d ++ items)%list.
Proof.
  induction items as [|[k v] items IH]; intros d Hnd; simpl.
  - now rewrite app_nil_r.
  - cbn [keys map fst] in Hnd.
    assert (Hk : ~ In k (keys d)).
    { apply NoDup_remove_2 in Hnd. intros Hin. apply Hnd.
      apply in_or_app. now left. }
    rewrite (dict_set_new d k v Hk). rewrite IH.
    + now rewrite <- app_assoc.
    + unfold keys in *. rewrite map_app, <- app_assoc. exact Hnd.
Qed.

Section LookupRuns.

Variable tag_all : list string.

Lemma load_tag_run tag_id tag_images w :
  (forall tag_file,
      found_file (exists_ w) tag_all tag_id = Some tag_file ->
      decode w tag_file <> None) ->
  load_tag tag_all tag_id tag_images w
  = (Ok (fold_left (fun d item => dict_set d (fst item) (snd item))
                   (found_item (exists_ w) (decode w) tag_all tag_id)
                   tag_images),
     add_lines w (skip_lines (exists_ w) tag_all tag_id)).
Proof.
  unfold load_tag, found_file, found_item, skip_lines, found_file.
  destruct (tag_files tag_all tag_id) as [|tag_file files]; intros Hdec.
  - reflexivity.
  - unfold bind, path_exists, load_image, print, ret.
    destruct (exists_ w tag_file) eqn:He; cbn [negb].
    + specialize (Hdec tag_file eq_refl).
      destruct (decode w tag_file); [|contradiction].
      now rewrite add_lines_nil.
    + reflexivity.
Qed.

Lemma load_tags_run tag_ids :
  forall tag_images w,
    (forall tag_id tag_file,
        In tag_id tag_ids ->
        found_file (exists_ w) tag_all tag_id = Some tag_file ->
        decode w tag_file <> None) ->
    for_each tag_ids (load_tag tag_all) tag_images w
    = (Ok (loaded (exists_ w) (decode w) tag_all tag_ids tag_images),
       add_lines w (flat_map (skip_lines (exists_ w) tag_all) tag_ids)).
Proof.
  induction tag_ids as [|tag_id tag_ids IH]; intros tag_images w Hdec.
  - simpl. unfold ret. now rewrite add_lines_nil.
  - cbn [for_each]. unfold bind at 1.
    rewrite load_tag_run by (intros f; apply Hdec; now left).
    rewrite IH by (intros id f Hin; apply Hdec; now right).
    cbn [flat_map]. rewrite add_lines_app.
    unfold loaded, found_items. cbn [flat_map exists_ decode add_lines].
    now rewrite fold_left_app.
Qed.

Lemma found_items_count present decoded tag_ids :
  (forall tag_id tag_file,
      In tag_id tag_ids ->
      found_file present tag_all tag_id = Some tag_file ->
      decoded tag_file <> None) ->
  (List.length (found_items present decoded tag_all tag_ids)
   + List.length (filter (skipped present tag_all) tag_ids)
   = List.length tag_ids)%nat.
Proof.
  induction tag_ids as [|tag_id tag_ids IH]; intros Hdec; [reflexivity|].
  unfold found_items in *. cbn [flat_map filter]. rewrite length_app.
  specialize (IH (fun id f Hin => Hdec id f (or_intror Hin))).
  set (n1 := List.length (flat_map (found_item present decoded tag_all) tag_ids)) in *.
  set (n2 := List.length (filter (skipped present tag_all) tag_ids)) in *.
  unfold found_item at 1. unfold skipped at 1.
  destruct (found_file present tag_all tag_id) as [tag_file|] eqn:Hf.
  - specialize (Hdec tag_id tag_file (or_introl eq_refl) Hf).
    destruct (decoded tag_file); [|contradiction]. simpl. lia.
  - simpl. lia.
Qed.

Lemma missing_skipped present tag_id :
  missing tag_all tag_id = true ->
  skipped present tag_all tag_id = true
  /\ skip_lines present tag_all tag_id
     = ["Error: Could not find tag file for tag_id: " ++ str_int tag_id].
Proof.
  unfold missing, skipped, found_file, skip_lines.
  destruct (tag_files tag_all tag_id); [split; reflexivity | discriminate].
Qed.

End LookupRuns.

(** The end of [main] for a collection that the emitter accepts: the
    document is written to the output file. *)
Lemma emit_and_write_run float_str args tag_images w :
  (1 <= cols args)%Z ->
  in_float_range (cols args) ->
  Forall (fun item => drawable (snd item)) tag_images ->
  writable w (out_file args) = true ->
  exists svg w',
    gen_result float_str tag_images (tag_size args) (margin args) (cols args)
    = Ok (Some svg)
    /\ emit_and_write float_str args tag_images w = (Ok tt, w')
    /\ written w' = (out_file args, svg) :: written w.
Proof.
  intros Hc [fcols Hf] Hd Hw.
  unfold emit_and_write, bind at 1. rewrite gen_apriltags_svg_run.
  rewrite (gen_result_drawable float_str _ _ _ _ _ Hc Hf Hd).
  unfold bind, write_file. cbn [writable add_lines]. rewrite Hw.
  eexists _, _. split; [reflexivity|]. split; reflexivity.
Qed.

(** C5, as stated, fails where two found tags have the same display name:
    the ids "1,1" are two requested ids, none is missing, and the
    collection has one tag. *)
Lemma C5_duplicate_id_counterexample :
  resolve_tag_ids "1,1" = Ok [1; 1]%Z
  /\ filter (missing ["tag36h11/tag36_11_00001.png"]) [1; 1]%Z = []
  /\ for_each [1; 1]%Z (load_tag ["tag36h11/tag36_11_00001.png"]) [] disk_world
     = (Ok [("tag36_11_00001", checker)], disk_world).
Proof. repeat split; vm_compute; reflexivity. Qed.

(** C5 (amended): an id for which no file name ends with its five-digit
    suffix (or whose file does not exist) is skipped with one printed line:
    the loop body leaves the collection as it is and raises nothing; when
    every found file decodes, the loop ends with
    a collection of at most (requested ids - skipped ids) tags, and of
    exactly that many -- the found tags, in the order of the ids -- when
    their display names are pairwise distinct; [main] then runs the emitter
    on this collection and, where the emitter accepts it and the output
    file can be written, writes its document. *)
Theorem C5_missing_tags_are_skipped :
  (forall tag_all tag_id tag_images w,
      missing tag_all tag_id = true ->
      load_tag tag_all tag_id tag_images w
      = (Ok tag_images,
         add_lines w ["Error: Could not find tag file for tag_id: "
                      ++ str_int tag_id]))
  /\
  forall float_str args w tag_ids,
    resolve_tag_ids (tag_id args) = Ok tag_ids ->
    let tag_all := listing w (family_name (tag_family args) ++ "/*_*.png") in
    (forall tag_id tag_file,
        In tag_id tag_ids ->
        found_file (exists_ w) tag_all tag_id = Some tag_file ->
        decode w tag_file <> None) ->
    let warnings := flat_map (skip_lines (exists_ w) tag_all) tag_ids in
    let skips := List.length (filter (skipped (exists_ w) tag_all) tag_ids) in
    exists tag_images,
      for_each tag_ids (load_tag tag_all) [] w
      = (Ok tag_images, add_lines w warnings)
      /\ (forall tag_id,
            missing tag_all tag_id = true ->
            skipped (exists_ w) tag_all tag_id = true
            /\ skip_lines (exists_ w) tag_all tag_id
               = ["Error: Could not find tag file for tag_id: "
                  ++ str_int tag_id])
      /\ (List.length tag_images <= List.length tag_ids - skips)%nat
      /\ (NoDup (keys (found_items (exists_ w) (decode w) tag_all tag_ids)) ->
          tag_images = found_items (exists_ w) (decode w) tag_all tag_ids
          /\ List.length tag_images = (List.length tag_ids - skips)%nat)
      /\ main float_str args w
         = emit_and_write float_str args tag_images (add_lines w warnings)
      /\ ((1 <= cols args)%Z ->
          in_float_range (cols args) ->
          Forall (fun item => drawable (snd item)) tag_images ->
          writable w (out_file args) = true ->
          exists svg w',
            gen_result float_str tag_images (tag_size args) (margin args)
                       (cols args) = Ok (Some svg)
            /\ main float_str args w = (Ok tt, w')
            /\ written w' = (out_file args, svg) :: written w).
Proof.
  split.
  { intros tag_all tag_id tag_images w. unfold missing, load_tag.
    destruct (tag_files tag_all tag_id); [reflexivity | discriminate]. }
  intros fs args w tag_ids Hres tag_all Hdec warnings skips.
  pose proof (load_tags_run tag_all tag_ids [] w Hdec) as Hrun.
  pose proof (found_items_count tag_all (exists_ w) (decode w) tag_ids Hdec)
    as Hcount.
  fold skips in Hcount.
  exists (loaded (exists_ w) (decode w) tag_all tag_ids []).
  assert (Hmain :
    main fs args w
    = emit_and_write fs args (loaded (exists_ w) (decode w) tag_all tag_ids [])
                     (add_lines w warnings)).
  { unfold main, bind at 1, glob. unfold bind at 1, lift. rewrite Hres.
    unfold bind at 1. fold tag_all. rewrite Hrun. reflexivity. }
  split; [exact Hrun|]. split; [|split; [|split; [|split]]].
  - intros tag_id. apply missing_skipped.
  - unfold loaded.
    pose proof (fold_dict_set_length
                  (found_items (exists_ w) (decode w) tag_all tag_ids) [])
      as Hle.
    cbn [List.length] in Hle. lia.
  - intros Hnd. unfold loaded.
    rewrite fold_dict_set_distinct by exact Hnd. cbn [app]. split; [reflexivity|].
    lia.
  - exact Hmain.
  - intros Hc Hf Hd Hw. rewrite Hmain.
    destruct (emit_and_write_run fs args _ (add_lines w warnings) Hc Hf Hd Hw)
      as (svg & w' & Hgen & Hend & Hwritten).
    exists svg, w'. split; [exact Hgen|]. split; [exact Hend | exact Hwritten].
Qed.

(** C5 at the ids "1,7" on a disk that has tag 1 only. *)
Lemma C5_missing_tags_witness :
  resolve_tag_ids (tag_id some_args) = Ok [1; 7]%Z
  /\ (forall tag_id tag_file,
         In tag_id [1; 7]%Z ->
         found_file (exists_ disk_world)
                    (listing disk_world
                       (family_name (tag_family some_args) ++ "/*_*.png"))
                    tag_id = Some tag_file ->
         decode disk_world tag_file <> None)
  /\ exists tag_images,
       for_each [1; 7]%Z
         (load_tag (listing disk_world
                      (family_name (tag_family some_args) ++ "/*_*.png")))
         [] disk_world
       = (Ok tag_images,
          add_lines disk_world
            ["Error: Could not find tag file for tag_id: 7"])
       /\ List.length tag_images = 1%nat.
Proof.
  assert (H1 : resolve_tag_ids (tag_id some_args) = Ok [1; 7]%Z)
    by reflexivity.
  assert (H2 : forall tag_id tag_file,
             In tag_id [1; 7]%Z ->
             found_file (exists_ disk_world)
                        (listing disk_world
                           (family_name (tag_family some_args) ++ "/*_*.png"))
                        tag_id = Some tag_file ->
             decode disk_world tag_file <> None).
  { intros tag_id tag_file _ _. cbn. discriminate. }
  split; [exact H1|]. split; [exact H2|].
  destruct (proj2 C5_missing_tags_are_skipped str_float_exact some_args
              disk_world [1; 7]%Z H1 H2)
    as (tag_images & Hrun & _ & _ & Hdistinct & _).
  exists tag_images. split; [exact Hrun|].
  apply Hdistinct. vm_compute. repeat constructor. intros [].
Defined.


(* ================================================================= *)
(** * Further properties *)

(** ** Printing and parsing integers *)

Lemma int_digits_uint d :
  forall acc,
    int_digits acc (NilEmpty.string_of_uint d) = Some (uint_value acc d).
Proof.
  induction d; intros acc; cbn [NilEmpty.string_of_uint uint_value];
    try reflexivity; cbn; apply IHd.
Qed.

Lemma of_uint_acc_value d :
  forall acc, Z.pos (Pos.of_uint_acc d acc) = uint_value (Z.pos acc) d.
Proof.
  induction d; intros acc; cbn [Pos.of_uint_acc uint_value];
    try reflexivity; rewrite IHd; f_equal; lia.
Qed.

Lemma of_uint_value d : Z.of_N (Pos.of_uint d) = uint_value 0 d.
Proof.
  induction d; cbn [Pos.of_uint uint_value]; try reflexivity;
    try exact IHd; cbn [Z.of_N]; rewrite of_uint_acc_value; reflexivity.
Qed.

Lemma all_digits_uint d : all_digits (NilEmpty.string_of_uint d) = true.
Proof. induction d; cbn; auto. Qed.

Lemma starts_with_digit_uint d :
  d <> Decimal.Nil -> starts_with_digit (NilEmpty.string_of_uint d) = true.
Proof. destruct d; intros H; try reflexivity. contradiction. Qed.

Lemma is_digit_cases c :
  is_digit c = true ->
  is_space c = false /\ Ascii.eqb c "+" = false /\ Ascii.eqb c "-" = false
  /\ Ascii.eqb c "_" = false.
Proof.
  destruct c as [[|] [|] [|] [|] [|] [|] [|] [|]]; cbn; intros H;
    try discriminate; repeat split; reflexivity.
Qed.

Lemma int_opt_starts_with_digit s :
  starts_with_digit s = true -> int_opt s = int_unsigned s.
Proof.
  destruct s as [|c s]; [discriminate|]. cbn [starts_with_digit]. intros Hc.
  destruct (is_digit_cases c Hc) as (Hs & Hp & Hm & _).
  unfold int_opt. cbn [skip_spaces]. rewrite Hs.
  destruct c as [[|] [|] [|] [|] [|] [|] [|] [|]];
    cbn in Hp, Hm; try discriminate; reflexivity.
Qed.

Lemma int_unsigned_uint d :
  d <> Decimal.Nil ->
  int_unsigned (NilEmpty.string_of_uint d) = Some (uint_value 0 d).
Proof.
  destruct d; intros H; try contradiction;
    cbn; apply int_digits_uint.
Qed.

Lemma str_int_nonneg z :
  (0 <= z)%Z ->
  exists d, d <> Decimal.Nil
            /\ str_int z = NilEmpty.string_of_uint d
            /\ uint_value 0 d = z.
Proof.
  intros Hz. destruct z as [|p|p]; try lia.
  - exists (Decimal.D0 Decimal.Nil). repeat split. discriminate.
  - exists (Pos.to_uint p).
    pose proof (DecimalPos.Unsigned.to_uint_nonnil p) as Hnn.
    split; [exact Hnn|]. split.
    + unfold str_int. cbn [Z.to_int NilZero.string_of_int].
      unfold NilZero.string_of_uint. now destruct (Pos.to_uint p).
    + rewrite <- of_uint_value, DecimalPos.Unsigned.of_to. reflexivity.
Qed.

Lemma str_int_neg z :
  (z < 0)%Z -> str_int z = String "-" (str_int (- z)).
Proof.
  intros Hz. destruct z as [|p|p]; try lia.
  unfold str_int. cbn [Z.to_int Z.opp NilZero.string_of_int]. reflexivity.
Qed.

Lemma int_str_int_nonneg z : (0 <= z)%Z -> int_unsigned (str_int z) = Some z.
Proof.
  intros Hz. destruct (str_int_nonneg z Hz) as (d & Hd & -> & Hv).
  now rewrite int_unsigned_uint, Hv.
Qed.

(** Reading what [str] prints gives the integer back. *)
Lemma int_str_int z : int_opt (str_int z) = Some z.
Proof.
  destruct (Z.lt_ge_cases z 0) as [Hneg|Hpos].
  - rewrite (str_int_neg z Hneg). unfold int_opt. cbn [skip_spaces is_space].
    cbn. rewrite int_str_int_nonneg by lia. cbn. f_equal. lia.
  - destruct (str_int_nonneg z Hpos) as (d & Hd & Hs & Hv).
    rewrite int_opt_starts_with_digit
      by (rewrite Hs; now apply starts_with_digit_uint).
    now rewrite int_str_int_nonneg.
Qed.

Lemma int_opt_minus s :
  int_opt (String "-" s) = option_map Z.opp (int_unsigned s).
Proof. reflexivity. Qed.

Lemma int_unsigned_zero s :
  starts_with_digit s = true -> int_unsigned (String "0" s) = int_unsigned s.
Proof.
  destruct s as [|c s]; [discriminate|]. cbn [starts_with_digit]. unfold is_digit.
  intros H. cbn. destruct (digit_of c); [reflexivity | discriminate].
Qed.

Lemma zfill_digits k :
  forall s,
    starts_with_digit s = true ->
    starts_with_digit (zfill k s) = true
    /\ int_unsigned (zfill k s) = int_unsigned s
    /\ all_digits (zfill k s) = all_digits s.
Proof.
  induction k as [|k IH]; intros s Hs; cbn [zfill]; [repeat split; exact Hs|].
  destruct (IH (String "0" s) eq_refl) as (H1 & H2 & H3).
  repeat split; [exact H1 | now rewrite H2, int_unsigned_zero | exact H3].
Qed.

Lemma str_int_digits z :
  (0 <= z)%Z ->
  starts_with_digit (str_int z) = true /\ all_digits (str_int z) = true.
Proof.
  intros Hz. destruct (str_int_nonneg z Hz) as (d & Hd & -> & _).
  split; [now apply starts_with_digit_uint | apply all_digits_uint].
Qed.

(** The zero-padded id of a file name reads back as the id. *)
Lemma int_format_05d z : int_opt (format_05d z) = Some z.
Proof.
  unfold format_05d. destruct (Z.ltb_spec z 0) as [Hneg|Hpos].
  - destruct (str_int_digits (- z) ltac:(lia)) as [Hs _].
    destruct (zfill_digits (4 - String.length (str_int (- z))) _ Hs)
      as (_ & Hv & _).
    rewrite int_opt_minus, Hv, int_str_int_nonneg by lia.
    cbn [option_map]. f_equal. lia.
  - destruct (str_int_digits z Hpos) as [Hs _].
    destruct (zfill_digits (5 - String.length (str_int z)) _ Hs)
      as (Hd & Hv & _).
    rewrite int_opt_starts_with_digit by exact Hd.
    now rewrite Hv, int_str_int_nonneg.
Qed.

Lemma all_digits_count c s :
  is_digit c = false -> all_digits s = true -> count c s = O.
Proof.
  intros Hc. induction s as [|a s IH]; cbn; [reflexivity|].
  intros H. apply andb_prop in H as [Ha Hs].
  destruct (Ascii.eqb_spec a c) as [->|_]; [congruence | now apply IH].
Qed.

Lemma format_05d_count c z :
  is_digit c = false -> c <> "-"%char -> count c (format_05d z) = O.
Proof.
  intros Hc Hm. unfold format_05d. destruct (Z.ltb_spec z 0) as [Hneg|Hpos].
  - destruct (str_int_digits (- z) ltac:(lia)) as [Hs Ha].
    destruct (zfill_digits (4 - String.length (str_int (- z))) _ Hs)
      as (_ & _ & Hall).
    cbn [count]. destruct (Ascii.eqb_spec "-" c) as [<-|_]; [congruence|].
    apply all_digits_count; [exact Hc | now rewrite Hall].
  - destruct (str_int_digits z Hpos) as [Hs Ha].
    destruct (zfill_digits (5 - String.length (str_int z)) _ Hs)
      as (_ & _ & Hall).
    apply all_digits_count; [exact Hc | now rewrite Hall].
Qed.

(** ** Suffixes and pieces *)

Lemma length_append (a b : string) :
  String.length (a ++ b) = (String.length a + String.length b)%nat.
Proof. induction a as [|c a IH]; cbn; [reflexivity | now rewrite IH]. Qed.

Lemma count_append c (a b : string) :
  count c (a ++ b) = (count c a + count c b)%nat.
Proof.
  induction a as [|x a IH]; cbn; [reflexivity|].
  destruct (Ascii.eqb x c); cbn; now rewrite IH.
Qed.

Lemma append_inv_tail (p q s : string) : p ++ s = q ++ s -> p = q.
Proof.
  revert q. induction p as [|a p IH]; intros [|b q] H; cbn in H.
  - reflexivity.
  - apply (f_equal String.length) in H. cbn in H. rewrite length_append in H. lia.
  - apply (f_equal String.length) in H. cbn in H. rewrite length_append in H. lia.
  - injection H as -> H. now rewrite (IH q H).
Qed.

(** A text ends in only one way with a separator and a piece without it. *)
Lemma append_last_piece c (s1 s2 d1 d2 : string) :
  count c d1 = O -> count c d2 = O ->
  s1 ++ String c d1 = s2 ++ String c d2 -> s1 = s2 /\ d1 = d2.
Proof.
  intros H1 H2. revert s2.
  induction s1 as [|a s1 IH]; intros [|b s2] H; cbn in H.
  - injection H as ->. now split.
  - injection H as <- H. rewrite H, count_append in H1. cbn in H1.
    rewrite Ascii.eqb_refl in H1. lia.
  - injection H as -> H. rewrite <- H, count_append in H2. cbn in H2.
    rewrite Ascii.eqb_refl in H2. lia.
  - injection H as -> H. destruct (IH s2 H) as [-> ->]. now split.
Qed.

Lemma substring_all s : substring 0 (String.length s) s = s.
Proof. induction s as [|c s IH]; cbn; [reflexivity | now rewrite IH]. Qed.

Lemma substring_skip (p s : string) m :
  substring (String.length p) m (p ++ s) = substring 0 m s.
Proof. induction p as [|c p IH]; cbn; [reflexivity | exact IH]. Qed.

Lemma substring_split s :
  forall i,
    (i <= String.length s)%nat ->
    s = substring 0 i s ++ substring i (String.length s - i) s.
Proof.
  induction s as [|c s IH]; intros [|i] Hi; cbn in *; try reflexivity; try lia.
  - now rewrite substring_all.
  - now rewrite <- IH by lia.
Qed.

(** [s.endswith(suffix)] holds exactly when [s] is a text followed by
    [suffix]. *)
Lemma endswith_iff s suffix :
  endswith s suffix = true <-> exists p, s = p ++ suffix.
Proof.
  unfold endswith. split.
  - destruct (Nat.leb_spec (String.length suffix) (String.length s))
      as [Hle|_]; [|discriminate].
    intros H. apply String.eqb_eq in H.
    remember (String.length suffix) as k eqn:Hk.
    exists (substring 0 (String.length s - k) s). rewrite <- H.
    pose proof (substring_split s (String.length s - k) ltac:(lia)) as Hsp.
    replace (String.length s - (String.length s - k))%nat with k in Hsp by lia.
    exact Hsp.
  - intros [p ->]. rewrite length_append.
    destruct (Nat.leb_spec (String.length suffix)
                (String.length p + String.length suffix)) as [_|Hgt]; [|lia].
    replace (String.length p + String.length suffix - String.length suffix)%nat
      with (String.length p) by lia.
    rewrite substring_skip, substring_all. apply String.eqb_refl.
Qed.

Lemma tag_suffix_inj a b : tag_suffix a = tag_suffix b -> a = b.
Proof.
  unfold tag_suffix. cbn [append]. intros H. injection H as H.
  apply append_inv_tail in H.
  pose proof (int_format_05d a) as Ha. rewrite H, int_format_05d in Ha.
  now injection Ha.
Qed.

(** *** The digit limit *)

Lemma digit_of_range c d : digit_of c = Some d -> (0 <= d <= 9)%Z.
Proof.
  unfold digit_of.
  destruct ((48 <=? N_of_ascii c) && (N_of_ascii c <=? 57))%N eqn:H;
    [|discriminate].
  apply andb_prop in H as [H1 H2].
  apply N.leb_le in H1, H2. intros E. injection E as <-. lia.
Qed.

(** The value read is below the power of ten of the number of digits. *)
Lemma int_digits_bound n :
  forall s acc z k,
    (String.length s <= n)%nat ->
    (0 <= k)%Z -> (0 <= acc < 10 ^ k)%Z ->
    int_digits acc s = Some z ->
    (0 <= z < 10 ^ (k + Z.of_N (count_digits s)))%Z.
Proof.
  assert (Hstep : forall acc d k,
             (0 <= k)%Z -> (0 <= acc < 10 ^ k)%Z -> (0 <= d <= 9)%Z ->
             (0 <= 10 * acc + d < 10 ^ (k + 1))%Z).
  { intros acc d k Hk Hacc Hd. rewrite Z.pow_add_r, Z.pow_1_r by lia. lia. }
  assert (Hmono : forall acc k m,
             (0 <= k)%Z -> (0 <= acc < 10 ^ k)%Z ->
             (0 <= acc < 10 ^ (k + Z.of_N m))%Z).
  { intros acc k m Hk Hacc. split; [lia|].
    apply Z.lt_le_trans with (10 ^ k)%Z; [lia|].
    apply Z.pow_le_mono_r; lia. }
  induction n as [|n IH]; intros s acc z k Hlen Hk Hacc H.
  - destruct s as [|c s]; [|cbn in Hlen; lia].
    cbn in H. injection H as <-. now apply Hmono.
  - destruct s as [|c s].
    { cbn in H. injection H as <-. now apply Hmono. }
    cbn [String.length] in Hlen. cbn [int_digits count_digits] in H |- *.
    destruct (digit_of c) as [d|] eqn:Hd.
    + apply digit_of_range in Hd.
      apply (IH s _ z (k + 1)%Z) in H;
        [| lia | lia | now apply Hstep].
      rewrite N2Z.inj_succ.
      replace (k + Z.succ (Z.of_N (count_digits s)))%Z
        with (k + 1 + Z.of_N (count_digits s))%Z by lia.
      exact H.
    + destruct (Ascii.eqb c "_").
      * destruct s as [|c' s']; [discriminate|].
        cbn [count_digits].
        destruct (digit_of c') as [d|] eqn:Hd'; [|discriminate].
        apply digit_of_range in Hd'. cbn [String.length] in Hlen.
        apply (IH s' _ z (k + 1)%Z) in H;
          [| lia | lia | now apply Hstep].
        rewrite N2Z.inj_succ.
        replace (k + Z.succ (Z.of_N (count_digits s')))%Z
          with (k + 1 + Z.of_N (count_digits s'))%Z by lia.
        exact H.
      * destruct (is_space c); [|discriminate].
        destruct (all_spaces s); [|discriminate].
        injection H as <-. now apply Hmono.
Qed.

Lemma int_unsigned_bound s z :
  int_unsigned s = Some z -> (0 <= z < 10 ^ Z.of_N (count_digits s))%Z.
Proof.
  destruct s as [|c s]; [discriminate|]. cbn [int_unsigned count_digits].
  destruct (digit_of c) as [d|] eqn:Hd; [|discriminate].
  apply digit_of_range in Hd. intros H.
  apply (int_digits_bound (String.length s) s d z 1%Z) in H;
    [| lia | lia | rewrite Z.pow_1_r; lia].
  rewrite N2Z.inj_succ.
  replace (Z.succ (Z.of_N (count_digits s)))
    with (1 + Z.of_N (count_digits s))%Z by lia.
  exact H.
Qed.

Lemma int_opt_cases s :
  int_opt s =
  match skip_spaces s with
  | EmptyString => None
  | String c t =>
      if Ascii.eqb c "+" then int_unsigned t
      else if Ascii.eqb c "-" then option_map Z.opp (int_unsigned t)
      else int_unsigned (String c t)
  end.
Proof.
  unfold int_opt. destruct (skip_spaces s) as [|c t]; [reflexivity|].
  destruct c as [[] [] [] [] [] [] [] []]; reflexivity.
Qed.

Lemma count_digits_skip_spaces s :
  (count_digits (skip_spaces s) <= count_digits s)%N.
Proof.
  induction s as [|c s IH]; cbn [skip_spaces count_digits]; [lia|].
  destruct (is_space c); [|cbn [count_digits]; lia].
  destruct (digit_of c); lia.
Qed.

Lemma int_opt_bound s z :
  int_opt s = Some z -> (Z.abs z < 10 ^ Z.of_N (count_digits s))%Z.
Proof.
  rewrite int_opt_cases. pose proof (count_digits_skip_spaces s) as Hle.
  assert (Hmono : forall m : N,
             (m <= count_digits (skip_spaces s))%N ->
             (10 ^ Z.of_N m <= 10 ^ Z.of_N (count_digits s))%Z).
  { intros m Hm. apply Z.pow_le_mono_r; lia. }
  destruct (skip_spaces s) as [|c t]; [discriminate|].
  cbn [count_digits] in Hmono.
  assert (Ht : (count_digits t <= match digit_of c with
                                  | Some _ => N.succ (count_digits t)
                                  | None => count_digits t
                                  end)%N)
    by (destruct (digit_of c); lia).
  destruct (Ascii.eqb c "+").
  - intros H. apply int_unsigned_bound in H.
    specialize (Hmono _ Ht). lia.
  - destruct (Ascii.eqb c "-").
    + destruct (int_unsigned t) as [u|] eqn:Hu; [|discriminate].
      intros H. injection H as <-. apply int_unsigned_bound in Hu.
      specialize (Hmono _ Ht). lia.
    + intros H. apply int_unsigned_bound in H. cbn [count_digits] in H.
      specialize (Hmono _ (N.le_refl _)). lia.
Qed.

(** A text with more digits than the limit is not converted. *)
Lemma int_over_limit s :
  (max_str_digits < count_digits s)%N -> int s = Raise ValueError.
Proof.
  intros H. unfold int. apply N.ltb_lt in H. now rewrite H.
Qed.

(** An integer that [int] returns has at most [max_str_digits] digits. *)
Lemma int_bound s z :
  int s = Ok z -> (Z.abs z < 10 ^ Z.of_N max_str_digits)%Z.
Proof.
  unfold int.
  destruct (N.ltb_spec max_str_digits (count_digits s)) as [|Hle];
    [discriminate|].
  destruct (int_opt s) as [u|] eqn:Hu; [|discriminate].
  intros H. injection H as <-. apply int_opt_bound in Hu.
  apply Z.lt_le_trans with (10 ^ Z.of_N (count_digits s))%Z; [exact Hu|].
  apply Z.pow_le_mono_r; lia.
Qed.

Lemma endswith_tag_suffix_inj file a b :
  endswith file (tag_suffix a) = true ->
  endswith file (tag_suffix b) = true ->
  a = b.
Proof.
  intros Ha Hb. apply endswith_iff in Ha as [pa Ha], Hb as [pb Hb].
  rewrite Ha in Hb. unfold tag_suffix in Hb. cbn [append] in Hb.
  assert (Hcount : forall z, count "_" (format_05d z ++ ".png") = O).
  { intros z. rewrite count_append, format_05d_count;
      [reflexivity | reflexivity | discriminate]. }
  apply append_last_piece in Hb as [_ Hb]; [|apply Hcount|apply Hcount].
  apply append_inv_tail in Hb.
  pose proof (int_format_05d a) as Hi. rewrite Hb, int_format_05d in Hi.
  now injection Hi.
Qed.

(** X2: a file name ends with the suffix of at most one id, so no file is
    selected for two different ids. *)
Theorem X2_file_matches_one_id :
  forall tag_all file a b,
    In file (tag_files tag_all a) ->
    In file (tag_files tag_all b) ->
    a = b.
Proof.
  intros tag_all file a b Ha Hb. unfold tag_files in *.
  apply filter_In in Ha as [_ Ha], Hb as [_ Hb].
  exact (endswith_tag_suffix_inj file a b Ha Hb).
Qed.

(** X2 at the file of tag 1. *)
Lemma X2_file_matches_one_id_witness :
  In "tag36h11/tag36_11_00001.png"
     (tag_files ["tag36h11/tag36_11_00001.png"] 1)
  /\ (1 = 1)%Z.
Proof.
  assert (H : In "tag36h11/tag36_11_00001.png"
                 (tag_files ["tag36h11/tag36_11_00001.png"] 1)).
  { vm_compute. auto. }
  exact (conj H (X2_file_matches_one_id
                   ["tag36h11/tag36_11_00001.png"]
                   "tag36h11/tag36_11_00001.png" 1%Z 1%Z H H)).
Defined.

Lemma split_nonempty c s : split c s <> [].
Proof.
  intros H. pose proof (split_length c s) as Hl. rewrite H in Hl. discriminate.
Qed.

Lemma join_with_cons c piece pieces :
  pieces <> [] ->
  join_with c (piece :: pieces) = piece ++ String c (join_with c pieces).
Proof. destruct pieces; [contradiction | reflexivity]. Qed.

Lemma join_with_split c s : join_with c (split c s) = s.
Proof.
  induction s as [|a s IH]; cbn [split]; [reflexivity|].
  pose proof (split_nonempty c s) as Hne.
  destruct (Ascii.eqb_spec a c) as [->|Hac].
  - rewrite join_with_cons by exact Hne. now rewrite IH.
  - destruct (split c s) as [|piece pieces]; [contradiction|].
    destruct pieces as [|piece' pieces].
    + cbn in *. now rewrite IH.
    + rewrite join_with_cons by discriminate.
      rewrite join_with_cons in IH by discriminate.
      cbn [append]. now rewrite IH.
Qed.

Lemma split_pieces c s : Forall (fun piece => contains c piece = false) (split c s).
Proof.
  induction s as [|a s IH]; cbn [split].
  - constructor; [reflexivity | constructor].
  - destruct (Ascii.eqb_spec a c) as [->|Hac].
    + constructor; [reflexivity | exact IH].
    + destruct (split c s) as [|piece pieces]; [constructor; [|constructor]|].
      * cbn. apply Ascii.eqb_neq in Hac. now rewrite Hac.
      * inversion IH as [|? ? Hp Hps]; subst. constructor; [|exact Hps].
        cbn. apply Ascii.eqb_neq in Hac. now rewrite Hac.
Qed.

Lemma split_append_sep c piece rest :
  contains c piece = false ->
  split c (piece ++ String c rest) = piece :: split c rest.
Proof.
  induction piece as [|a piece IH]; cbn [append split contains].
  - intros _. now rewrite Ascii.eqb_refl.
  - intros H. apply orb_false_elim in H as [Ha Hp].
    rewrite Ha, (IH Hp). reflexivity.
Qed.

Lemma split_join_with c pieces :
  pieces <> [] ->
  Forall (fun piece => contains c piece = false) pieces ->
  split c (join_with c pieces) = pieces.
Proof.
  induction pieces as [|piece pieces IH]; intros Hne Hall; [contradiction|].
  inversion Hall as [|? ? Hp Hps]; subst.
  destruct pieces as [|piece' pieces].
  - cbn [join_with]. apply split_no_sep.
    rewrite contains_count in Hp.
    destruct (count c piece); [reflexivity | discriminate].
  - rewrite join_with_cons by discriminate.
    rewrite split_append_sep by exact Hp.
    now rewrite IH by (discriminate || exact Hps).
Qed.

(** X3: [split] cuts a text into pieces that do not contain the separator
    and that give the text back when they are joined with it; and it is
    the only such cut: the split of joined separator-free pieces is these
    pieces. *)
Theorem X3_split_round_trip :
  forall c,
    (forall s,
        join_with c (split c s) = s
        /\ Forall (fun piece => contains c piece = false) (split c s)
        /\ List.length (split c s) = S (count c s))
    /\ (forall pieces,
          pieces <> [] ->
          Forall (fun piece => contains c piece = false) pieces ->
          split c (join_with c pieces) = pieces).
Proof.
  intros c. split.
  - intros s. split; [apply join_with_split|].
    split; [apply split_pieces | apply split_length].
  - apply split_join_with.
Qed.

(** ** The resolved ids *)

Lemma range_from_sorted a n :
  forall s,
    StronglySorted Z.lt (map (fun k => (a + Z.of_nat k)%Z) (seq s n)).
Proof.
  induction n as [|n IH]; intros s; cbn [seq map]; constructor.
  - apply IH.
  - apply Forall_forall. intros z Hz.
    apply in_map_iff in Hz as (k & <- & Hk). apply in_seq in Hk. lia.
Qed.

Lemma StronglySorted_lt_NoDup (l : list Z) : StronglySorted Z.lt l -> NoDup l.
Proof.
  induction 1 as [|z l _ IH Hall]; constructor; [|exact IH].
  intros Hin. rewrite Forall_forall in Hall. specialize (Hall z Hin). lia.
Qed.

(** [range(a, b)] holds the integers from [a] to [b - 1], in order. *)
Lemma range_spec a b :
  (forall z, In z (range a b) <-> (a <= z < b)%Z)
  /\ StronglySorted Z.lt (range a b)
  /\ List.length (range a b) = Z.to_nat (b - a).
Proof.
  unfold range. split; [|split].
  - intros z. rewrite in_map_iff. split.
    + intros (k & <- & Hk). apply in_seq in Hk. lia.
    + intros Hz. exists (Z.to_nat (z - a)). split; [lia|].
      apply in_seq. lia.
  - apply range_from_sorted.
  - now rewrite length_map, length_seq.
Qed.

Lemma rmap_ok_Forall2 {A B} (f : A -> result B) xs :
  forall ys, rmap f xs = Ok ys -> Forall2 (fun x y => f x = Ok y) xs ys.
Proof.
  induction xs as [|x xs IH]; intros ys; cbn [rmap].
  - intros H. injection H as <-. constructor.
  - destruct (f x) as [y|e] eqn:Hx; [|discriminate].
    destruct (rmap f xs) as [ys'|e]; [|discriminate].
    intros H. injection H as <-. constructor; [exact Hx | now apply IH].
Qed.

Lemma resolve_range_inv tag_id ids :
  contains "," tag_id = false ->
  contains "-" tag_id = true ->
  resolve_tag_ids tag_id = Ok ids ->
  exists start end_ a b,
    split "-" tag_id = [start; end_]
    /\ int start = Ok a /\ int end_ = Ok b
    /\ ids = range a (b + 1).
Proof.
  intros Hc Hd. unfold resolve_tag_ids. rewrite Hc, Hd.
  destruct (split "-" tag_id) as [|start [|end_ [|? ?]]]; try discriminate.
  destruct (int start) as [a|e] eqn:Ha; cbn [rbind]; [|discriminate].
  destruct (int end_) as [b|e] eqn:Hb; cbn [rbind]; [|discriminate].
  intros H. injection H as <-. exists start, end_, a, b. now repeat split.
Qed.

(** X1: every id that the resolver returns has at most 4300 decimal
    digits, whichever form the specification has (in a range, the ids lie
    between two integers that [int] returned).  The interpreter's limit on
    the conversion between integers and decimal texts therefore acts in
    [int] only, where it is a [ValueError] of the resolver: the ids can all
    be formatted into the file suffix and printed in the error line. *)
Theorem X1_resolved_ids_within_digit_limit :
  forall tag_id ids,
    resolve_tag_ids tag_id = Ok ids ->
    Forall (fun id => (Z.abs id < 10 ^ Z.of_N max_str_digits)%Z) ids.
Proof.
  intros tag_id ids. unfold resolve_tag_ids.
  destruct (contains "," tag_id).
  - intros H. apply rmap_ok_Forall2 in H.
    induction H as [|token id tokens ids' Hid _ IH]; constructor;
      [exact (int_bound _ _ Hid) | exact IH].
  - destruct (contains "-" tag_id).
    + destruct (split "-" tag_id) as [|start [|end_ [|? ?]]]; try discriminate.
      destruct (int start) as [a|e] eqn:Ha; cbn [rbind]; [|discriminate].
      destruct (int end_) as [b|e] eqn:Hb; cbn [rbind]; [|discriminate].
      intros H. injection H as <-.
      apply int_bound in Ha, Hb. apply Forall_forall. intros z Hz.
      apply (proj1 (range_spec a (b + 1))) in Hz. lia.
    + destruct (int tag_id) as [a|e] eqn:Ha; cbn [rbind]; [|discriminate].
      intros H. injection H as <-.
      constructor; [exact (int_bound _ _ Ha) | constructor].
Qed.

Lemma X1_resolved_ids_within_digit_limit_witness :
  Forall (fun id => (Z.abs id < 10 ^ Z.of_N max_str_digits)%Z) [2; 3; 4]%Z.
Proof.
  apply (X1_resolved_ids_within_digit_limit "2-4" [2; 3; 4]%Z).
  reflexivity.
Defined.

(** X4: a dash specification that resolves gives exactly the integers
    from its start to its end, both included, each once and in increasing
    order. *)
Theorem X4_range_ids :
  forall tag_id ids,
    contains "," tag_id = false ->
    contains "-" tag_id = true ->
    resolve_tag_ids tag_id = Ok ids ->
    exists start end_ a b,
      split "-" tag_id = [start; end_]
      /\ int start = Ok a /\ int end_ = Ok b
      /\ (forall z, In z ids <-> (a <= z <= b)%Z)
      /\ StronglySorted Z.lt ids
      /\ NoDup ids
      /\ List.length ids = Z.to_nat (b - a + 1).
Proof.
  intros tag_id ids Hc Hd Hres.
  destruct (resolve_range_inv _ _ Hc Hd Hres)
    as (start & end_ & a & b & Hs & Ha & Hb & ->).
  destruct (range_spec a (b + 1)) as (Hin & Hsorted & Hlen).
  exists start, end_, a, b.
  split; [exact Hs|]. split; [exact Ha|]. split; [exact Hb|].
  split; [intros z; rewrite Hin; lia|].
  split; [exact Hsorted|].
  split; [now apply StronglySorted_lt_NoDup|].
  rewrite Hlen. f_equal. lia.
Qed.

(** X4 at the specification ["2-4"]. *)
Lemma X4_range_ids_witness :
  contains "," "2-4" = false
  /\ contains "-" "2-4" = true
  /\ resolve_tag_ids "2-4" = Ok [2; 3; 4]%Z
  /\ exists start end_ a b,
       split "-" "2-4" = [start; end_]
       /\ int start = Ok a /\ int end_ = Ok b
       /\ (forall z, In z [2; 3; 4]%Z <-> (a <= z <= b)%Z)
       /\ StronglySorted Z.lt [2; 3; 4]%Z
       /\ NoDup [2; 3; 4]%Z
       /\ List.length [2; 3; 4]%Z = Z.to_nat (b - a + 1).
Proof.
  assert (H1 : contains "," "2-4" = false) by reflexivity.
  assert (H2 : contains "-" "2-4" = true) by reflexivity.
  assert (H3 : resolve_tag_ids "2-4" = Ok [2; 3; 4]%Z) by reflexivity.
  exact (conj H1 (conj H2 (conj H3
           (X4_range_ids "2-4" [2; 3; 4]%Z H1 H2 H3)))).
Defined.

(** X5: the resolver returns an empty list only for a dash specification
    whose end is below its start; a comma specification gives one id per
    token, in the order of the tokens and with their repetitions. *)
Theorem X5_resolved_list_shape :
  (forall tag_id,
      resolve_tag_ids tag_id = Ok [] ->
      contains "," tag_id = false
      /\ exists start end_ a b,
           split "-" tag_id = [start; end_]
           /\ int start = Ok a /\ int end_ = Ok b /\ (b < a)%Z)
  /\ (forall tag_id ids,
        contains "," tag_id = true ->
        resolve_tag_ids tag_id = Ok ids ->
        Forall2 (fun token id => int token = Ok id) (split "," tag_id) ids
        /\ List.length ids = S (count "," tag_id)).
Proof.
  split.
  - intros tag_id Hres.
    destruct (contains "," tag_id) eqn:Hc.
    + unfold resolve_tag_ids in Hres. rewrite Hc in Hres.
      apply rmap_ok_Forall2 in Hres. inversion Hres as [Hs|]; subst.
      symmetry in Hs. now apply split_nonempty in Hs.
    + split; [reflexivity|].
      destruct (contains "-" tag_id) eqn:Hd.
      * destruct (resolve_range_inv _ _ Hc Hd Hres)
          as (start & end_ & a & b & Hs & Ha & Hb & Hr).
        exists start, end_, a, b. repeat split; try assumption.
        apply (f_equal (@List.length Z)) in Hr.
        destruct (range_spec a (b + 1)) as (_ & _ & Hlen).
        rewrite Hlen in Hr. cbn in Hr. lia.
      * unfold resolve_tag_ids in Hres. rewrite Hc, Hd in Hres.
        destruct (int tag_id); discriminate.
  - intros tag_id ids Hc Hres. unfold resolve_tag_ids in Hres.
    rewrite Hc in Hres. apply rmap_ok_Forall2 in Hres. split; [exact Hres|].
    rewrite <- (Forall2_length Hres). apply split_length.
Qed.

(** ** The collection of a run *)

Lemma dict_set_In_key {V} (d : dict V) k v x :
  In x (keys (dict_set d k v)) <-> x = k \/ In x (keys d).
Proof.
  induction d as [|[k' v'] d IH]; cbn [dict_set keys map fst In].
  - intuition.
  - destruct (String.eqb_spec k' k) as [->|Hne]; cbn [keys map fst In].
    + intuition.
    + unfold keys in IH. rewrite IH. intuition.
Qed.

Lemma dict_set_NoDup {V} (d : dict V) k v :
  NoDup (keys d) -> NoDup (keys (dict_set d k v)).
Proof.
  induction d as [|[k' v'] d IH]; cbn [dict_set keys map fst].
  - intros _. constructor; [intros [] | constructor].
  - intros H. apply NoDup_cons_iff in H as [Hk' Hd].
    destruct (String.eqb_spec k' k) as [->|Hne]; cbn [keys map fst].
    + constructor; assumption.
    + constructor; [|apply IH, Hd].
      fold (keys (dict_set d k v)). rewrite dict_set_In_key.
      intros [->|Hin]; [now apply Hne | now apply Hk'].
Qed.

Lemma dict_set_In {V} (d : dict V) k v item :
  In item (dict_set d k v) -> item = (k, v) \/ In item d.
Proof.
  induction d as [|[k' v'] d IH]; cbn [dict_set In].
  - intuition.
  - destruct (String.eqb k' k); cbn [In]; intuition.
Qed.

Lemma only_prints_refl w : only_prints w w.
Proof.
  repeat split. exists []. now rewrite app_nil_r.
Qed.

Lemma only_prints_trans w1 w2 w3 :
  only_prints w1 w2 -> only_prints w2 w3 -> only_prints w1 w3.
Proof.
  intros ((Ha & Hb & Hc & Hd & He & Hf) & Hw & l1 & Hl1)
         ((Ha' & Hb' & Hc' & Hd' & He' & Hf') & Hw' & l2 & Hl2).
  repeat split; try congruence.
  exists (l1 ++ l2)%list. rewrite Hl2, Hl1. now rewrite app_assoc.
Qed.

Lemma only_prints_add_lines w lines : only_prints w (add_lines w lines).
Proof. repeat split. now exists lines. Qed.

(** One turn of the loop over the ids: it only prints, it keeps the names
    distinct, and what it adds is the decoded file of the id. *)
Lemma load_tag_step tag_all tag_id tag_images w r w' :
  load_tag tag_all tag_id tag_images w = (r, w') ->
  only_prints w w'
  /\ forall d,
       r = Ok d ->
       (NoDup (keys tag_images) -> NoDup (keys d))
       /\ forall item,
            In item d ->
            In item tag_images
            \/ exists tag_file,
                 found_file (exists_ w) tag_all tag_id = Some tag_file
                 /\ decode w tag_file = Some (snd item)
                 /\ fst item = tag_name_of tag_file.
Proof.
  unfold load_tag, found_file.
  destruct (tag_files tag_all tag_id) as [|tag_file files].
  - unfold bind, print, ret. intros H. injection H as <- <-.
    split; [apply (only_prints_add_lines w)|].
    intros d H. injection H as <-. split; [auto|]. intros item Hin. now left.
  - unfold bind, path_exists, load_image, print, ret.
    destruct (exists_ w tag_file) eqn:He; cbn [negb].
    + destruct (decode w tag_file) as [image|] eqn:Hd;
        intros H; injection H as <- <-;
        (split; [apply only_prints_refl|]); intros d H; [|discriminate].
      injection H as <-. split; [apply dict_set_NoDup|].
      intros item Hin. apply dict_set_In in Hin as [->|Hin]; [right | now left].
      exists tag_file. cbn [fst snd]. auto.
    + intros H. injection H as <- <-.
      split; [apply (only_prints_add_lines w)|].
      intros d H. injection H as <-. split; [auto|]. intros item Hin. now left.
Qed.

Lemma load_tags_steps tag_all tag_ids :
  forall tag_images w r w',
    for_each tag_ids (load_tag tag_all) tag_images w = (r, w') ->
    only_prints w w'
    /\ forall d,
         r = Ok d ->
         (NoDup (keys tag_images) -> NoDup (keys d))
         /\ forall item,
              In item d ->
              In item tag_images
              \/ exists tag_id tag_file,
                   In tag_id tag_ids
                   /\ found_file (exists_ w) tag_all tag_id = Some tag_file
                   /\ decode w tag_file = Some (snd item)
                   /\ fst item = tag_name_of tag_file.
Proof.
  induction tag_ids as [|tag_id tag_ids IH]; intros tag_images w r w'.
  - cbn [for_each]. unfold ret. intros H. injection H as <- <-.
    split; [apply only_prints_refl|].
    intros d H. injection H as <-. split; [auto|]. intros item Hin. now left.
  - cbn [for_each]. unfold bind at 1.
    destruct (load_tag tag_all tag_id tag_images w) as [[d1|e1] w1] eqn:H1.
    + destruct (load_tag_step _ _ _ _ _ _ H1) as [Hp1 Hd1].
      destruct (Hd1 d1 eq_refl) as [Hnd1 Hin1].
      intros H2. destruct (IH _ _ _ _ H2) as [Hp2 Hd2].
      split; [exact (only_prints_trans _ _ _ Hp1 Hp2)|].
      intros d Hr. destruct (Hd2 d Hr) as [Hnd2 Hin2].
      split; [auto|]. intros item Hin.
      destruct Hp1 as ((_ & Hex & Hdec & _) & _).
      destruct (Hin2 item Hin) as [Hi|(id & f & Hid & Hf & Hdf & Hn)].
      * destruct (Hin1 item Hi) as [Hi'|(f & Hf & Hdf & Hn)]; [now left|].
        right. exists tag_id, f. repeat split; auto. now left.
      * right. exists id, f. rewrite Hex in Hf. rewrite Hdec in Hdf.
        repeat split; auto. now right.
    + intros H. injection H as <- <-.
      destruct (load_tag_step _ _ _ _ _ _ H1) as [Hp1 _].
      split; [exact Hp1 | discriminate].
Qed.

(** X6: when the loop over the resolved ids ends, the names of the
    collection are pairwise distinct, and every tag of the collection is
    the decoded file found for one of the ids, under the display name of
    that file; the loop has only printed. *)
Theorem X6_collection_invariant :
  forall tag_all tag_ids w tag_images w',
    for_each tag_ids (load_tag tag_all) [] w = (Ok tag_images, w') ->
    NoDup (keys tag_images)
    /\ (forall tag_name image,
          In (tag_name, image) tag_images ->
          exists tag_id tag_file,
            In tag_id tag_ids
            /\ found_file (exists_ w) tag_all tag_id = Some tag_file
            /\ decode w tag_file = Some image
            /\ tag_name = tag_name_of tag_file)
    /\ only_prints w w'.
Proof.
  intros tag_all tag_ids w tag_images w' Hrun.
  destruct (load_tags_steps _ _ _ _ _ _ Hrun) as [Hp Hd].
  destruct (Hd tag_images eq_refl) as [Hnd Hin].
  split; [apply Hnd; constructor|]. split; [|exact Hp].
  intros tag_name image Hitem.
  destruct (Hin _ Hitem) as [[]|(id & f & H1 & H2 & H3 & H4)].
  exists id, f. auto.
Qed.

(** X6 at the ids 1, 7, 1 on a disk that has tag 1 only. *)
Lemma X6_collection_invariant_witness :
  for_each [1; 7; 1]%Z (load_tag ["tag36h11/tag36_11_00001.png"]) []
    disk_world
  = (Ok [("tag36_11_00001", checker)],
     add_lines disk_world ["Error: Could not find tag file for tag_id: 7"])
  /\ NoDup (keys [("tag36_11_00001", checker)]).
Proof.
  assert (H : for_each [1; 7; 1]%Z
                (load_tag ["tag36h11/tag36_11_00001.png"]) [] disk_world
              = (Ok [("tag36_11_00001", checker)],
                 add_lines disk_world
                   ["Error: Could not find tag file for tag_id: 7"])).
  { vm_compute. reflexivity. }
  exact (conj H (proj1 (X6_collection_invariant _ _ _ _ _ H))).
Defined.

(** ** The grid *)

(** X7: with at least one column, every tag of the collection falls in a
    cell of the grid of [rows] rows and [cols] columns that the canvas is
    computed for, and two tags in the same cell are the same tag. *)
Theorem X7_grid_cells :
  forall count columns rows i j,
    (1 <= columns)%Z ->
    ceil_truediv (Z.of_nat count) columns = Ok rows ->
    (i < count)%nat ->
    (0 <= grid_row columns i < rows)%Z
    /\ (0 <= grid_col columns i < columns)%Z
    /\ (grid_row columns i = grid_row columns j ->
        grid_col columns i = grid_col columns j ->
        i = j).
Proof.
  intros count columns rows i j Hc Hrows Hi.
  apply (ceil_truediv_rows _ _ _ Hc) in Hrows as [-> Hb].
  unfold grid_row, grid_col in *.
  split; [split|split].
  - apply Z.div_pos; lia.
  - apply Z.div_lt_upper_bound; lia.
  - apply Z.mod_pos_bound. lia.
  - intros Hr Hm.
    pose proof (Z.div_mod (Z.of_nat i) columns ltac:(lia)) as Ei.
    pose proof (Z.div_mod (Z.of_nat j) columns ltac:(lia)) as Ej.
    rewrite Hr, Hm in Ei. lia.
Qed.

(** X7 at the fourth of four tags in three columns. *)
Lemma X7_grid_cells_witness :
  (1 <= 3)%Z
  /\ ceil_truediv (Z.of_nat 4) 3 = Ok 2%Z
  /\ (3 < 4)%nat
  /\ (0 <= grid_row 3 3 < 2)%Z
  /\ (0 <= grid_col 3 3 < 3)%Z.
Proof.
  assert (H1 : (1 <= 3)%Z) by lia.
  assert (H2 : ceil_truediv (Z.of_nat 4) 3 = Ok 2%Z) by reflexivity.
  assert (H3 : (3 < 4)%nat) by lia.
  pose proof (X7_grid_cells 4 3%Z 2%Z 3 3 H1 H2 H3) as (Ha & Hb & _).
  exact (conj H1 (conj H2 (conj H3 (conj Ha Hb)))).
Defined.

(** ** The outcomes of the emitter *)

Lemma tags_log_length float_str tag_size margin columns items :
  Forall (fun item => drawable (snd (snd item))) items ->
  List.length (tags_log float_str tag_size margin columns items)
  = List.length items.
Proof.
  induction 1 as [|item items Hd _ IH]; cbn [tags_log List.length];
    [reflexivity|].
  rewrite (tag_result_drawable float_str tag_size margin columns item Hd).
  cbn [List.length]. now rewrite IH.
Qed.

(** X8: what a call of the emitter does, case by case, for every column
    count, negative ones included.  For zero columns it raises
    [ZeroDivisionError]; else, for a column count beyond the range of a
    float, [OverflowError]; else, if a raster has a zero length,
    [ZeroDivisionError]; else it returns the document.  It only prints: no
    line in the first two cases, and six lines and one line per tag when it
    returns. *)
Theorem X8_emitter_outcomes :
  forall float_str tag_images tag_size margin columns w,
    fst (gen_apriltags_svg float_str tag_images tag_size margin columns w)
    = (if (columns =? 0)%Z then Raise ZeroDivisionError
       else
         match float_of_int columns with
         | Raise _ => Raise OverflowError
         | Ok fcols =>
             if forallb (fun item => drawableb (snd item)) tag_images
             then
               Ok (Some (document float_str
                           (canvas_width tag_size margin fcols)
                           (canvas_height tag_size margin
                              (- (- Z.of_nat (List.length tag_images)
                                  / columns)))
                           (map (placed_group float_str tag_size margin
                                              columns)
                                (enumerate tag_images))))
             else Raise ZeroDivisionError
         end)
    /\ exists lines,
         snd (gen_apriltags_svg float_str tag_images tag_size margin columns w)
         = add_lines w lines
         /\ (columns = 0%Z \/ ~ in_float_range columns -> lines = [])
         /\ ((exists svg,
                 fst (gen_apriltags_svg float_str tag_images tag_size margin
                                        columns w) = Ok (Some svg)) ->
             List.length lines = (6 + List.length tag_images)%nat).
Proof.
  intros fs tag_images tag_size margin columns w.
  rewrite gen_apriltags_svg_run. cbn [fst snd].
  split; [apply gen_result_table|].
  exists (gen_log fs tag_images tag_size margin columns).
  split; [reflexivity|]. split.
  - unfold gen_log, ceil_truediv. intros [->|Hout]; [reflexivity|].
    destruct (columns =? 0)%Z; [reflexivity|].
    destruct (float_of_int columns) as [f|e] eqn:Hf; [|reflexivity].
    exfalso. apply Hout. now exists f.
  - intros [svg Hsvg].
    apply gen_result_ok_inv in Hsvg as (rows & fcols & Hr & Hf & Hd & _).
    unfold gen_log. rewrite Hr, Hf. rewrite length_app, tags_log_length
      by exact Hd.
    now rewrite enumerate_length.
Qed.

(** ** The outcomes of [main] *)

(** The end of [main], case by case. *)
Lemma emit_and_write_eq float_str args tag_images w :
  emit_and_write float_str args tag_images w =
  let lines :=
    gen_log float_str tag_images (tag_size args) (margin args) (cols args) in
  match gen_result float_str tag_images (tag_size args) (margin args)
                   (cols args) with
  | Ok (Some svg) =>
      if writable w (out_file args) then
        (Ok tt,
         add_lines (created (add_lines w lines) (out_file args) svg)
                   [("Output SVG file: " ++ out_file args ++ " with size: "
                     ++ out_file args)%string])
      else
        match leftover w (out_file args) svg with
        | Some content =>
            (Raise OSError,
             created (add_lines w lines) (out_file args) content)
        | None => (Raise OSError, add_lines w lines)
        end
  | Ok None => (Raise AssertionError, add_lines w lines)
  | Raise e => (Raise e, add_lines w lines)
  end.
Proof.
  unfold emit_and_write, bind at 1. rewrite gen_apriltags_svg_run. cbv zeta.
  destruct (gen_result float_str tag_images (tag_size args) (margin args)
                       (cols args)) as [[svg|]|e]; try reflexivity.
  unfold bind, write_file. cbn [writable leftover add_lines].
  destruct (writable w (out_file args)); [reflexivity|].
  destruct (leftover w (out_file args) svg); reflexivity.
Qed.

Lemma main_eq float_str args w :
  main float_str args w =
  match resolve_tag_ids (tag_id args) with
  | Raise e => (Raise e, w)
  | Ok tag_ids =>
      match for_each tag_ids
              (load_tag (listing w (family_name (tag_family args) ++ "/*_*.png")))
              [] w with
      | (Ok tag_images, w1) => emit_and_write float_str args tag_images w1
      | (Raise e, w1) => (Raise e, w1)
      end
  end.
Proof.
  unfold main, bind at 1, glob. unfold bind at 1, lift.
  destruct (resolve_tag_ids (tag_id args)); reflexivity.
Qed.

(** X9: a run of [main] opens the output file only once the whole
    document is built.  Whatever its arguments and its world, it only adds
    lines to the standard output.  When it ends normally, the id
    specification resolved, the loop loaded a collection, the emitter
    returned a document for it, and the output file exists and holds this
    document.  When it raises, either it has touched nothing -- no file is
    made or changed, and the file system is as before -- or the document
    was built and it is the write itself that failed after the file was
    opened: the output file then exists with what the failed write left in
    it. *)
Theorem X9_main_outcomes :
  forall float_str args w,
    let r := fst (main float_str args w) in
    let w' := snd (main float_str args w) in
    let tag_all := listing w (family_name (tag_family args) ++ "/*_*.png") in
    (exists lines, stdout w' = (stdout w ++ lines)%list)
    /\ match r with
       | Ok _ =>
           exists tag_ids tag_images svg,
             resolve_tag_ids (tag_id args) = Ok tag_ids
             /\ fst (for_each tag_ids (load_tag tag_all) [] w) = Ok tag_images
             /\ gen_result float_str tag_images (tag_size args) (margin args)
                           (cols args) = Ok (Some svg)
             /\ writable w (out_file args) = true
             /\ written w' = (out_file args, svg) :: written w
             /\ exists_ w' (out_file args) = true
       | Raise e =>
           (same_env w w' /\ written w' = written w)
           \/ (exists tag_ids tag_images svg content,
                 resolve_tag_ids (tag_id args) = Ok tag_ids
                 /\ fst (for_each tag_ids (load_tag tag_all) [] w)
                    = Ok tag_images
                 /\ gen_result float_str tag_images (tag_size args)
                               (margin args) (cols args) = Ok (Some svg)
                 /\ writable w (out_file args) = false
                 /\ leftover w (out_file args) svg = Some content
                 /\ written w' = (out_file args, content) :: written w
                 /\ exists_ w' (out_file args) = true)
       end.
Proof.
  intros fs args w. cbv zeta. rewrite main_eq.
  destruct (resolve_tag_ids (tag_id args)) as [tag_ids|e0] eqn:Hr.
  - destruct (for_each tag_ids
                (load_tag (listing w (family_name (tag_family args) ++ "/*_*.png")))
                [] w) as [[d|e1] w1] eqn:Hl.
    + destruct (load_tags_steps _ _ _ _ _ _ Hl)
        as [(Henv & Hw & l1 & Hl1) _].
      pose proof Henv as (Ha & Hb & Hc & Hd & He & Hf).
      rewrite emit_and_write_eq. cbv zeta.
      set (lines := gen_log fs d (tag_size args) (margin args) (cols args)).
      rewrite Hd, He.
      destruct (gen_result fs d (tag_size args) (margin args) (cols args))
        as [[svg|]|e] eqn:Hg.
      * destruct (writable w (out_file args)) eqn:Hwr.
        -- cbn [fst snd]. split.
           ++ exists (l1 ++ lines
                      ++ [("Output SVG file: " ++ out_file args
                           ++ " with size: " ++ out_file args)%string])%list.
              cbn [add_lines created stdout]. rewrite Hl1.
              now rewrite <- !app_assoc.
           ++ exists tag_ids, d, svg.
              split; [reflexivity|]. split; [now rewrite Hl|].
              split; [exact Hg|]. split; [reflexivity|].
              split.
              ** cbn [add_lines created written]. now rewrite Hw.
              ** cbn [add_lines created exists_].
                 now rewrite String.eqb_refl.
        -- destruct (leftover w (out_file args) svg) as [content|] eqn:Hlo;
             cbn [fst snd].
           ++ split.
              ** exists (l1 ++ lines)%list.
                 cbn [add_lines created stdout]. rewrite Hl1.
                 now rewrite <- app_assoc.
              ** right. exists tag_ids, d, svg, content.
                 split; [reflexivity|]. split; [now rewrite Hl|].
                 split; [exact Hg|]. split; [reflexivity|].
                 split; [exact Hlo|]. split.
                 --- cbn [add_lines created written]. now rewrite Hw.
                 --- cbn [add_lines created exists_].
                     now rewrite String.eqb_refl.
           ++ split.
              ** exists (l1 ++ lines)%list. cbn [add_lines stdout].
                 rewrite Hl1. now rewrite <- app_assoc.
              ** left. split; [|exact Hw].
                 unfold same_env. cbn [add_lines listing exists_ decode
                   writable leftover relisted]. now repeat split.
      * cbn [fst snd]. split.
        -- exists (l1 ++ lines)%list. cbn [add_lines stdout].
           rewrite Hl1. now rewrite <- app_assoc.
        -- left. split; [|exact Hw].
           unfold same_env. cbn [add_lines listing exists_ decode
             writable leftover relisted]. now repeat split.
      * cbn [fst snd]. split.
        -- exists (l1 ++ lines)%list. cbn [add_lines stdout].
           rewrite Hl1. now rewrite <- app_assoc.
        -- left. split; [|exact Hw].
           unfold same_env. cbn [add_lines listing exists_ decode
             writable leftover relisted]. now repeat split.
    + cbn [fst snd].
      destruct (load_tags_steps _ _ _ _ _ _ Hl) as [(Henv & Hw & Hlines) _].
      split; [exact Hlines|]. left. split; [exact Henv | exact Hw].
  - cbn [fst snd]. split; [exists []; now rewrite app_nil_r|].
    left. split; [now repeat split | reflexivity].
Qed.

(** A run on a disk without room: the document is built, the file is
    opened, and the write fails with the file left behind. *)
Lemma main_on_full_disk :
  fst (main str_float_exact some_args full_disk_world) = Raise OSError
  /\ written (snd (main str_float_exact some_args full_disk_world))
     = [("output.svg", "<?xml")]
  /\ exists_ (snd (main str_float_exact some_args full_disk_world))
             "output.svg" = true.
Proof. repeat split; vm_compute; reflexivity. Qed.

(* ================================================================= *)
(** ** The opacity printed by [gen_rgba] *)

Lemma all_bytes_complete (b : Byte.byte) : In b all_bytes.
Proof.
  unfold all_bytes. apply in_flat_map.
  exists (N.to_nat (Byte.to_N b)). split.
  - apply in_seq. pose proof (Byte.to_N_bounded b). lia.
  - rewrite N2Nat.id, Byte.of_to_N. now left.
Qed.

Lemma forallb_all_bytes (P : Byte.byte -> bool) :
  forallb P all_bytes = true -> forall b, P b = true.
Proof.
  intros H b. rewrite forallb_forall in H. apply H, all_bytes_complete.
Qed.

Lemma gen_rgba_opacity float_str (p : Pixel) :
  gen_rgba float_str p =
  "rgba(" ++ str_int (Z.of_N (Byte.to_N (red p))) ++ ", "
          ++ str_int (Z.of_N (Byte.to_N (green p))) ++ ", "
          ++ str_int (Z.of_N (Byte.to_N (blue p))) ++ ", "
          ++ float_str (opacity (alpha p)) ++ ")".
Proof. destruct p; reflexivity. Qed.

Lemma opacity_table_complete (a : Byte.byte) : In (a, opacity a) opacity_table.
Proof.
  unfold opacity_table.
  apply (in_map (fun a => (a, opacity a))), all_bytes_complete.
Qed.

Lemma ordered_as_bytes_spec (table : list (Byte.byte * float)) :
  ordered_as_bytes table = true ->
  forall x y, In x table -> In y table ->
    flt (snd x) (snd y) = (Byte.to_N (fst x) <? Byte.to_N (fst y))%N.
Proof.
  unfold ordered_as_bytes. intros H x y Hx Hy.
  rewrite forallb_forall in H. specialize (H x Hx).
  rewrite forallb_forall in H. specialize (H y Hy).
  now apply Bool.eqb_prop in H.
Qed.

Lemma opacity_table_ordered : ordered_as_bytes opacity_table = true.
Proof. vm_compute. reflexivity. Qed.

Lemma opacity_range_checked :
  forallb (fun a =>
             fle fzero (opacity a) && fle (opacity a) fone
             && Bool.eqb (feq (opacity a) fzero) (Byte.to_N a =? 0)%N
             && Bool.eqb (feq (opacity a) fone) (Byte.to_N a =? 255)%N)
          all_bytes = true.
Proof. vm_compute. reflexivity. Qed.

(** X10: the fourth number [gen_rgba] prints is the float [_raw_a / 255]
    of the alpha byte.  On the 256 bytes this quotient is strictly
    increasing (so two alpha bytes never give the same opacity), it lies
    between 0.0 and 1.0, it is 0.0 only for the byte 0 and 1.0 only for the
    byte 255: the rounding of the division never merges two levels and
    never leaves the unit interval. *)
Theorem X10_opacity_levels :
  forall float_str (p : Pixel) (a b : Byte.byte),
    gen_rgba float_str p =
      "rgba(" ++ str_int (Z.of_N (Byte.to_N (red p))) ++ ", "
              ++ str_int (Z.of_N (Byte.to_N (green p))) ++ ", "
              ++ str_int (Z.of_N (Byte.to_N (blue p))) ++ ", "
              ++ float_str (opacity (alpha p)) ++ ")"
    /\ flt (opacity a) (opacity b) = (Byte.to_N a <? Byte.to_N b)%N
    /\ fle fzero (opacity a) = true
    /\ fle (opacity a) fone = true
    /\ feq (opacity a) fzero = (Byte.to_N a =? 0)%N
    /\ feq (opacity a) fone = (Byte.to_N a =? 255)%N.
Proof.
  intros fs p a b. split; [apply gen_rgba_opacity|].
  split.
  - exact (ordered_as_bytes_spec opacity_table opacity_table_ordered
             (a, opacity a) (b, opacity b)
             (opacity_table_complete a) (opacity_table_complete b)).
  - pose proof (forallb_all_bytes _ opacity_range_checked a) as Hr.
    cbv beta in Hr.
    apply andb_prop in Hr as [Hr H4]. apply andb_prop in Hr as [Hr H3].
    apply andb_prop in Hr as [H1 H2].
    apply Bool.eqb_prop in H3, H4.
    repeat split; assumption.
Qed.

(* ================================================================= *)
(** ** The single-tag emitter *)

(** A loop whose body appends a text or raises, by a test on its item
    alone, returns all the texts, or raises, by the test on all items. *)
Lemma for_indexed_appends {A} (ok : A -> bool) (g : A -> string)
    (body : A -> string -> indexed string) :
  (forall x s, body x s = if ok x then Item (s ++ g x) else IndexError) ->
  forall xs s,
    for_indexed xs body s =
    if forallb ok xs then Item (s ++ join (map g xs)) else IndexError.
Proof.
  intros Hbody. induction xs as [|x xs IH]; intros s; cbn.
  - now rewrite append_empty_r.
  - rewrite Hbody. destruct (ok x); cbn; [|reflexivity].
    rewrite IH. destruct (forallb ok xs); [|reflexivity].
    now rewrite append_assoc.
Qed.

Lemma within_extents (w h e0 e1 : nat) :
  forallb (fun y => forallb (fun x => (x <? e0) && (y <? e1))%nat (seq 0 w))
          (seq 0 h)
  = ((w =? 0) || (h =? 0) || ((w <=? e0) && (h <=? e1)))%nat.
Proof.
  apply Bool.eq_iff_eq_true.
  rewrite forallb_forall, !orb_true_iff, andb_true_iff,
    !Nat.eqb_eq, !Nat.leb_le.
  split.
  - intros H. destruct w as [|w]; [now left; left|].
    destruct h as [|h]; [now left; right|]. right.
    split.
    + specialize (H 0%nat ltac:(apply in_seq; lia)).
      rewrite forallb_forall in H.
      specialize (H w ltac:(apply in_seq; lia)).
      apply andb_prop in H as [H _]. apply Nat.ltb_lt in H. lia.
    + specialize (H h ltac:(apply in_seq; lia)).
      rewrite forallb_forall in H.
      specialize (H 0%nat ltac:(apply in_seq; lia)).
      apply andb_prop in H as [_ H]. apply Nat.ltb_lt in H. lia.
  - intros H y Hy. apply in_seq in Hy.
    apply forallb_forall. intros x Hx. apply in_seq in Hx.
    apply andb_true_intro. rewrite !Nat.ltb_lt. lia.
Qed.

Lemma cells_length (width height : Z) :
  List.length (cells width height) = (Z.to_nat width * Z.to_nat height)%nat.
Proof.
  unfold cells.
  assert (Hys : forall ys : list nat,
            List.length (flat_map
               (fun _y => map (fun _x => (_x, _y)) (seq 0 (Z.to_nat width))) ys)
            = (Z.to_nat width * List.length ys)%nat).
  { induction ys as [|y ys IH]; cbn [flat_map List.length]; [lia|].
    rewrite length_app, length_map, length_seq, IH. lia. }
  now rewrite Hys, length_seq.
Qed.

(** X11: the single-tag emitter returns a document exactly when no cell
    of the [width] x [height] grid lies outside the pixel array it
    subscripts by [_x, _y]: when a side is not positive (no cell, an empty
    document) or both sides are within the extents.  Otherwise the
    [IndexError] of the subscription leaves the function.  The document is
    the prologue, the root element, one unit square per cell in the order
    of the loops (line after line) and the closing tag; there are
    [width * height] cells. *)
Theorem X11_single_tag_outcomes :
  forall float_str (width height : Z) (pixel_array : PixelArray) (size : string),
    gen_apriltag_svg float_str width height pixel_array size =
      (if ((width <=? 0) || (height <=? 0)
           || ((width <=? Z.of_nat (extent0 pixel_array))
               && (height <=? Z.of_nat (extent1 pixel_array))))%Z
       then Item (xml_decl
                  ++ single_svg_open width height size
                  ++ join (map (fun c =>
                                  gen_gridsquare float_str (fst c) (snd c)
                                    (item_at pixel_array (fst c) (snd c)))
                               (cells width height))
                  ++ "</svg>" ++ nl)
       else IndexError)
    /\ List.length (cells width height)
       = (Z.to_nat width * Z.to_nat height)%nat.
Proof.
  intros fs width height pa size. split; [|apply cells_length].
  unfold gen_apriltag_svg.
  set (g := fun c : nat * nat =>
              gen_gridsquare fs (fst c) (snd c) (item_at pa (fst c) (snd c))).
  set (okrow := fun y : nat =>
                  forallb (fun x => (x <? extent0 pa) && (y <? extent1 pa))%nat
                          (seq 0 (Z.to_nat width))).
  set (row := fun y : nat =>
                join (map (fun x => g (x, y)) (seq 0 (Z.to_nat width)))).
  rewrite (for_indexed_appends okrow row).
  - unfold okrow. rewrite within_extents.
    assert (Hc : ((Z.to_nat width =? 0) || (Z.to_nat height =? 0)
                  || ((Z.to_nat width <=? extent0 pa)
                      && (Z.to_nat height <=? extent1 pa)))%nat
                 = ((width <=? 0) || (height <=? 0)
                    || ((width <=? Z.of_nat (extent0 pa))
                        && (height <=? Z.of_nat (extent1 pa))))%Z).
    { apply Bool.eq_iff_eq_true.
      rewrite !orb_true_iff, !andb_true_iff, !Nat.eqb_eq, !Nat.leb_le,
        !Z.leb_le. lia. }
    rewrite Hc. clear Hc.
    destruct ((width <=? 0) || (height <=? 0)
              || ((width <=? Z.of_nat (extent0 pa))
                  && (height <=? Z.of_nat (extent1 pa))))%Z; [|reflexivity].
    f_equal. rewrite !append_assoc. do 2 f_equal.
    unfold cells. rewrite (join_flat_map g).
    apply (f_equal (fun t => join t ++ "</svg>" ++ nl)).
    apply map_ext. intros y. unfold row. now rewrite map_map.
  - intros y s.
    rewrite (for_indexed_appends
               (fun x => (x <? extent0 pa) && (y <? extent1 pa))%nat
               (fun x => g (x, y))).
    + reflexivity.
    + intros x s'. unfold getitem.
      destruct ((x <? extent0 pa) && (y <? extent1 pa))%nat; reflexivity.
Qed.

(* ================================================================= *)
(** ** The identifiers of the pixel rectangles *)

Lemma pixel_rect_id float_str pix_width pix_height x y tag_name _x _y p :
  pixel_rect float_str pix_width pix_height x y tag_name _x _y p =
  tab ++ "<rect " ++ attr "width" (float_str pix_width)
  ++ " " ++ attr "height" (float_str pix_height)
  ++ " " ++ attr "x"
       (float_str (fadd x (fmul (to_float (Z.of_nat _x)) pix_width)))
  ++ " " ++ attr "y"
       (float_str (fadd y (fmul (to_float (Z.of_nat _y)) pix_height)))
  ++ " " ++ attr "id" (pixel_id tag_name _x _y)
  ++ " " ++ attr "style"
       ("fill:" ++ rgb_hex p ++ ";stroke:#000000;stroke-width:0.0")
  ++ "/>" ++ nl.
Proof. reflexivity. Qed.

Lemma str_int_nat_no_dash (n : nat) : count "-" (str_int (Z.of_nat n)) = O.
Proof.
  apply all_digits_count; [reflexivity|].
  apply (str_int_digits (Z.of_nat n)). lia.
Qed.

Lemma str_int_nat_inj (m n : nat) :
  str_int (Z.of_nat m) = str_int (Z.of_nat n) -> m = n.
Proof.
  intros H. apply (f_equal int_opt) in H. rewrite !int_str_int in H.
  injection H as H. lia.
Qed.

(** X12: the identifier of a pixel rectangle, the tag name followed by
    the column and the line of the pixel, determines all three, whatever
    the name (it may itself hold dashes and digits): two rectangles of a
    document have the same identifier only if they are the same pixel of
    tags of the same name. *)
Theorem X12_pixel_id_injective :
  forall (tag_name tag_name' : string) (_x _y _x' _y' : nat),
    pixel_id tag_name _x _y = pixel_id tag_name' _x' _y' ->
    tag_name = tag_name' /\ _x = _x' /\ _y = _y'.
Proof.
  intros n n' x y x' y' H. unfold pixel_id in H.
  change (n ++ String "-" (str_int (Z.of_nat x)
                           ++ String "-" (str_int (Z.of_nat y)))
          = n' ++ String "-" (str_int (Z.of_nat x')
                              ++ String "-" (str_int (Z.of_nat y')))) in H.
  change (String "-" (?a ++ ?b)) with (String "-" a ++ b) in H.
  rewrite <- !append_assoc in H.
  apply append_last_piece in H as [H Hy]; try apply str_int_nat_no_dash.
  apply append_last_piece in H as [Hn Hx]; try apply str_int_nat_no_dash.
  repeat split; [exact Hn | now apply str_int_nat_inj | now apply str_int_nat_inj].
Qed.

Lemma X12_pixel_id_injective_witness :
  "tag36_11_00007" = "tag36_11_00007" /\ 3%nat = 3%nat /\ 9%nat = 9%nat.
Proof.
  apply (X12_pixel_id_injective "tag36_11_00007" "tag36_11_00007" 3 9 3 9).
  reflexivity.
Defined.

(* ================================================================= *)
(** ** The label under a tag *)

Lemma fmul_comm (x y : float) : fmul x y = fmul y x.
Proof.
  unfold fmul, SFmul.
  destruct x as [sx|sx| |sx mx ex], y as [sy|sy| |sy my ey];
    try reflexivity; try (now rewrite xorb_comm).
  now rewrite xorb_comm, Pos.mul_comm, Z.add_comm.
Qed.

(** X13: the label of a tag stands one font size under the tag: the
    [font-size] printed is the float [margin*0.8], and the [y] printed is
    the bottom edge [y+tag_size] of the tag plus that same float, although
    the source writes the product the other way round there
    ([0.8*margin]); the [x] printed is the left edge plus half the tag. *)
Theorem X13_label_one_font_size_below :
  forall float_str (tag_size margin x y : float) (tag_name : string),
    let font_size := fmul margin lit_0_8 in
    let bottom := fadd y tag_size in
    label_text float_str tag_size margin x y tag_name =
      tab ++ "<text "
      ++ attr "x" (float_str (fadd x (fdiv tag_size (to_float 2))))
      ++ " " ++ attr "y" (float_str (fadd bottom font_size))
      ++ " " ++ attr "font-size" (float_str font_size)
      ++ " " ++ attr "font-family" "monospace"
      ++ " " ++ attr "text-anchor" "middle"
      ++ " " ++ attr "fill" "#5EEF5E"
      ++ ">" ++ tag_name ++ "</text>" ++ nl.
Proof.
  intros fs tag_size margin x y tag_name. cbv zeta.
  unfold label_text. now rewrite (fmul_comm lit_0_8 margin).
Qed.
